(** * NexAllot: the seating-arrangement flow

    A shallow embedding of [src/ai/flows/seat-arrangement-flow.ts] and of the
    data shapes of [src/lib/types.ts], followed by the properties of the
    roster readers, the branch shuffler, the seat allocator and the summary
    aggregator.

    Conventions of the embedding.
    - A JavaScript string is a [string]: a sequence of code units below 256.
    - An array is a [list]; [a[i]] is [a !! i], an in-place write is [<[i:=x]> a].
    - The arrays of students that the flow mutates in place live in a store
      ([Heap]) and are named by their location, so that two names of one array
      stay one array.
    - A plain object used as a dictionary is a finite map of its own
      properties; where the code enumerates it ([Object.keys],
      [Object.values]) it is an association list kept in insertion order
      together with the enumeration order of ECMAScript.  A read [o[key]] that
      finds no own property goes on to [Object.prototype]: its members are
      [objectPrototypeNames], those of the language, as in a realm to which
      nothing was added.
    - The handler returns an answer ([Ok]) or throws ([Throw]): what is thrown
      outside its [try] leaves it.
    - [benches], [studentsPerBench] are naturals and a floor number is an
      integer, as the data model has them.
    - What lies outside the repository is an input of the model: what
      PapaParse and pdf-parse return, [Math.random], [localeCompare], and the
      objects that the engine puts behind the members of [Object.prototype]. *)

From Stdlib Require Import ZArith Lia Ascii String.
From Stdlib Require OrderedTypeEx.
From stdpp Require Import base option list gmap fin_maps strings pretty sorting.

Open Scope string_scope.
Open Scope list_scope.
Open Scope nat_scope.

(** ** JavaScript strings *)

Module JsString.

Definition code (c : ascii) : nat := nat_of_ascii c.

(** The white space of [\s] and of [trim] among the code units below 256:
    TAB, LF, VT, FF, CR, SPACE and NO-BREAK SPACE. *)
Definition isSpace (c : ascii) : bool :=
  let n := code c in
  ((9 <=? n) && (n <=? 13)) || (n =? 32) || (n =? 160).

Definition isUpper (c : ascii) : bool :=
  let n := code c in
  ((65 <=? n) && (n <=? 90))
  || ((192 <=? n) && (n <=? 222) && negb (n =? 215)).

Definition isLowerAlnum (c : ascii) : bool :=
  let n := code c in
  ((97 <=? n) && (n <=? 122)) || ((48 <=? n) && (n <=? 57)).

Definition lowerChar (c : ascii) : ascii :=
  if isUpper c then ascii_of_nat (code c + 32) else c.

Fixpoint smap (f : ascii -> ascii) (s : string) : string :=
  match s with
  | EmptyString => EmptyString
  | String c s' => String (f c) (smap f s')
  end.

Fixpoint sfilter (p : ascii -> bool) (s : string) : string :=
  match s with
  | EmptyString => EmptyString
  | String c s' => if p c then String c (sfilter p s') else sfilter p s'
  end.

(** [s.toLowerCase()] *)
Definition toLowerCase (s : string) : string := smap lowerChar s.

Fixpoint trimStart (s : string) : string :=
  match s with
  | EmptyString => EmptyString
  | String c s' => if isSpace c then trimStart s' else s
  end.

(** [trimEnd] drops the trailing white space: a character is kept when it
    is not white space or when something is kept after it. *)
Fixpoint trimEnd (s : string) : string :=
  match s with
  | EmptyString => EmptyString
  | String c s' =>
      match trimEnd s' with
      | EmptyString => if isSpace c then EmptyString else String c EmptyString
      | t => String c t
      end
  end.

(** [s.trim()] *)
Definition trim (s : string) : string := trimEnd (trimStart s).

(** [s.startsWith(p)] *)
Definition startsWith (s p : string) : bool := String.prefix p s.

(** [s.includes(needle)] *)
Fixpoint includes (s needle : string) : bool :=
  String.prefix needle s
  || match s with
     | EmptyString => false
     | String _ s' => includes s' needle
     end.

Definition isEmpty (s : string) : bool :=
  match s with EmptyString => true | _ => false end.

(** [s.split(sep)] for a one-character separator. *)
Fixpoint splitChar_go (sep : ascii) (cur : string) (s : string) : list string :=
  match s with
  | EmptyString => [String.rev cur]
  | String c s' =>
      if Ascii.eqb c sep then String.rev cur :: splitChar_go sep EmptyString s'
      else splitChar_go sep (String c cur) s'
  end.

Definition splitChar (sep : ascii) (s : string) : list string :=
  splitChar_go sep EmptyString s.

(** [s.split(/\s{2,}/)]: the separators are the maximal runs of two or more
    white-space characters; a single white-space character stays in its
    part.  [cur] is the part being read, reversed; [inRun] says that the
    characters read last belong to a separator. *)
Fixpoint splitWide_go (inRun : bool) (cur : string) (s : string) : list string :=
  match s with
  | EmptyString => [String.rev cur]
  | String c s' =>
      if isSpace c then
        if inRun then splitWide_go true cur s'
        else
          match s' with
          | String c' _ =>
              if isSpace c' then String.rev cur :: splitWide_go true EmptyString s'
              else splitWide_go false (String c cur) s'
          | EmptyString => splitWide_go false (String c cur) s'
          end
      else splitWide_go false (String c cur) s'
  end.

Definition splitWide (s : string) : list string :=
  splitWide_go false EmptyString s.

End JsString.

Import JsString.

(** ** Data model ([src/lib/types.ts]) *)

Module Student.
Record t := mk {
  name : string;
  hallTicketNumber : string;
  branch : string;
  contactNumber : string
}.
End Student.

Module SeatingAssignment.
Record t := mk {
  name : string;
  hallTicketNumber : string;
  branch : string;
  contactNumber : string;
  block : string;
  floor : string;
  classroom : string;
  benchNumber : string
}.

(** The student fields of an assignment. *)
Definition student (a : t) : Student.t :=
  Student.mk (name a) (hallTicketNumber a) (branch a) (contactNumber a).

(** The seat of an assignment. *)
Definition seat (a : t) : string * string * string * string :=
  (block a, floor a, classroom a, benchNumber a).

(** The room of an assignment, as the output names it. *)
Definition room (a : t) : string * string * string :=
  (block a, floor a, classroom a).
End SeatingAssignment.

Module Room.
Record t := mk { number : string; benches : nat; studentsPerBench : nat }.
End Room.

Module Floor.
Record t := mk { number : Z; rooms : list Room.t }.
End Floor.

Module Block.
Record t := mk { name : string; floors : list Floor.t }.
End Block.

Module LayoutConfig.
Record t := mk {
  blocks : list Block.t;
  startDate : string;
  endDate : string;
  examTimings : list string
}.
End LayoutConfig.

Module ExamConfig.
Record t := mk {
  startDate : string;
  endDate : string;
  examTimings : list string;
  useSamePlan : bool
}.
End ExamConfig.

(** [RoomBranchSummarySchema]: room number, then branch, then count. *)
Abbreviation RoomBranchSummary := (gmap string (gmap string nat)).

(** [RoomSchema], [FloorSchema], [BlockSchema] and the [blocks] field of
    [LayoutFormSchema]: what the input validation lets through. *)
Definition RoomSchema (r : Room.t) : bool :=
  negb (isEmpty (Room.number r))
  && (1 <=? Room.benches r)
  && (1 <=? Room.studentsPerBench r) && (Room.studentsPerBench r <=? 2).

Definition FloorSchema (f : Floor.t) : bool :=
  forallb RoomSchema (Floor.rooms f) && (1 <=? length (Floor.rooms f)).

Definition BlockSchema (b : Block.t) : bool :=
  negb (isEmpty (Block.name b))
  && forallb FloorSchema (Block.floors b) && (1 <=? length (Block.floors b)).

Definition LayoutFormSchema (l : LayoutConfig.t) : bool :=
  forallb BlockSchema (LayoutConfig.blocks l)
  && (1 <=? length (LayoutConfig.blocks l)).

(** ** Values thrown and results *)

(** What a [catch] clause can receive: an [Error] with its message, or a
    value that is not an [Error]. *)
Inductive Thrown :=
| ErrorObj (message : string)
| NonError.

Inductive Result (A : Type) :=
| Ok (a : A)
| Throw (e : Thrown).
Arguments Ok {A} a.
Arguments Throw {A} e.

#[global] Instance Result_bind : MBind Result := fun A B k r =>
  match r with
  | Ok a => k a
  | Throw e => Throw e
  end.

(** [o ? Ok : throw new Error(msg)] for a header that may be [undefined]. *)
Definition required {A} (o : option A) (msg : string) : Result A :=
  match o with
  | Some a => Ok a
  | None => Throw (ErrorObj msg)
  end.

(** ** Header resolver *)

(** [array.findIndex(p)]; [None] stands for -1. *)
Fixpoint findIndex {A} (p : A -> bool) (l : list A) : option nat :=
  match l with
  | [] => None
  | x :: l' => if p x then Some 0 else S <$> findIndex p l'
  end.

(** [array.indexOf(x)] on strings. *)
Definition indexOf (l : list string) (x : string) : option nat :=
  findIndex (String.eqb x) l.

Definition normalizeHeader (header : string) : string :=
  trim (sfilter isLowerAlnum (sfilter (fun c => negb (isSpace c)) (toLowerCase header))).

Fixpoint findHeaderMatch_keywords (headers normalizedHeaders : list string)
    (keywords : list string) : option string :=
  match keywords with
  | [] => None
  | keyword :: rest =>
      let normKeyword := normalizeHeader keyword in
      match findIndex (fun h => includes h normKeyword) normalizedHeaders with
      | Some index => headers !! index
      | None => findHeaderMatch_keywords headers normalizedHeaders rest
      end
  end.

Definition findHeaderMatch (headers keywords : list string) : option string :=
  findHeaderMatch_keywords headers (map normalizeHeader headers) keywords.

Definition nameKeywords : list string :=
  ["name"; "studentname"; "fullname"; "nameofstudent"].
Definition hallTicketKeywords : list string :=
  ["hallticketnumber"; "hallticket"; "ticketnumber"; "htno"; "rollno"; "roll number"].
Definition branchKeywords : list string :=
  ["branch"; "department"; "stream"].
Definition contactKeywords : list string :=
  ["contactnumber"; "phone"; "phonenumber"; "mobile"; "contact no"].

(** The four columns of a header row, as both readers resolve them. *)
Record Columns := mkColumns {
  nameHeader : option string;
  hallTicketHeader : option string;
  branchHeader : option string;
  contactHeader : option string
}.

Definition resolveColumns (headers : list string) : Columns :=
  mkColumns (findHeaderMatch headers nameKeywords)
            (findHeaderMatch headers hallTicketKeywords)
            (findHeaderMatch headers branchKeywords)
            (findHeaderMatch headers contactKeywords).

(** ** Delimited-text reader *)

(** What PapaParse hands to [complete]: [results.errors], [results.meta.fields]
    (already passed through [transformHeader]) and [results.data], one object
    per row. *)
Record PapaResults := mkPapaResults {
  errors : list string;
  fields : option (list string);
  data : list (gmap string string)
}.

(** PapaParse calls [complete] or [error]. *)
Inductive PapaOutcome :=
| PapaComplete (results : PapaResults)
| PapaError (error : Thrown).

(** [row[header] || ''] *)
Definition cell (row : gmap string string) (header : string) : string :=
  default "" (row !! header).

Definition csvStudent (n h b c : string) (row : gmap string string) : Student.t :=
  Student.mk (cell row n) (cell row h) (cell row b) (cell row c).

(** [s.name && s.hallTicketNumber] *)
Definition hasNameAndTicket (s : Student.t) : bool :=
  negb (isEmpty (Student.name s)) && negb (isEmpty (Student.hallTicketNumber s)).

Definition parseStudentsFromCSV (csv : PapaOutcome) : Result (list Student.t) :=
  match csv with
  | PapaError e => Throw e
  | PapaComplete results =>
      match errors results with
      | _ :: _ => Throw (ErrorObj "Failed to parse CSV file. Please check the format.")
      | [] =>
          let headers := default [] (fields results) in
          let cols := resolveColumns headers in
          n ← required (nameHeader cols)
                 "Could not find a 'Name' column. Please ensure your CSV has a column for student names (e.g., 'Name', 'FullName')." ;
          h ← required (hallTicketHeader cols)
                 "Could not find a 'Hall Ticket Number' column. Please ensure your CSV has a column for hall tickets (e.g., 'HallTicket', 'Roll No')." ;
          b ← required (branchHeader cols)
                 "Could not find a 'Branch' column. Please ensure your CSV has a column for student branch (e.g., 'Branch', 'Department')." ;
          c ← required (contactHeader cols)
                 "Could not find a 'Contact Number' column. Please ensure your CSV has a column for contact info (e.g., 'Phone', 'ContactNumber')." ;
          Ok (filter (fun s => hasNameAndTicket s = true) (map (csvStudent n h b c) (data results)))
      end
  end.

(** ** Tabular-text reader *)

(** [parts[index] || ''], where [index] is the result of an [indexOf]. *)
Definition part (parts : list string) (index : option nat) : string :=
  default "" (index ≫= (parts !!.)).

(** One data line: [null] when it has fewer parts than the header. *)
Definition pdfStudent (headers : list string) (ni hi bi ci : option nat)
    (line : string) : option Student.t :=
  let parts := map trim (splitWide (trim line)) in
  if length parts <? length headers then None
  else Some (Student.mk (part parts ni) (part parts hi) (part parts bi) (part parts ci)).

Definition pdfKeep (s : option Student.t) : option Student.t :=
  match s with
  | Some st =>
      if negb (isEmpty (Student.hallTicketNumber st)) && negb (isEmpty (Student.name st))
      then Some st else None
  | None => None
  end.

(** [pdf] is what [pdf-parse] gives for the file: the extracted text, or the
    value it throws. *)
Definition parseStudentsFromPDF (pdf : Result string) : Result (list Student.t) :=
  text ← pdf ;
  let lines := filter (fun line => isEmpty (trim line) = false) (splitChar "010" text) in
  if length lines <? 2 then
    Throw (ErrorObj "PDF content is not in a valid table format.")
  else
    let headers := map trim (splitWide (trim (hd "" lines))) in
    let cols := resolveColumns headers in
    n ← required (nameHeader cols)
           "Could not find a 'Name' column in the PDF. Please ensure your PDF has a column for student names." ;
    h ← required (hallTicketHeader cols)
           "Could not find a 'Hall Ticket Number' column in the PDF. Please ensure your PDF has a column for hall tickets." ;
    b ← required (branchHeader cols)
           "Could not find a 'Branch' column in the PDF. Please ensure your PDF has a column for student branch." ;
    c ← required (contactHeader cols)
           "Could not find a 'Contact Number' column in the PDF. Please ensure your PDF has a column for contact info." ;
    let students :=
      omap (fun line => pdfKeep (pdfStudent headers (indexOf headers n) (indexOf headers h)
                                   (indexOf headers b) (indexOf headers c) line))
           (tail lines) in
    match students with
    | [] => Throw (ErrorObj "Could not parse any students from the PDF. Please check the file's text format.")
    | _ => Ok students
    end.

(** ** Roster merger *)

(** One entry of [studentListDataUris], with what the two decoders make of
    the bytes after its first comma. *)
Record InputFile := mkInputFile {
  dataUri : string;
  pdfText : Result string;
  csvParse : PapaOutcome
}.

Definition readFile (f : InputFile) : Result (list Student.t) :=
  if startsWith (dataUri f) "data:application/pdf" then
    parseStudentsFromPDF (pdfText f)
  else if startsWith (dataUri f) "data:text/csv"
          || startsWith (dataUri f) "data:application/vnd.ms-excel" then
    parseStudentsFromCSV (csvParse f)
  else
    match parseStudentsFromPDF (pdfText f) with
    | Ok students => Ok students
    | Throw _ =>
        match parseStudentsFromCSV (csvParse f) with
        | Ok students => Ok students
        | Throw _ => Throw (ErrorObj "Unsupported file type. Please upload a valid CSV or PDF file.")
        end
    end.

(** The loop over [input.studentListDataUris]: [allStudents.push(...students)]
    for each file, until a file throws. *)
Fixpoint readFiles (files : list InputFile) (allStudents : list Student.t)
    : Result (list Student.t) :=
  match files with
  | [] => Ok allStudents
  | f :: rest =>
      students ← readFile f ;
      readFiles rest (allStudents ++ students)
  end.

(** ** Random numbers and the shuffle *)

(** The generator behind [Math.random] is a stream of draws: [rnd k] is what
    the [k]-th call contributes.  [Math.floor(Math.random() * n)] lies in
    [0 .. n-1], and every value there is reached by some stream. *)
Definition randomBelow (rnd : nat -> nat) (k n : nat) : nat := rnd k mod n.

Section Shuffle.
Context {T : Type}.

(** [[array[i], array[j]] = [array[j], array[i]]]: both reads, then the write
    at [i], then the write at [j].  The loop keeps [i] and [j] inside the
    array. *)
Definition swap (array : list T) (i j : nat) : list T :=
  match array !! j, array !! i with
  | Some aj, Some ai => <[j := ai]> (<[i := aj]> array)
  | _, _ => array
  end.

(** The loop of [shuffleArray], from index [i] down to 1; [k] counts the
    calls of [Math.random] made so far. *)
Fixpoint shuffleFrom (rnd : nat -> nat) (i : nat) (k : nat) (array : list T)
    : list T * nat :=
  match i with
  | 0 => (array, k)
  | S i' =>
      let j := randomBelow rnd k (i + 1) in
      shuffleFrom rnd i' (S k) (swap array i j)
  end.

(** The contents of the array after [shuffleArray(array)], and the number of
    draws used. *)
Definition shuffleArray (rnd : nat -> nat) (k : nat) (array : list T)
    : list T * nat :=
  shuffleFrom rnd (length array - 1) k array.
End Shuffle.

(** ** Enumeration order of an object *)

Section OwnKeys.
Context {V : Type}.

Definition digitValue (c : ascii) : option N :=
  let n := code c in
  if (48 <=? n) && (n <=? 57) then Some (N.of_nat (n - 48)) else None.

Fixpoint parseDigits (acc : N) (s : string) : option N :=
  match s with
  | EmptyString => Some acc
  | String c s' => d ← digitValue c; parseDigits (acc * 10 + d)%N s'
  end.

(** An array index: the canonical decimal writing of an integer below
    2^32 - 1. *)
Definition arrayIndex (key : string) : option N :=
  n ← parseDigits 0%N key;
  if String.eqb (pretty n) key && (n <? 4294967295)%N then Some n else None.

Definition indexLe (x y : string * V) : Prop :=
  match arrayIndex x.1, arrayIndex y.1 with
  | Some a, Some b => (a ≤ b)%N
  | _, _ => True
  end.

#[global] Instance indexLe_dec x y : Decision (indexLe x y).
Proof.
  unfold indexLe. destruct (arrayIndex x.1), (arrayIndex y.1); apply _.
Defined.

(** The order in which [Object.keys] and [Object.values] visit the own
    properties: array indices in ascending order, then the other keys in
    insertion order. *)
Definition ownProperties (o : list (string * V)) : list (string * V) :=
  merge_sort indexLe (filter (fun e => is_Some (arrayIndex e.1)) o)
  ++ filter (fun e => ¬ is_Some (arrayIndex e.1)) o.

(** [o[key]] on an object kept in insertion order. *)
Fixpoint getProperty (o : list (string * V)) (key : string) : option V :=
  match o with
  | [] => None
  | (k, v) :: o' => if String.eqb k key then Some v else getProperty o' key
  end.
End OwnKeys.

(** The members of [Object.prototype]: what a plain object answers for these
    keys when it has no own property of the name, a function for each but
    ["__proto__"], which answers the prototype itself.  All of them are
    truthy, and none of them has a [push]. *)
Definition objectPrototypeNames : list string :=
  ["constructor"; "__defineGetter__"; "__defineSetter__"; "hasOwnProperty";
   "__lookupGetter__"; "__lookupSetter__"; "isPrototypeOf";
   "propertyIsEnumerable"; "toString"; "valueOf"; "__proto__"; "toLocaleString"].

Definition inherited (key : string) : bool :=
  bool_decide (key ∈ objectPrototypeNames).

(** ** Branch partitioner and shuffler *)

(** The store of the arrays of students that are written in place. *)
Abbreviation Heap := (gmap nat (list Student.t)).

(** [allStudents] is the first array the flow creates. *)
Definition allStudentsLoc : nat := 0.

(** [studentsByBranch] maps a branch to (the location of) its array. *)
Record Partition := mkPartition {
  heap : Heap;
  nextLoc : nat;
  studentsByBranch : list (string * nat)
}.

(** The [TypeError] of a call of [push] on a value that has none, in the
    words of V8. *)
Definition pushIsNotAFunction : Thrown :=
  ErrorObj "studentsByBranch[student.branch].push is not a function".

(** Lines 196 to 199: [o[student.branch].push(student)], after
    [o[student.branch] = []] when [o[student.branch]] is falsy.  A branch
    with an array has it as an own property.  For a branch without one the
    read goes on to [Object.prototype]: a member of that name is truthy, no
    array is made, and the call of [push] on the member throws. *)
Definition pushToBranch (p : Partition) (student : Student.t) : Result Partition :=
  match getProperty (studentsByBranch p) (Student.branch student) with
  | Some loc =>
      Ok (mkPartition (alter (fun a => a ++ [student]) loc (heap p))
                      (nextLoc p) (studentsByBranch p))
  | None =>
      if inherited (Student.branch student) then Throw pushIsNotAFunction
      else
        let loc := nextLoc p in
        Ok (mkPartition (<[loc := [student]]> (heap p)) (S loc)
                        (studentsByBranch p ++ [(Student.branch student, loc)]))
  end.

(** [allStudents.forEach(...)]: indices [i], [i+1], ... below the length the
    array had at the start, each element read when its turn comes; what a turn
    throws ends the loop. *)
Fixpoint groupFrom (n i : nat) (p : Partition) : Result Partition :=
  match n with
  | 0 => Ok p
  | S n' =>
      match heap p !! allStudentsLoc ≫= (.!! i) with
      | Some student => p' ← pushToBranch p student; groupFrom n' (S i) p'
      | None => groupFrom n' (S i) p
      end
  end.

Definition groupByBranch (h : Heap) : Result Partition :=
  groupFrom (length (default [] (h !! allStudentsLoc))) 0
            (mkPartition h (S allStudentsLoc) []).

(** [shuffleArray] on the array at [loc], in place. *)
Definition shuffleAt (rnd : nat -> nat) (loc : nat) (hk : Heap * nat) : Heap * nat :=
  match hk.1 !! loc with
  | Some array =>
      let '(array', k') := shuffleArray rnd hk.2 array in
      (<[loc := array']> hk.1, k')
  | None => hk
  end.

(** [Object.values(studentsByBranch).forEach(shuffleArray)] *)
Definition shuffleBranches (rnd : nat -> nat) (p : Partition) (k : nat) : Heap * nat :=
  fold_left (fun hk e => shuffleAt rnd e.2 hk) (ownProperties (studentsByBranch p))
            (heap p, k).

(** [branchNames.flatMap(branch => studentsByBranch[branch])] *)
Definition flatMapBranches (h : Heap) (o : list (string * nat))
    (branchNames : list string) : list Student.t :=
  branchNames ≫= (fun b => default [] (getProperty o b ≫= (h !!.))).

(** Lines 194 to 205: the heap after the shuffles, and the pool. *)
Definition buildPool (rnd : nat -> nat) (h : Heap) : Result (Heap * list Student.t) :=
  p ← groupByBranch h;
  let '(h', k) := shuffleBranches rnd p 0 in
  let branchNames := (shuffleArray rnd k (ownProperties (studentsByBranch p)).*1).1 in
  Ok (h', flatMapBranches h' (studentsByBranch p) branchNames).

(** ** Seat allocator *)

Module Alloc.
(** The three variables the loops of the allocator update. *)
Record t := mk {
  studentPool : list Student.t;
  seatingPlan : list SeatingAssignment.t;
  studentIndex : nat
}.
End Alloc.

(** [{ ...student, ...seatInfo, benchNumber }] *)
Definition assign (student : Student.t) (seatInfo : string * string * string)
    (benchNumber : string) : SeatingAssignment.t :=
  SeatingAssignment.mk
    (Student.name student) (Student.hallTicketNumber student)
    (Student.branch student) (Student.contactNumber student)
    seatInfo.1.1 seatInfo.1.2 seatInfo.2 benchNumber.

(** [{ block: block.name, floor: String(floor.number), classroom: room.number }];
    [String] of an integer that a number holds exactly (below 2^53 in
    absolute value) is its decimal writing; of larger numbers JavaScript
    writes the leading digits only and, from 10^21 on, an exponent. *)
Definition seatInfoOf (block : Block.t) (floor : Floor.t) (room : Room.t)
    : string * string * string :=
  (Block.name block, pretty (Floor.number floor), Room.number room).

(** [Math.min(room.benches, 45) * room.studentsPerBench] *)
Definition roomCapacity (room : Room.t) : nat :=
  Nat.min (Room.benches room) 45 * Room.studentsPerBench room.

(** Lines 244 to 259 on a pool [student1 :: rest] of at least two students:
    the partner of [student1] and the pool without the two. *)
Definition pickPartner (student1 : Student.t) (studentPool : list Student.t)
    : option Student.t * list Student.t :=
  let differentBranchIndex :=
    findIndex (fun s => negb (String.eqb (Student.branch s) (Student.branch student1)))
              studentPool in
  let '(student2, pool1) :=
    match differentBranchIndex with
    | Some d => (studentPool !! d, delete d studentPool)
    | None => (studentPool !! 1, delete 1 studentPool)
    end in
  (student2, tail pool1).

Section Allocator.
Variable totalCapacity : nat.

Section OneRoom.
Variable seatInfo : string * string * string.
Variable room : Room.t.

(** The loop [for (let i = 0; i < roomCapacity; i++)] from a given [i] and
    [benchCounter].  Every turn adds at least one to [i], so [fuel] turns
    with [roomCapacity <= i + fuel] run the loop to its end.  In a room of
    double benches the test [studentPool.length < 2] is the shape of the pool:
    empty or one student, against two students or more. *)
Fixpoint seatLoop (fuel i benchCounter : nat) (st : Alloc.t) : Alloc.t :=
  match fuel with
  | 0 => st
  | S fuel' =>
      if negb (i <? roomCapacity room) then st
      else if (totalCapacity <=? Alloc.studentIndex st)
              || (length (Alloc.studentPool st) =? 0) then st
      else if Room.studentsPerBench room =? 1 then
        match Alloc.studentPool st with
        | student :: pool' =>
            seatLoop fuel' (S i) (S benchCounter)
              (Alloc.mk pool'
                 (Alloc.seatingPlan st ++ [assign student seatInfo (pretty benchCounter)])
                 (S (Alloc.studentIndex st)))
        | [] => seatLoop fuel' (S i) benchCounter st
        end
      else if Room.studentsPerBench room =? 2 then
        match Alloc.studentPool st with
        | [] => seatLoop fuel' (S i) benchCounter st
        | [student] =>
            seatLoop fuel' (S i) (S benchCounter)
              (Alloc.mk []
                 (Alloc.seatingPlan st
                    ++ [assign student seatInfo (pretty benchCounter +:+ "L")])
                 (S (Alloc.studentIndex st)))
        | student1 :: _ :: _ =>
            let '(student2, pool') := pickPartner student1 (Alloc.studentPool st) in
            let plan1 :=
              Alloc.seatingPlan st
                ++ [assign student1 seatInfo (pretty benchCounter +:+ "L")] in
            let index1 := S (Alloc.studentIndex st) in
            if totalCapacity <=? index1 then Alloc.mk pool' plan1 index1
            else
              let st2 :=
                match student2 with
                | Some s2 =>
                    Alloc.mk pool'
                      (plan1 ++ [assign s2 seatInfo (pretty benchCounter +:+ "R")])
                      (S index1)
                | None => Alloc.mk pool' plan1 index1
                end in
              seatLoop fuel' (S (S i)) (S benchCounter) st2
        end
      else seatLoop fuel' (S i) benchCounter st
  end.

(** One room: lines 215 to 273. *)
Definition allocRoom (st : Alloc.t) : Alloc.t :=
  seatLoop (roomCapacity room) 0 1 st.
End OneRoom.

(** [for (const room of floor.rooms)], with its [break]. *)
Fixpoint roomsLoop (block : Block.t) (floor : Floor.t) (rooms : list Room.t)
    (st : Alloc.t) : Alloc.t :=
  match rooms with
  | [] => st
  | room :: rest =>
      if totalCapacity <=? Alloc.studentIndex st then st
      else roomsLoop block floor rest (allocRoom (seatInfoOf block floor room) room st)
  end.

Definition floorsLoop (block : Block.t) (floors : list Floor.t) (st : Alloc.t)
    : Alloc.t :=
  fold_left (fun st floor => roomsLoop block floor (Floor.rooms floor) st) floors st.

Definition blocksLoop (blocks : list Block.t) (st : Alloc.t) : Alloc.t :=
  fold_left (fun st block => floorsLoop block (Block.floors block) st) blocks st.
End Allocator.

(** Lines 180 to 187. *)
Definition totalCapacityOf (layout : LayoutConfig.t) : nat :=
  fold_left (fun total b =>
    fold_left (fun total f =>
      fold_left (fun total r => total + Room.benches r * Room.studentsPerBench r)
                (Floor.rooms f) total)
      (Block.floors b) total)
    (LayoutConfig.blocks layout) 0.

(** ** Final sort and summary *)

Section Sort.
(** [a.localeCompare(b)]: negative, zero or positive. *)
Variable localeCompare : string -> string -> Z.

Definition compareAssignments (a b : SeatingAssignment.t) : Z :=
  localeCompare (SeatingAssignment.hallTicketNumber a)
                (SeatingAssignment.hallTicketNumber b).

(** [Array.prototype.sort] is stable: an element goes before the first one
    it does not compare greater than. *)
Fixpoint insertSorted (x : SeatingAssignment.t) (l : list SeatingAssignment.t)
    : list SeatingAssignment.t :=
  match l with
  | [] => [x]
  | y :: l' =>
      if (0 <? compareAssignments x y)%Z then y :: insertSorted x l'
      else x :: y :: l'
  end.

Definition sortPlan (plan : list SeatingAssignment.t) : list SeatingAssignment.t :=
  foldr insertSorted [] plan.
End Sort.

(** One turn of [seatingPlan.forEach] at lines 289 to 298, when its reads
    stay with own properties: the object of the room, made when there is none,
    and in it the count of the branch, 0 when there is none, plus one. *)
Definition countAssignment (summary : RoomBranchSummary) (a : SeatingAssignment.t)
    : RoomBranchSummary :=
  let classroom := SeatingAssignment.classroom a in
  let branch := SeatingAssignment.branch a in
  let ofRoom := default ∅ (summary !! classroom) in
  let count := default 0 (ofRoom !! branch) in
  <[classroom := <[branch := S count]> ofRoom]> summary.

(** The properties of a function that a write cannot change (["length"],
    ["name"], ["prototype"]) or whose read throws (["caller"],
    ["arguments"]). *)
Definition functionNames : list string :=
  ["length"; "name"; "prototype"; "caller"; "arguments"].

(** Where the counter of a turn lives.
    - [OwnCount]: both reads, [roomBranchSummary[classroom]] and
      [roomBranchSummary[classroom][branch]], find an own property or nothing
      at all, and [countAssignment] is the turn.
    - [MethodCount]: the summary has no own property of the name of the room
      and the read goes on to a method of [Object.prototype].  The method is
      truthy, so no object is made for the room; the counter is a property of
      this function, read, set to 0 when falsy, and incremented there.  The
      summary is not written.  This is the case unless the branch is one of
      [functionNames] or names a member of [Object.prototype].
    - [EngineCount]: any other read that finds a member of
      [Object.prototype]: the room is ["__proto__"], so that the counter is a
      property of [Object.prototype] from which every object then inherits;
      or the branch names a property that a function has or inherits; or the
      branch is read in the object of the room and names a member of
      [Object.prototype]. *)
Inductive CountTurn := OwnCount | MethodCount | EngineCount.

Definition countTurn (summary : RoomBranchSummary) (a : SeatingAssignment.t)
    : CountTurn :=
  let classroom := SeatingAssignment.classroom a in
  let branch := SeatingAssignment.branch a in
  match summary !! classroom with
  | Some ofRoom =>
      match ofRoom !! branch with
      | Some _ => OwnCount
      | None => if inherited branch then EngineCount else OwnCount
      end
  | None =>
      if inherited classroom then
        if String.eqb classroom "__proto__" || inherited branch
           || bool_decide (branch ∈ functionNames)
        then EngineCount else MethodCount
      else if inherited branch then EngineCount else OwnCount
  end.

Section Summary.
(** What the loop gives from an [EngineCount] turn on: from there on counts
    are read from, and written to, objects of the engine that other reads
    reach, and a write that such an object refuses throws. *)
Variable prototypeCounts :
  RoomBranchSummary -> list SeatingAssignment.t -> Result RoomBranchSummary.

(** Lines 288 to 298, from a summary on. *)
Fixpoint summarizeFrom (plan : list SeatingAssignment.t) (summary : RoomBranchSummary)
    : Result RoomBranchSummary :=
  match plan with
  | [] => Ok summary
  | a :: plan' =>
      match countTurn summary a with
      | OwnCount => summarizeFrom plan' (countAssignment summary a)
      | MethodCount => summarizeFrom plan' summary
      | EngineCount => prototypeCounts summary plan
      end
  end.

Definition summarize (plan : list SeatingAssignment.t) : Result RoomBranchSummary :=
  summarizeFrom plan ∅.
End Summary.

(** The sum of the weights of the values of an object. *)
Definition weigh {V} (f : V -> nat) (m : gmap string V) : nat :=
  map_fold (fun _ v acc => f v + acc) 0 m.

(** The sum of all the counts of a summary. *)
Definition summaryTotal (summary : RoomBranchSummary) : nat :=
  weigh (weigh id) summary.

(** ** The flow *)

Module Input.
Record t := mk {
  studentListDataUris : list InputFile;
  layoutConfig : LayoutConfig.t
}.
End Input.

Module Output.
(** [GenerateSeatingArrangementOutputSchema]: every field is optional. *)
Record t := mk {
  seatingPlan : option (list SeatingAssignment.t);
  examConfig : option ExamConfig.t;
  roomBranchSummary : option RoomBranchSummary;
  allStudents : option (list Student.t);
  error : option string
}.

(** [{ error: message }] *)
Definition failure (message : string) : t :=
  mk None None None None (Some message).
End Output.

Definition emptyRosterMessage : string :=
  "Could not extract any student data from the uploaded files. Please ensure files are correctly formatted and not empty.".

Section Flow.
Variable rnd : nat -> nat.
Variable localeCompare : string -> string -> Z.
Variable prototypeCounts :
  RoomBranchSummary -> list SeatingAssignment.t -> Result RoomBranchSummary.

(** Lines 178 to 300, from the heap that holds the merged roster.  Nothing
    here is inside a [try]: what the partition or the summary throws leaves the
    handler. *)
Definition arrange (layout : LayoutConfig.t) (h : Heap) : Result Output.t :=
  let totalCapacity := totalCapacityOf layout in
  '(h', studentPool) ← buildPool rnd h;
  let st := blocksLoop totalCapacity (LayoutConfig.blocks layout)
              (Alloc.mk studentPool [] 0) in
  let seatingPlan := sortPlan localeCompare (Alloc.seatingPlan st) in
  let examConfig :=
    ExamConfig.mk (LayoutConfig.startDate layout) (LayoutConfig.endDate layout)
                  (LayoutConfig.examTimings layout) true in
  roomBranchSummary ← summarize prototypeCounts seatingPlan;
  Ok (Output.mk (Some seatingPlan) (Some examConfig) (Some roomBranchSummary)
                (h' !! allStudentsLoc) None).

(** The handler of the flow: the answer it returns, or what it throws. *)
Definition seatingArrangementFlow (input : Input.t) : Result Output.t :=
  match readFiles (Input.studentListDataUris input) [] with
  | Throw (ErrorObj message) => Ok (Output.failure message)
  | Throw NonError => Ok (Output.failure "Failed to parse one or more student files.")
  | Ok [] => Ok (Output.failure emptyRosterMessage)
  | Ok allStudents =>
      arrange (Input.layoutConfig input) {[ allStudentsLoc := allStudents ]}
  end.
End Flow.

(** ** The payload of a data URI *)

(** [s.indexOf(c)] for a character; [None] stands for -1. *)
Fixpoint indexOfChar (c : ascii) (s : string) : option nat :=
  match s with
  | EmptyString => None
  | String a s' => if Ascii.eqb a c then Some 0 else S <$> indexOfChar c s'
  end.

(** [s.substring(n)] *)
Fixpoint substringFrom (n : nat) (s : string) : string :=
  match n, s with
  | 0, _ => s
  | S n', String _ s' => substringFrom n' s'
  | S _, EmptyString => EmptyString
  end.

(** The first line of [dataUriToBuffer]: the text that is handed to the
    base64 decoder, [dataUri.substring(dataUri.indexOf(',') + 1)].  With no
    comma [indexOf] is -1 and the text is the whole URI. *)
Definition base64Payload (dataUri : string) : string :=
  substringFrom (match indexOfChar "," dataUri with
                 | Some i => i + 1
                 | None => 0
                 end) dataUri.

(** ** The allocation without its ceiling *)

(** A room of single benches: the front of the pool, one student a bench,
    numbered from [benchCounter]. *)
Fixpoint seatSingles (seatInfo : string * string * string) (benchCounter seats : nat)
    (pool : list Student.t) : list SeatingAssignment.t * list Student.t :=
  match seats, pool with
  | S seats', student :: pool' =>
      let '(new, rest) := seatSingles seatInfo (S benchCounter) seats' pool' in
      (assign student seatInfo (pretty benchCounter) :: new, rest)
  | _, _ => ([], pool)
  end.

(** A room of double benches: the front student on L with the partner that
    [pickPartner] gives on R, bench after bench; a last student alone on L. *)
Fixpoint seatDoubles (seatInfo : string * string * string) (benchCounter benches : nat)
    (pool : list Student.t) : list SeatingAssignment.t * list Student.t :=
  match benches with
  | 0 => ([], pool)
  | S benches' =>
      match pool with
      | [] => ([], [])
      | [student] => ([assign student seatInfo (pretty benchCounter +:+ "L")], [])
      | student1 :: _ :: _ =>
          match pickPartner student1 pool with
          | (Some student2, pool') =>
              let '(new, rest) := seatDoubles seatInfo (S benchCounter) benches' pool' in
              (assign student1 seatInfo (pretty benchCounter +:+ "L")
                 :: assign student2 seatInfo (pretty benchCounter +:+ "R") :: new,
               rest)
          | (None, pool') =>
              let '(new, rest) := seatDoubles seatInfo (S benchCounter) benches' pool' in
              (assign student1 seatInfo (pretty benchCounter +:+ "L") :: new, rest)
          end
      end
  end.

(** What a room adds to the plan and leaves in the pool, by its capped
    benches alone. *)
Definition roomSeats (seatInfo : string * string * string) (room : Room.t)
    (pool : list Student.t) : list SeatingAssignment.t * list Student.t :=
  if Room.studentsPerBench room =? 1 then
    seatSingles seatInfo 1 (Nat.min (Room.benches room) 45) pool
  else if Room.studentsPerBench room =? 2 then
    seatDoubles seatInfo 1 (Nat.min (Room.benches room) 45) pool
  else ([], pool).

(** The rooms in the order of the traversal, each served from what the ones
    before it left. *)
Fixpoint layoutSeats (rooms : list ((string * string * string) * Room.t))
    (pool : list Student.t) : list SeatingAssignment.t * list Student.t :=
  match rooms with
  | [] => ([], pool)
  | e :: rooms' =>
      let '(new, rest) := roomSeats e.1 e.2 pool in
      let '(news, final) := layoutSeats rooms' rest in
      (new ++ news, final)
  end.

(** The bench number of the seat filled after [j] other seats of a room of
    double benches whose counter starts at [benchCounter]. *)
Definition doubleLabel (benchCounter j : nat) : string :=
  pretty (benchCounter + j / 2) +:+ (if Nat.even j then "L" else "R").

(** The bench numbers of the first [count] seats of a room, in the order in
    which the allocator fills them: 1, 2, 3, ... or 1L, 1R, 2L, 2R, ... *)
Definition benchLabels (studentsPerBench count : nat) : list string :=
  if studentsPerBench =? 1 then map pretty (seq 1 count)
  else if studentsPerBench =? 2 then map (doubleLabel 1) (seq 0 count)
  else [].

(** ** What the dashboards read off a plan *)

(** The plan and the roster of a successful answer are stored by
    [createSeatingPlanAction] (as [plan] and [allStudents]) and read back by
    the dashboards. *)

(** The admin dashboard, [addPdfHeader]:
    [assignedHallTickets = new Set(seatingData.plan.map(s => s.hallTicketNumber))],
    [seatingData.allStudents.filter(s => !assignedHallTickets.has(s.hallTicketNumber))]. *)
Definition absentees (plan : list SeatingAssignment.t)
    (allStudents : list Student.t) : list Student.t :=
  let assignedHallTickets : gset string :=
    list_to_set (map SeatingAssignment.hallTicketNumber plan) in
  filter (fun s => Student.hallTicketNumber s ∉ assignedHallTickets) allStudents.

(** [[...new Set(values)]]: a set is listed in the order of insertion, so each
    value stands where it occurs first. *)
Fixpoint spreadSet (seen : gset string) (values : list string) : list string :=
  match values with
  | [] => []
  | v :: values' =>
      if decide (v ∈ seen) then spreadSet seen values'
      else v :: spreadSet ({[ v ]} ∪ seen) values'
  end.

(** [absenteesByBranch], one entry written for each of [allBranches], in this
    order. *)
Definition absenteesByBranch (plan : list SeatingAssignment.t)
    (allStudents : list Student.t) : list (string * list string) :=
  let allBranches := spreadSet ∅ (map Student.branch allStudents) in
  map (fun branch =>
         (branch,
          map Student.hallTicketNumber
              (filter (fun s => Student.branch s = branch)
                      (absentees plan allStudents))))
      allBranches.

(** The student dashboard:
    [data.plan.find(s => s.hallTicketNumber.toLowerCase() === hallTicketNumber.toLowerCase())];
    [None] stands for [undefined], which the dashboard reports as a hall ticket
    number that is not in the plan. *)
Definition findStudent (plan : list SeatingAssignment.t) (hallTicketNumber : string)
    : option SeatingAssignment.t :=
  List.find (fun s => String.eqb
                        (JsString.toLowerCase (SeatingAssignment.hallTicketNumber s))
                        (JsString.toLowerCase hallTicketNumber))
            plan.

(** ** Sample inputs *)

Module Sample.
(** A comparison of strings by code units, in the place of [localeCompare]. *)
Definition ordinalCompare (a b : string) : Z :=
  match String.compare a b with
  | Lt => (-1)%Z
  | Eq => 0%Z
  | Gt => 1%Z
  end.

(** A generator whose every draw is 0. *)
Definition zeros : nat -> nat := fun _ => 0.

(** An engine in whose objects the counts are lost, in the place of
    [prototypeCounts]: the summary stays as it is. *)
Definition lostCounts (summary : RoomBranchSummary) (_ : list SeatingAssignment.t)
    : Result RoomBranchSummary :=
  Ok summary.

Definition headers : list string := ["Name"; "Roll No"; "Branch"; "Phone"].

Definition row (name ticket branch phone : string) : gmap string string :=
  list_to_map [("Name", name); ("Roll No", ticket); ("Branch", branch); ("Phone", phone)].

(** A CSV file that PapaParse reads without errors into [rows]; it is not a
    PDF, so [pdf-parse] throws on it. *)
Definition csvFile (rows : list (gmap string string)) : InputFile :=
  mkInputFile "data:text/csv;base64,TmFtZQ=="
    (Throw (ErrorObj "Invalid PDF structure"))
    (PapaComplete (mkPapaResults [] (Some headers) rows)).

(** A PDF whose text is [text]; read as CSV it is one column of garbage. *)
Definition pdfFile (text : string) : InputFile :=
  mkInputFile "data:application/pdf;base64,JVBERi0="
    (Ok text)
    (PapaComplete (mkPapaResults [] (Some ["%PDF-1.4"]) [])).

Definition layoutOf (rooms : list Room.t) : LayoutConfig.t :=
  LayoutConfig.mk [Block.mk "A" [Floor.mk 1 rooms]]
    "2025-05-01" "2025-05-03" ["10:00 AM - 01:00 PM"].

Definition asha : Student.t := Student.mk "Asha" "21A01" "CSE" "9000000001".
Definition bala : Student.t := Student.mk "Bala" "21A02" "CSE" "9000000002".
Definition chitra : Student.t := Student.mk "Chitra" "21B01" "ECE" "9000000003".
Definition dev : Student.t := Student.mk "Dev" "21B02" "ECE" "9000000004".
Definition esha : Student.t := Student.mk "Esha" "21C01" "IT" "9000000005".

Definition rowOf (s : Student.t) : gmap string string :=
  row (Student.name s) (Student.hallTicketNumber s) (Student.branch s)
      (Student.contactNumber s).

(** Three students, branches CSE, CSE, ECE, and one room of two double
    benches. *)
Definition three : list Student.t := [asha; bala; chitra].
Definition threeInput : Input.t :=
  Input.mk [csvFile (map rowOf three)] (layoutOf [Room.mk "101" 2 2]).

(** Five students and four seats. *)
Definition five : list Student.t := [asha; bala; chitra; dev; esha].
Definition fiveInput : Input.t :=
  Input.mk [csvFile (map rowOf [asha; bala]); csvFile (map rowOf [chitra; dev; esha])]
           (layoutOf [Room.mk "101" 1 2; Room.mk "102" 2 1]).

(** Forty-six students and one room of forty-six single benches. *)
Definition numbered (n : nat) : Student.t :=
  Student.mk ("Student " +:+ pretty n) ("T" +:+ pretty n) "CSE" "9000000000".
Definition fortySix : list Student.t := map numbered (seq 1 46).
Definition fortySixInput : Input.t :=
  Input.mk [csvFile (map rowOf fortySix)] (layoutOf [Room.mk "Hall" 46 1]).

(** Two rooms with one name on one floor, one single bench each. *)
Definition twinInput : Input.t :=
  Input.mk [csvFile (map rowOf [asha; chitra])]
           (layoutOf [Room.mk "101" 1 1; Room.mk "101" 1 1]).

(** A CSV file with a header row and no data row, then a file with one
    student. *)
Definition headerOnly : InputFile := csvFile [].
Definition headerOnlyFirst : Input.t :=
  Input.mk [headerOnly; csvFile [rowOf asha]] (layoutOf [Room.mk "101" 2 2]).

(** A good file, then a PDF whose table has no usable row. *)
Definition emptyPdf : InputFile :=
  pdfFile "Name    Roll No    Branch    Phone
Asha".
Definition brokenSecond : Input.t :=
  Input.mk [csvFile (map rowOf three); emptyPdf] (layoutOf [Room.mk "101" 2 2]).

(** The answer for an input, with the generator of zeros, and its plan. *)
Definition outputOf (input : Input.t) : Output.t :=
  match seatingArrangementFlow zeros ordinalCompare lostCounts input with
  | Ok output => output
  | Throw _ => Output.failure ""
  end.
Definition planOf (input : Input.t) : list SeatingAssignment.t :=
  default [] (Output.seatingPlan (outputOf input)).
Definition fivePlan : list SeatingAssignment.t := planOf fiveInput.

(** A pool of one branch. *)
Definition oneBranch : list Student.t := [asha; bala; numbered 1].

(** The three students of the scenario: branches A, A and B, one room of two
    double benches. *)
Definition anil : Student.t := Student.mk "Anil" "22A01" "A" "9000000011".
Definition amar : Student.t := Student.mk "Amar" "22A02" "A" "9000000012".
Definition bina : Student.t := Student.mk "Bina" "22B01" "B" "9000000013".
Definition scenarioThree : list Student.t := [anil; amar; bina].
Definition scenarioInput : Input.t :=
  Input.mk [csvFile (map rowOf scenarioThree)] (layoutOf [Room.mk "101" 2 2]).

(** Five students, one of them of a branch written "constructor", and four
    seats. *)
Definition carl : Student.t := Student.mk "Carl" "21D01" "constructor" "9000000006".
Definition constructorFive : list Student.t := [asha; bala; chitra; dev; carl].
Definition constructorBranchInput : Input.t :=
  Input.mk [csvFile (map rowOf constructorFive)]
           (layoutOf [Room.mk "101" 1 2; Room.mk "102" 2 1]).

(** The five students and four seats, two of them in a room numbered
    "constructor". *)
Definition constructorRoomInput : Input.t :=
  Input.mk [csvFile (map rowOf five)]
           (layoutOf [Room.mk "constructor" 1 2; Room.mk "102" 2 1]).
End Sample.

(** ** Vocabulary of the statements *)

(** The students held by the arrays at [locs], in that order. *)
Definition flat (h : Heap) (locs : list nat) : list Student.t :=
  locs ≫= (fun l => default [] (h !! l)).

(** What holds of the partition while [done] of the roster [all] has been
    pushed: the roster is where it was, every branch has one array, no two
    branches share an array, none of them is the roster, and the arrays hold
    [done]. *)
Record PartitionInv (all done : list Student.t) (p : Partition) : Prop := {
  inv_roster : heap p !! allStudentsLoc = Some all;
  inv_keys : NoDup (studentsByBranch p).*1;
  inv_locs : NoDup (studentsByBranch p).*2;
  inv_range : ∀ l, l ∈ (studentsByBranch p).*2 →
                allStudentsLoc < l < nextLoc p ∧ is_Some (heap p !! l);
  inv_next : allStudentsLoc < nextLoc p;
  inv_flat : flat (heap p) (studentsByBranch p).*2 ≡ₚ done
}.

(** While the branch arrays are shuffled: they hold the roster, which is not
    one of them. *)
Definition Shuffled (all : list Student.t) (locs : list nat) (h : Heap) : Prop :=
  h !! allStudentsLoc = Some all
  ∧ (∀ l, l ∈ locs → is_Some (h !! l))
  ∧ flat h locs ≡ₚ all.

(** The students of a list of assignments. *)
Definition students (plan : list SeatingAssignment.t) : list Student.t :=
  map SeatingAssignment.student plan.

(** The rooms of a layout in the order of the traversal, each with the
    [seatInfo] its assignments carry. *)
Definition layoutRooms (layout : LayoutConfig.t)
    : list ((string * string * string) * Room.t) :=
  LayoutConfig.blocks layout ≫= fun b =>
    Block.floors b ≫= fun f =>
      map (fun r => (seatInfoOf b f r, r)) (Floor.rooms f).

(** The rooms of a layout named by block name, floor number and room number. *)
Definition roomKeys (layout : LayoutConfig.t) : list (string * Z * string) :=
  LayoutConfig.blocks layout ≫= fun b =>
    Block.floors b ≫= fun f =>
      map (fun r => (Block.name b, Floor.number f, Room.number r)) (Floor.rooms f).

(** The sum of the capped capacities of some rooms. *)
Definition capacitySum (rooms : list ((string * string * string) * Room.t)) : nat :=
  sum_list (map (fun e => roomCapacity e.2) rooms).

(** The seats of a layout, every room capped at 45 benches. *)
Definition effectiveCapacity (layout : LayoutConfig.t) : nat :=
  capacitySum (layoutRooms layout).

(** The seats of a room that the allocator can fill: it has a case for one
    and for two students per bench, and no other. *)
Definition usableSeats (room : Room.t) : nat :=
  if (Room.studentsPerBench room =? 1) || (Room.studentsPerBench room =? 2)
  then roomCapacity room else 0.

(** The sum of the usable seats of some rooms. *)
Definition usableSum (rooms : list ((string * string * string) * Room.t)) : nat :=
  sum_list (map (fun e => usableSeats e.2) rooms).

(** One room of the traversal, as a step of a fold over [layoutRooms]. *)
Definition roomStep (totalCapacity : nat) (st : Alloc.t)
    (e : (string * string * string) * Room.t) : Alloc.t :=
  if totalCapacity <=? Alloc.studentIndex st then st
  else allocRoom totalCapacity e.1 e.2 st.

(** A bench number given by a counter at least [from]: the counter alone in
    a room of single benches, the counter with a side in a room of double
    benches ([two]). *)
Definition Labelled (two : bool) (from : nat) (a : SeatingAssignment.t) : Prop :=
  ∃ n, from ≤ n
       ∧ if two
         then SeatingAssignment.benchNumber a = pretty n +:+ "L"
              ∨ SeatingAssignment.benchNumber a = pretty n +:+ "R"
         else SeatingAssignment.benchNumber a = pretty n.

(** What a run of [seatLoop] with [cap] slots left adds to the plan. *)
Record RoomRun (seatInfo : string * string * string) (two : bool)
    (benchCounter cap : nat)
    (st st' : Alloc.t) (new : list SeatingAssignment.t) : Prop := {
  run_plan : Alloc.seatingPlan st' = Alloc.seatingPlan st ++ new;
  run_index : Alloc.studentIndex st' = Alloc.studentIndex st + length new;
  run_length : length new = Nat.min (length (Alloc.studentPool st)) cap;
  run_pool : students new ++ Alloc.studentPool st' ≡ₚ Alloc.studentPool st;
  run_room : Forall (fun a => SeatingAssignment.room a = seatInfo) new;
  run_labels : Forall (Labelled two benchCounter) new;
  run_nodup : NoDup (map SeatingAssignment.benchNumber new)
}.

(** What one room contributes to the plan. *)
Definition Chunk (e : (string * string * string) * Room.t)
    (new : list SeatingAssignment.t) : Prop :=
  Forall (fun a => SeatingAssignment.room a = e.1) new
  ∧ NoDup (map SeatingAssignment.benchNumber new)
  ∧ length new ≤ usableSeats e.2.

(** The number of assignments of a plan that carry a given room. *)
Definition seatedIn (room : string * string * string)
    (plan : list SeatingAssignment.t) : nat :=
  length (filter (fun a => SeatingAssignment.room a = room) plan).

(** The sum of the configured capacities of some rooms, without the cap. *)
Definition configuredSum (rooms : list ((string * string * string) * Room.t)) : nat :=
  sum_list (map (fun e => Room.benches e.2 * Room.studentsPerBench e.2) rooms).

(** The message the flow reports for a thrown value (line 171). *)
Definition thrownMessage (e : Thrown) : string :=
  match e with
  | ErrorObj message => message
  | NonError => "Failed to parse one or more student files."
  end.

(** What holds of the branch arrays while [done] of the roster has been
    pushed: the array of a branch holds the students of this branch, in the
    order of the roster, and the branches are those of [done]. *)
Definition Grouped (done : list Student.t) (p : Partition) : Prop :=
  (∀ b loc, (b, loc) ∈ studentsByBranch p →
            heap p !! loc = Some (filter (fun s => Student.branch s = b) done))
  ∧ (∀ b, b ∈ (studentsByBranch p).*1 ↔ b ∈ map Student.branch done).

(** The counts of a plan when every read of the summary stays with own
    properties. *)
Definition tally (plan : list SeatingAssignment.t) : RoomBranchSummary :=
  fold_left countAssignment plan ∅.

(** No branch of the students names a member of [Object.prototype]. *)
Definition plainBranches (l : list Student.t) : Prop :=
  Forall (fun s => inherited (Student.branch s) = false) l.

(** No room number of the layout names a member of [Object.prototype]. *)
Definition plainRooms (layout : LayoutConfig.t) : Prop :=
  Forall (fun e => inherited (Room.number e.2) = false) (layoutRooms layout).

(** * Properties *)

(** ** The shuffle permutes *)

Section ShuffleFacts.
Context {T : Type}.
Implicit Types array : list T.

Lemma insert_Permutation_delete array i x y :
  array !! i = Some x → <[i := y]> array ≡ₚ y :: delete i array.
Proof.
  intros Hi.
  assert (Hlt : i < length array) by (by eapply lookup_lt_Some).
  rewrite (delete_Permutation (<[i := y]> array) i y)
    by (by apply list_lookup_insert_eq).
  f_equiv. clear Hi.
  assert (E : delete i (<[i := y]> array) = delete i array); [|by rewrite E].
  revert i Hlt. induction array as [|a array IH]; intros [|i] Hlt;
    simpl in *; try done; try lia.
  f_equal. apply IH. lia.
Qed.

Lemma swap_Permutation array i j : swap array i j ≡ₚ array.
Proof.
  unfold swap.
  destruct (array !! j) as [aj|] eqn:Hj; [|done].
  destruct (array !! i) as [ai|] eqn:Hi; [|done].
  destruct (decide (i = j)) as [->|Hne].
  - assert (ai = aj) as -> by congruence.
    by rewrite !(list_insert_id array j aj Hj).
  - set (l1 := <[i := aj]> array).
    assert (H1j : l1 !! j = Some aj).
    { unfold l1. by rewrite list_lookup_insert_ne. }
    assert (H1 : l1 ≡ₚ aj :: delete i array).
    { by eapply insert_Permutation_delete. }
    assert (H2 : aj :: delete j l1 ≡ₚ aj :: delete i array).
    { by rewrite <- (delete_Permutation l1 j aj). }
    apply Permutation_cons_inv in H2.
    rewrite (insert_Permutation_delete l1 j aj ai H1j), H2.
    symmetry. by apply delete_Permutation.
Qed.

Lemma shuffleFrom_Permutation rnd i k array :
  (shuffleFrom rnd i k array).1 ≡ₚ array.
Proof.
  revert k array. induction i as [|i IH]; intros k array; simpl; [done|].
  rewrite IH. apply swap_Permutation.
Qed.

Lemma shuffleArray_Permutation rnd k array :
  (shuffleArray rnd k array).1 ≡ₚ array.
Proof. apply shuffleFrom_Permutation. Qed.
End ShuffleFacts.

(** ** Objects in insertion order *)

Section OwnKeysFacts.
Context {V : Type}.
Implicit Types o : list (string * V).

Lemma ownProperties_Permutation o : ownProperties o ≡ₚ o.
Proof.
  unfold ownProperties. rewrite merge_sort_Permutation.
  apply filter_app_complement.
Qed.

Lemma getProperty_Some o k v : getProperty o k = Some v → (k, v) ∈ o.
Proof.
  induction o as [|[k' v'] o IH]; simpl; [done|].
  destruct (String.eqb_spec k' k) as [->|]; intros H.
  - injection H as ->. left.
  - right. auto.
Qed.

Lemma getProperty_None o k : getProperty o k = None → k ∉ o.*1.
Proof.
  induction o as [|[k' v'] o IH]; simpl; [intros _; apply not_elem_of_nil|].
  destruct (String.eqb_spec k' k) as [->|Hne]; intros H; [done|].
  apply not_elem_of_cons. split; [congruence | auto].
Qed.

Lemma getProperty_fresh o k v k' :
  k' ≠ k → getProperty ((k, v) :: o) k' = getProperty o k'.
Proof. intros Hne. simpl. destruct (String.eqb_spec k k'); congruence. Qed.
End OwnKeysFacts.

(** ** The partition holds the roster, and leaves it where it was *)

Lemma flat_frame (h h' : Heap) locs :
  (∀ l, l ∈ locs → h' !! l = h !! l) → flat h' locs = flat h locs.
Proof.
  intros Hsame. unfold flat. apply Forall_bind_ext, Forall_forall.
  intros l Hl. by rewrite Hsame.
Qed.

Lemma flat_update (h h' : Heap) locs l a a' :
  NoDup locs → l ∈ locs →
  h !! l = Some a → h' !! l = Some a' →
  (∀ l', l' ≠ l → h' !! l' = h !! l') →
  ∃ rest, flat h locs ≡ₚ a ++ rest ∧ flat h' locs ≡ₚ a' ++ rest.
Proof.
  intros Hnd Hin Ha Ha' Hother.
  induction locs as [|l0 locs IH]; [by apply elem_of_nil in Hin|].
  apply NoDup_cons in Hnd as [Hl0 Hnd].
  unfold flat in *. rewrite !bind_cons.
  destruct (decide (l0 = l)) as [->|Hne].
  - exists (flat h locs). rewrite Ha, Ha'. simpl. split; [done|].
    f_equiv. fold (flat h' locs). rewrite (flat_frame h h'); [done|].
    intros l' Hl'. apply Hother. intros ->. done.
  - apply elem_of_cons in Hin as [->|Hin]; [done|].
    destruct (IH Hnd Hin) as (rest & E1 & E2).
    exists (default [] (h !! l0) ++ rest). rewrite (Hother l0 Hne), E1, E2.
    split; rewrite !(assoc app); f_equiv; apply Permutation_app_comm.
Qed.

Section PartitionFacts.
Variable all : list Student.t.

Lemma pushToBranch_inv done p student p' :
  pushToBranch p student = Ok p' →
  PartitionInv all done p →
  PartitionInv all (done ++ [student]) p'.
Proof.
  intros Hpush [Hroster Hkeys Hlocs Hrange Hnext Hflat]. unfold pushToBranch in Hpush.
  destruct (getProperty _ _) as [loc|] eqn:Hget.
  - injection Hpush as <-. apply getProperty_Some in Hget.
    assert (Hloc : loc ∈ (studentsByBranch p).*2).
    { apply list_elem_of_fmap. by exists (Student.branch student, loc). }
    destruct (Hrange loc Hloc) as [Hlt [a Ha]].
    split; simpl; try done.
    + rewrite lookup_alter_ne; [done | lia].
    + intros l Hl. destruct (Hrange l Hl) as [? ?]. split; [done|].
      by apply lookup_alter_is_Some.
    + destruct (flat_update (heap p)
                  (alter (fun a => a ++ [student]) loc (heap p))
                  (studentsByBranch p).*2 loc a (a ++ [student]))
        as (rest & E1 & E2); try done.
      * by rewrite lookup_alter_eq, Ha.
      * intros l' Hne. by rewrite lookup_alter_ne.
      * rewrite E2, <- Hflat, E1.
        rewrite <- !(assoc app). f_equiv. apply Permutation_app_comm.
  - destruct (inherited (Student.branch student)); [done|].
    injection Hpush as <-. apply getProperty_None in Hget.
    assert (Hfresh : nextLoc p ∉ (studentsByBranch p).*2).
    { intros Hin. apply Hrange in Hin. lia. }
    split; simpl.
    + rewrite lookup_insert_ne; [done | lia].
    + rewrite fmap_app. apply NoDup_app. split; [done|]. split.
      * intros k Hk Hk'. apply list_elem_of_singleton in Hk'. by subst.
      * apply NoDup_singleton.
    + rewrite fmap_app. apply NoDup_app. split; [done|]. split.
      * intros l Hl Hl'. apply list_elem_of_singleton in Hl'. by subst.
      * apply NoDup_singleton.
    + intros l. rewrite fmap_app, elem_of_app. intros [Hl|Hl].
      * destruct (Hrange l Hl) as [? ?]. split; [lia|].
        rewrite lookup_insert_ne; [done | lia].
      * apply list_elem_of_singleton in Hl. simpl in Hl. subst l.
        split; [lia|]. rewrite lookup_insert_eq. by eexists.
    + lia.
    + rewrite fmap_app. unfold flat. rewrite bind_app. simpl.
      rewrite lookup_insert_eq. simpl. f_equiv.
      rewrite <- Hflat. fold (flat (<[nextLoc p := [student]]> (heap p))
                                (studentsByBranch p).*2).
      rewrite (flat_frame (heap p)); [done|].
      intros l Hl. rewrite lookup_insert_ne; [done|]. intros <-. done.
Qed.

Lemma groupFrom_inv n i p p' :
  i + n ≤ length all →
  groupFrom n i p = Ok p' →
  PartitionInv all (take i all) p →
  PartitionInv all (take (i + n) all) p'.
Proof.
  revert i p. induction n as [|n IH]; intros i p Hlen Hgroup Hinv; simpl in Hgroup.
  - injection Hgroup as <-. by rewrite Nat.add_0_r.
  - rewrite (inv_roster _ _ _ Hinv) in Hgroup. simpl in Hgroup.
    destruct (lookup_lt_is_Some_2 all i) as [student Hs]; [lia|].
    rewrite Hs in Hgroup. replace (i + S n) with (S i + n) by lia.
    destruct (pushToBranch p student) as [p1|e] eqn:Hpush; [|done].
    apply (IH (S i) p1); [lia|done|].
    rewrite (take_S_r all i student Hs). by apply (pushToBranch_inv _ p).
Qed.

Lemma initial_inv (h : Heap) :
  h !! allStudentsLoc = Some all →
  PartitionInv all (take 0 all) (mkPartition h (S allStudentsLoc) []).
Proof.
  intros Hh.
  split; simpl; try done; try apply NoDup_nil_2; try (unfold allStudentsLoc; lia).
  intros l Hl. by apply elem_of_nil in Hl.
Qed.

Lemma groupByBranch_inv (h : Heap) p :
  h !! allStudentsLoc = Some all → groupByBranch h = Ok p →
  PartitionInv all all p.
Proof.
  intros Hh. unfold groupByBranch. rewrite Hh. simpl. intros Hgroup.
  rewrite <- (firstn_all all) at 2.
  apply (groupFrom_inv (length all) 0 (mkPartition h (S allStudentsLoc) []) p);
    [lia|done|].
  by apply initial_inv.
Qed.

(** The partition is made when no branch of the roster names a member of
    [Object.prototype], and throws at the first student whose branch does. *)
Lemma pushToBranch_Ok done p student :
  PartitionInv all done p →
  (∀ b, b ∈ (studentsByBranch p).*1 → inherited b = false) →
  inherited (Student.branch student) = false →
  ∃ p', pushToBranch p student = Ok p'
        ∧ ∀ b, b ∈ (studentsByBranch p').*1 → inherited b = false.
Proof.
  intros Hinv Hown Hb. unfold pushToBranch.
  destruct (getProperty _ _) as [loc|] eqn:Hget.
  - eexists. split; [done|]. done.
  - rewrite Hb. eexists. split; [done|]. simpl.
    intros b. rewrite fmap_app, elem_of_app. intros [?|Hin]; [by apply Hown|].
    apply list_elem_of_singleton in Hin. by subst b.
Qed.

Lemma pushToBranch_Throw p student :
  (∀ b, b ∈ (studentsByBranch p).*1 → inherited b = false) →
  inherited (Student.branch student) = true →
  pushToBranch p student = Throw pushIsNotAFunction.
Proof.
  intros Hown Hb. unfold pushToBranch.
  destruct (getProperty _ _) as [loc|] eqn:Hget.
  - apply getProperty_Some in Hget.
    apply (list_elem_of_fmap_2 fst) in Hget. apply Hown in Hget. simpl in Hget.
    congruence.
  - by rewrite Hb.
Qed.

Lemma groupFrom_cases n i p :
  i + n ≤ length all →
  PartitionInv all (take i all) p →
  (∀ b, b ∈ (studentsByBranch p).*1 → inherited b = false) →
  (Forall (fun s => inherited (Student.branch s) = false) (take n (drop i all))
   ∧ ∃ p', groupFrom n i p = Ok p')
  ∨ (Exists (fun s => inherited (Student.branch s) = true) (take n (drop i all))
     ∧ groupFrom n i p = Throw pushIsNotAFunction).
Proof.
  revert i p. induction n as [|n IH]; intros i p Hlen Hinv Hown; simpl.
  { left. split; [constructor | by eexists]. }
  rewrite (inv_roster _ _ _ Hinv). simpl.
  destruct (lookup_lt_is_Some_2 all i) as [student Hs]; [lia|].
  rewrite Hs. rewrite (drop_S all student i Hs). simpl.
  destruct (inherited (Student.branch student)) eqn:Hb.
  - right. split; [by left|]. by rewrite pushToBranch_Throw.
  - destruct (pushToBranch_Ok _ p student Hinv Hown Hb) as (p1 & Hpush & Hown1).
    rewrite Hpush. simpl.
    destruct (IH (S i) p1) as [[Hall Hok]|[Hsome Hthrow]]; [lia| |done| |].
    + rewrite (take_S_r all i student Hs). by apply (pushToBranch_inv _ p).
    + left. split; [by constructor | done].
    + right. split; [by right | done].
Qed.

Lemma groupByBranch_cases (h : Heap) :
  h !! allStudentsLoc = Some all →
  (Forall (fun s => inherited (Student.branch s) = false) all
   ∧ ∃ p, groupByBranch h = Ok p)
  ∨ (Exists (fun s => inherited (Student.branch s) = true) all
     ∧ groupByBranch h = Throw pushIsNotAFunction).
Proof.
  intros Hh. unfold groupByBranch. rewrite Hh. simpl.
  pose proof (groupFrom_cases (length all) 0 (mkPartition h (S allStudentsLoc) []))
    as Hcases.
  rewrite drop_0, firstn_all in Hcases.
  apply Hcases; [lia|by apply initial_inv|].
  simpl. intros b Hb. by apply elem_of_nil in Hb.
Qed.
End PartitionFacts.

Section PoolFacts.
Variable rnd : nat -> nat.
Variable all : list Student.t.

Lemma shuffleAt_inv locs loc hk :
  NoDup locs → loc ∈ locs → loc ≠ allStudentsLoc →
  Shuffled all locs hk.1 → Shuffled all locs (shuffleAt rnd loc hk).1.
Proof.
  intros Hnd Hin Hne (Hroster & Hsome & Hflat). unfold shuffleAt.
  destruct (Hsome loc Hin) as [array Harray]. rewrite Harray.
  pose proof (shuffleArray_Permutation rnd hk.2 array) as Hperm.
  destruct (shuffleArray rnd hk.2 array) as [array' k']. simpl in *.
  split; [|split].
  - by rewrite lookup_insert_ne.
  - intros l Hl. destruct (decide (loc = l)) as [->|?].
    + rewrite lookup_insert_eq. by eexists.
    + rewrite lookup_insert_ne; auto.
  - destruct (flat_update hk.1 (<[loc := array']> hk.1) locs loc array array')
      as (rest & E1 & E2); try done.
    + by rewrite lookup_insert_eq.
    + intros l' ?. by rewrite lookup_insert_ne.
    + by rewrite E2, Hperm, <- E1.
Qed.

Lemma shuffleEach_inv locs (entries : list (string * nat)) hk :
  NoDup locs →
  (∀ e, e ∈ entries → e.2 ∈ locs ∧ e.2 ≠ allStudentsLoc) →
  Shuffled all locs hk.1 →
  Shuffled all locs (fold_left (fun hk e => shuffleAt rnd e.2 hk) entries hk).1.
Proof.
  intros Hnd. revert hk.
  induction entries as [|e entries IH]; intros hk Hentries Hinv; simpl; [done|].
  apply IH.
  - intros e' He'. apply Hentries. by right.
  - destruct (Hentries e) as [? ?]; [left|]. by apply shuffleAt_inv.
Qed.

Lemma flatMapBranches_own (h : Heap) (o : list (string * nat)) :
  NoDup o.*1 → flatMapBranches h o o.*1 = flat h o.*2.
Proof.
  unfold flatMapBranches, flat. intros Hnd.
  assert (G : ∀ pre, NoDup (pre ++ o).*1 →
            o.*1 ≫= (fun b => default [] (getProperty (pre ++ o) b ≫= (h !!.)))
            = o.*2 ≫= (fun l => default [] (h !! l))).
  { clear Hnd. induction o as [|[k v] o IH]; intros pre Hnd; [done|].
    rewrite !fmap_cons, !bind_cons. f_equal.
    - simpl.
      assert (E : getProperty (pre ++ (k, v) :: o) k = Some v); [|by rewrite E].
      clear IH. induction pre as [|[k' v'] pre IHpre]; simpl.
      + by rewrite String.eqb_refl.
      + simpl in Hnd. apply NoDup_cons in Hnd as [Hk' Hnd].
        destruct (String.eqb_spec k' k) as [->|?]; [|by apply IHpre].
        exfalso. apply Hk'. rewrite fmap_app, elem_of_app. right. left.
    - replace (pre ++ (k, v) :: o) with ((pre ++ [(k, v)]) ++ o) in *
        by (by rewrite <- (assoc app)).
      by apply IH. }
  by apply (G []).
Qed.

Lemma buildPool_spec (h h' : Heap) pool :
  h !! allStudentsLoc = Some all →
  buildPool rnd h = Ok (h', pool) →
  h' !! allStudentsLoc = Some all ∧ pool ≡ₚ all.
Proof.
  intros Hh. unfold buildPool.
  destruct (groupByBranch h) as [p|e] eqn:Hgroup; [|done]. simpl.
  pose proof (groupByBranch_inv all h p Hh Hgroup) as Hinv.
  assert (Hsh : Shuffled all (studentsByBranch p).*2 (shuffleBranches rnd p 0).1).
  { apply shuffleEach_inv.
    - apply Hinv.
    - intros e He. rewrite ownProperties_Permutation in He.
      assert (Hl : e.2 ∈ (studentsByBranch p).*2) by (by apply list_elem_of_fmap_2).
      split; [done|]. apply (inv_range _ _ _ Hinv) in Hl. lia.
    - split; [apply Hinv | split; [|apply Hinv]].
      intros l Hl. by apply (inv_range _ _ _ Hinv). }
  destruct (shuffleBranches rnd p 0) as [h1 k]. simpl in *.
  intros [= <- <-].
  destruct Hsh as (Hroster & _ & Hflat). split; [done|].
  rewrite <- Hflat, <- flatMapBranches_own by apply Hinv.
  unfold flatMapBranches. apply bind_Permutation.
  rewrite shuffleArray_Permutation. by rewrite ownProperties_Permutation.
Qed.

Lemma buildPool_cases (h : Heap) :
  h !! allStudentsLoc = Some all →
  (Forall (fun s => inherited (Student.branch s) = false) all
   ∧ ∃ h' pool, buildPool rnd h = Ok (h', pool))
  ∨ (Exists (fun s => inherited (Student.branch s) = true) all
     ∧ buildPool rnd h = Throw pushIsNotAFunction).
Proof.
  intros Hh. unfold buildPool.
  destruct (groupByBranch_cases all h Hh) as [[Hall [p ->]]|[Hsome ->]].
  - left. split; [done|]. simpl.
    destruct (shuffleBranches rnd p 0) as [h1 k]. by eexists _, _.
  - by right.
Qed.
End PoolFacts.

(** ** Bench numbers *)

Lemma append_last_inj (x y : string) (c d : ascii) :
  x +:+ String c "" = y +:+ String d "" → x = y ∧ c = d.
Proof.
  revert y. induction x as [|a x IH]; intros [|b y]; simpl; intros H.
  - by injection H as ->.
  - injection H as -> H. by destruct y.
  - injection H as -> H. by destruct x.
  - injection H as -> H. by destruct (IH y H) as [-> ->].
Qed.

Lemma labelled_weaken two from from' a :
  from ≤ from' → Labelled two from' a → Labelled two from a.
Proof. intros Hle (n & Hn & H). exists n. split; [lia | done]. Qed.

Lemma single_label_fresh n new :
  Forall (Labelled false (S n)) new →
  pretty n ∉ map SeatingAssignment.benchNumber new.
Proof.
  intros Hall Hin. apply list_elem_of_fmap in Hin as (b & Hb & Hin).
  rewrite Forall_forall in Hall. destruct (Hall b Hin) as (m & Hm & Hlab).
  rewrite Hlab in Hb. apply (inj pretty) in Hb. lia.
Qed.

Lemma double_label_fresh n (side : ascii) new :
  Forall (Labelled true (S n)) new →
  pretty n +:+ String side "" ∉ map SeatingAssignment.benchNumber new.
Proof.
  intros Hall Hin. apply list_elem_of_fmap in Hin as (b & Hb & Hin).
  rewrite Forall_forall in Hall. destruct (Hall b Hin) as (m & Hm & [Hlab|Hlab]);
    rewrite Hlab in Hb; apply append_last_inj in Hb as [Hb _];
    apply (inj pretty) in Hb; lia.
Qed.

(** ** The allocator, one room *)

Lemma findIndex_Some {A} (p : A → bool) (l : list A) (i : nat) :
  findIndex p l = Some i →
  ∃ x, l !! i = Some x ∧ p x = true ∧ Forall (fun y => p y = false) (take i l).
Proof.
  revert i. induction l as [|a l IH]; intros i; simpl; [done|].
  destruct (p a) eqn:Hp.
  - intros [= <-]. exists a. by repeat split.
  - destruct (findIndex p l) as [j|] eqn:Hj; simpl; [|done].
    intros [= <-]. destruct (IH j eq_refl) as (x & ? & ? & ?).
    exists x. repeat split; try done. simpl. by constructor.
Qed.

Lemma findIndex_None {A} (p : A → bool) (l : list A) :
  findIndex p l = None → Forall (fun y => p y = false) l.
Proof.
  induction l as [|a l IH]; simpl; [by constructor|].
  destruct (p a) eqn:Hp; [done|].
  destruct (findIndex p l); simpl; [done|]. intros _. by constructor; auto.
Qed.

(** The partner is the first student of another branch when there is one,
    and the second student of the pool otherwise. *)
Lemma pickPartner_spec (student1 next : Student.t) (rest : list Student.t) :
  ∃ student2 pool',
    pickPartner student1 (student1 :: next :: rest) = (Some student2, pool')
    ∧ student2 :: pool' ≡ₚ next :: rest
    ∧ ((∃ s, s ∈ next :: rest ∧ Student.branch s ≠ Student.branch student1) →
       Student.branch student2 ≠ Student.branch student1)
    ∧ (Student.branch student2 = Student.branch student1 →
       student2 = next ∧ pool' = rest
       ∧ ∀ s, s ∈ next :: rest → Student.branch s = Student.branch student1).
Proof.
  unfold pickPartner.
  set (p := fun s => negb (String.eqb (Student.branch s) (Student.branch student1))).
  assert (Hp1 : p student1 = false) by (unfold p; by rewrite String.eqb_refl).
  assert (Hp : ∀ s, p s = true ↔ Student.branch s ≠ Student.branch student1).
  { intros s. unfold p. destruct (String.eqb_spec (Student.branch s)
      (Student.branch student1)); simpl; split; congruence. }
  change (findIndex p (student1 :: next :: rest))
    with (if p student1 then Some 0 else S <$> findIndex p (next :: rest)).
  rewrite Hp1.
  destruct (findIndex p (next :: rest)) as [d|] eqn:Hd; simpl fmap.
  - destruct (findIndex_Some _ _ _ Hd) as (x & Hx & Hpx & _).
    exists x, (delete d (next :: rest)). split; [|split; [|split]].
    + change ((student1 :: next :: rest) !! S d) with ((next :: rest) !! d).
      by rewrite Hx.
    + symmetry. by apply delete_Permutation.
    + intros _. by apply Hp.
    + intros Heq. apply Hp in Hpx. done.
  - apply findIndex_None in Hd.
    exists next, rest. split; [done|]. split; [done|]. split.
    + intros (s & Hs & Hne). rewrite Forall_forall in Hd.
      apply Hp in Hne. rewrite (Hd s Hs) in Hne. done.
    + intros _. repeat split. intros s Hs. rewrite Forall_forall in Hd.
      specialize (Hd s Hs). destruct (String.eqb_spec (Student.branch s)
        (Student.branch student1)) as [?|Hne]; [done|].
      apply Hp in Hne. congruence.
Qed.

Lemma student_assign s seatInfo bench :
  SeatingAssignment.student (assign s seatInfo bench) = s.
Proof. by destruct s. Qed.

Lemma room_assign s seatInfo bench :
  SeatingAssignment.room (assign s seatInfo bench) = seatInfo.
Proof. by destruct seatInfo as [[? ?] ?]. Qed.

Section RoomFacts.
Variable totalCapacity : nat.
Variable seatInfo : string * string * string.
Variable room : Room.t.

Local Abbreviation loop := (seatLoop totalCapacity seatInfo room).

Lemma seatLoop_empty fuel i bc st :
  Alloc.studentPool st = [] → loop fuel i bc st = st.
Proof.
  intros Hpool. destruct fuel as [|fuel]; simpl; [done|].
  rewrite Hpool. simpl. rewrite orb_true_r. by destruct (negb _).
Qed.

(** The fuel [allocRoom] gives is enough: with [roomCapacity <= i + fuel] the
loop has reached its end, and more fuel changes nothing. *)
Lemma seatLoop_fuel fuel fuel' i bc st :
  roomCapacity room ≤ i + fuel → fuel ≤ fuel' →
  loop fuel i bc st = loop fuel' i bc st.
Proof.
  revert fuel' i bc st.
  induction fuel as [|fuel IH]; intros fuel' i bc st Hcap Hle.
  - destruct fuel' as [|fuel']; [done|]. simpl.
    replace (i <? roomCapacity room) with false
      by (symmetry; apply Nat.ltb_ge; lia).
    done.
  - destruct fuel' as [|fuel']; [lia|]. simpl.
    repeat case_match; try done; apply IH; lia.
Qed.

Lemma RoomRun_stop two bc cap st :
  Alloc.studentPool st = [] ∨ cap = 0 → RoomRun seatInfo two bc cap st st [].
Proof.
  intros Hstop. split; simpl; try done; try constructor.
  - by rewrite app_nil_r.
  - destruct Hstop as [-> | ->]; [done|]. by rewrite Nat.min_0_r.
Qed.

(** One more assignment in front of a run. *)
Lemma RoomRun_cons two bc bc' cap st st1 st' s bench new :
  Alloc.studentPool st ≡ₚ s :: Alloc.studentPool st1 →
  Alloc.seatingPlan st1 = Alloc.seatingPlan st ++ [assign s seatInfo bench] →
  Alloc.studentIndex st1 = S (Alloc.studentIndex st) →
  bc ≤ bc' →
  Labelled two bc (assign s seatInfo bench) →
  bench ∉ map SeatingAssignment.benchNumber new →
  RoomRun seatInfo two bc' cap st1 st' new →
  RoomRun seatInfo two bc (S cap) st st' (assign s seatInfo bench :: new).
Proof.
  intros Hpool Hplan1 Hidx1 Hbc Hlab Hfresh
    [Hplan Hidx Hlen Hperm Hroom Hlabs Hnd].
  split; simpl.
  - by rewrite Hplan, Hplan1, <- (assoc app).
  - rewrite Hidx, Hidx1. lia.
  - rewrite Hlen, Hpool. simpl. lia.
  - by rewrite student_assign, Hpool, Hperm.
  - constructor; [apply room_assign | done].
  - constructor; [done|].
    eapply Forall_impl; [done|]. intros a. by apply labelled_weaken.
  - by constructor.
Qed.

Lemma seatLoop_single fuel n i bc st :
  Room.studentsPerBench room = 1 →
  i + n = roomCapacity room → n ≤ fuel →
  Alloc.studentIndex st + n ≤ totalCapacity →
  ∃ new, RoomRun seatInfo false bc n st (loop fuel i bc st) new.
Proof.
  intros Hspb. revert n i bc st.
  induction fuel as [|fuel IH]; intros n i bc st Hi Hfuel Hceil.
  { exists []. simpl. apply RoomRun_stop. right. lia. }
  simpl. destruct n as [|n].
  { replace (i <? roomCapacity room) with false
      by (symmetry; apply Nat.ltb_ge; lia).
    exists []. apply RoomRun_stop. by right. }
  replace (i <? roomCapacity room) with true
    by (symmetry; apply Nat.ltb_lt; lia).
  replace (totalCapacity <=? Alloc.studentIndex st) with false
    by (symmetry; apply Nat.leb_gt; lia).
  simpl. rewrite Hspb. simpl.
  destruct (Alloc.studentPool st) as [|s pool'] eqn:Hpool; simpl.
  { exists []. apply RoomRun_stop. by left. }
  set (st1 := Alloc.mk pool' _ _).
  destruct (IH n (S i) (S bc) st1) as [new Hrun]; [lia | lia | simpl; lia | ].
  exists (assign s seatInfo (pretty bc) :: new).
  eapply (RoomRun_cons false bc (S bc) n st st1); try done.
  - by rewrite Hpool.
  - lia.
  - by exists bc.
  - apply single_label_fresh, Hrun.
Qed.

Lemma seatLoop_double fuel n cap i bc st :
  Room.studentsPerBench room = 2 →
  cap = 2 * n → i + cap = roomCapacity room → n ≤ fuel →
  Alloc.studentIndex st + cap ≤ totalCapacity →
  ∃ new, RoomRun seatInfo true bc cap st (loop fuel i bc st) new.
Proof.
  intros Hspb. revert n cap i bc st.
  induction fuel as [|fuel IH]; intros n cap i bc st Hcap Hi Hfuel Hceil.
  { exists []. simpl. apply RoomRun_stop. right. lia. }
  simpl. destruct cap as [|[|cap]]; [|lia|].
  { replace (i <? roomCapacity room) with false
      by (symmetry; apply Nat.ltb_ge; lia).
    exists []. apply RoomRun_stop. by right. }
  replace (i <? roomCapacity room) with true
    by (symmetry; apply Nat.ltb_lt; lia).
  replace (totalCapacity <=? Alloc.studentIndex st) with false
    by (symmetry; apply Nat.leb_gt; lia).
  replace (totalCapacity <=? S (Alloc.studentIndex st)) with false
    by (symmetry; apply Nat.leb_gt; lia).
  simpl. rewrite Hspb. simpl.
  assert (HL : ∀ s, Labelled true bc (assign s seatInfo (pretty bc +:+ "L"))).
  { intros s. exists bc. split; [lia|]. by left. }
  assert (HR : ∀ s, Labelled true bc (assign s seatInfo (pretty bc +:+ "R"))).
  { intros s. exists bc. split; [lia|]. by right. }
  destruct (Alloc.studentPool st) as [|s1 [|next rest]] eqn:Hpool; simpl.
  - exists []. apply RoomRun_stop. by left.
  - rewrite seatLoop_empty by done.
    set (st1 := Alloc.mk [] _ _).
    exists [assign s1 seatInfo (pretty bc +:+ "L")].
    eapply (RoomRun_cons true bc bc _ st st1); try done.
    + by rewrite Hpool.
    + apply not_elem_of_nil.
    + apply RoomRun_stop. by left.
  - destruct (pickPartner_spec s1 next rest) as (s2 & pool' & -> & Hperm & _).
    set (plan1 := Alloc.seatingPlan st ++ [_]).
    set (st2 := Alloc.mk pool' _ _).
    destruct (IH (pred n) cap (S (S i)) (S bc) st2) as [new Hrun];
      [lia | lia | lia | simpl; lia | ].
    exists (assign s1 seatInfo (pretty bc +:+ "L")
            :: assign s2 seatInfo (pretty bc +:+ "R") :: new).
    apply (RoomRun_cons true bc bc _ st
             (Alloc.mk (s2 :: pool') plan1 (S (Alloc.studentIndex st))));
      simpl; try done.
    + by rewrite Hpool, Hperm.
    + apply not_elem_of_cons. split.
      * intros H. by apply append_last_inj in H as [_ ?].
      * apply (double_label_fresh bc "L"), Hrun.
    + apply (RoomRun_cons true bc (S bc) _ _ st2); simpl; try done.
      * lia.
      * apply (double_label_fresh bc "R"), Hrun.
Qed.

Lemma seatLoop_other fuel i bc st :
  Room.studentsPerBench room ≠ 1 → Room.studentsPerBench room ≠ 2 →
  loop fuel i bc st = st.
Proof.
  intros H1 H2. revert i bc.
  induction fuel as [|fuel IH]; intros i bc; simpl; [done|].
  apply Nat.eqb_neq in H1, H2. rewrite H1, H2.
  destruct (negb _); [done|]. destruct (_ || _); [done|]. apply IH.
Qed.

Lemma usableSeats_le : usableSeats room ≤ roomCapacity room.
Proof. unfold usableSeats. destruct (_ || _); lia. Qed.

(** A room seats as many students as the pool and its usable seats allow. *)
Lemma allocRoom_run st :
  Alloc.studentIndex st + roomCapacity room ≤ totalCapacity →
  ∃ new, RoomRun seatInfo (Room.studentsPerBench room =? 2) 1 (usableSeats room)
                 st (allocRoom totalCapacity seatInfo room st) new.
Proof.
  intros Hceil. unfold allocRoom, usableSeats.
  destruct (decide (Room.studentsPerBench room = 1)) as [H1|H1].
  { rewrite H1. simpl. apply seatLoop_single; try done; lia. }
  destruct (decide (Room.studentsPerBench room = 2)) as [H2|H2].
  { rewrite H2. simpl.
    assert (E : roomCapacity room = 2 * Nat.min (Room.benches room) 45).
    { unfold roomCapacity. rewrite H2. lia. }
    rewrite E in *.
    apply (seatLoop_double _ (Nat.min (Room.benches room) 45)); try done; lia. }
  rewrite seatLoop_other by done.
  apply Nat.eqb_neq in H1, H2. rewrite H1, H2. simpl.
  exists []. apply RoomRun_stop. by right.
Qed.
End RoomFacts.

(** ** The allocator, the whole layout *)

Lemma sum_list_app_nat (l k : list nat) : sum_list (l ++ k) = sum_list l + sum_list k.
Proof. induction l as [|x l IH]; simpl; lia. Qed.

Lemma capacitySum_app r1 r2 : capacitySum (r1 ++ r2) = capacitySum r1 + capacitySum r2.
Proof. unfold capacitySum. by rewrite map_app, sum_list_app_nat. Qed.

Lemma configuredSum_app r1 r2 :
  configuredSum (r1 ++ r2) = configuredSum r1 + configuredSum r2.
Proof. unfold configuredSum. by rewrite map_app, sum_list_app_nat. Qed.

Lemma capacitySum_le_configured rooms : capacitySum rooms ≤ configuredSum rooms.
Proof.
  unfold capacitySum, configuredSum, roomCapacity.
  induction rooms as [|e rooms IH]; simpl; [done|].
  pose proof (Nat.mul_le_mono_r (Nat.min (Room.benches e.2) 45) (Room.benches e.2)
                (Room.studentsPerBench e.2) (Nat.le_min_l _ _)).
  lia.
Qed.

Lemma usableSum_le_capacity rooms : usableSum rooms ≤ capacitySum rooms.
Proof.
  unfold capacitySum, usableSum.
  induction rooms as [|e rooms IH]; simpl; [done|].
  pose proof (usableSeats_le e.2). lia.
Qed.

(** [totalCapacity] is the configured capacity of the layout. *)
Lemma totalCapacityOf_sum layout :
  totalCapacityOf layout = configuredSum (layoutRooms layout).
Proof.
  unfold totalCapacityOf, layoutRooms.
  assert (Hrooms : ∀ (g : Room.t → (string * string * string) * Room.t) rooms acc,
    (∀ r, (g r).2 = r) →
    fold_left (fun total r => total + Room.benches r * Room.studentsPerBench r)
              rooms acc
    = acc + configuredSum (map g rooms)).
  { intros g rooms acc Hg. revert acc.
    induction rooms as [|r rooms IH]; intros acc; simpl; [unfold configuredSum; simpl; lia|].
    rewrite IH. unfold configuredSum. simpl. rewrite Hg. lia. }
  assert (Hfloors : ∀ b floors acc,
    fold_left (fun total f =>
      fold_left (fun total r => total + Room.benches r * Room.studentsPerBench r)
                (Floor.rooms f) total) floors acc
    = acc + configuredSum
              (floors ≫= fun f => map (fun r => (seatInfoOf b f r, r)) (Floor.rooms f))).
  { intros b floors. induction floors as [|f floors IH]; intros acc.
    - unfold configuredSum. simpl. lia.
    - rewrite bind_cons, configuredSum_app. cbn [fold_left].
      rewrite IH, (Hrooms (fun r => (seatInfoOf b f r, r))) by done. lia. }
  assert (Hblocks : ∀ blocks acc,
    fold_left (fun total b =>
      fold_left (fun total f =>
        fold_left (fun total r => total + Room.benches r * Room.studentsPerBench r)
                  (Floor.rooms f) total) (Block.floors b) total) blocks acc
    = acc + configuredSum
              (blocks ≫= fun b => Block.floors b ≫= fun f =>
                 map (fun r => (seatInfoOf b f r, r)) (Floor.rooms f))).
  { intros blocks. induction blocks as [|b blocks IH]; intros acc.
    - unfold configuredSum. simpl. lia.
    - rewrite bind_cons, configuredSum_app. cbn [fold_left].
      rewrite IH, (Hfloors b). lia. }
  apply Hblocks.
Qed.

Section LayoutFacts.
Variable totalCapacity : nat.

Local Abbreviation step := (roomStep totalCapacity).

(** Once the ceiling is reached nothing more is seated, so leaving the loop
    over the rooms of a floor and skipping each of them are the same. *)
Lemma roomStep_ceiling rooms st :
  totalCapacity ≤ Alloc.studentIndex st → fold_left step rooms st = st.
Proof.
  intros Hceil. induction rooms as [|e rooms IH]; simpl; [done|].
  unfold roomStep at 2.
  replace (totalCapacity <=? Alloc.studentIndex st) with true
    by (symmetry; by apply Nat.leb_le).
  done.
Qed.

Lemma roomsLoop_fold block floor rooms st :
  roomsLoop totalCapacity block floor rooms st
  = fold_left step (map (fun r => (seatInfoOf block floor r, r)) rooms) st.
Proof.
  revert st. induction rooms as [|r rooms IH]; intros st; simpl; [done|].
  unfold roomStep at 2. simpl.
  destruct (totalCapacity <=? Alloc.studentIndex st) eqn:Hceil.
  - symmetry. apply roomStep_ceiling. by apply Nat.leb_le.
  - apply IH.
Qed.

Lemma floorsLoop_fold block floors st :
  floorsLoop totalCapacity block floors st
  = fold_left step
      (floors ≫= fun f => map (fun r => (seatInfoOf block f r, r)) (Floor.rooms f))
      st.
Proof.
  unfold floorsLoop. revert st.
  induction floors as [|f floors IH]; intros st; [done|].
  rewrite bind_cons, fold_left_app. cbn [fold_left].
  by rewrite IH, roomsLoop_fold.
Qed.

Lemma blocksLoop_fold layout st :
  blocksLoop totalCapacity (LayoutConfig.blocks layout) st
  = fold_left step (layoutRooms layout) st.
Proof.
  unfold blocksLoop, layoutRooms. revert st.
  induction (LayoutConfig.blocks layout) as [|b blocks IH]; intros st; [done|].
  rewrite bind_cons, fold_left_app. cbn [fold_left].
  by rewrite IH, floorsLoop_fold.
Qed.

(** The traversal: every room contributes its chunk, nobody is lost, and
    as many students are seated as the pool and the usable seats allow. *)
Lemma layout_run rooms st :
  Alloc.studentIndex st + capacitySum rooms ≤ totalCapacity →
  ∃ news,
    Forall2 Chunk rooms news
    ∧ Alloc.seatingPlan (fold_left step rooms st)
      = Alloc.seatingPlan st ++ concat news
    ∧ students (concat news) ++ Alloc.studentPool (fold_left step rooms st)
      ≡ₚ Alloc.studentPool st
    ∧ length (concat news)
      = Nat.min (length (Alloc.studentPool st)) (usableSum rooms).
Proof.
  revert st. induction rooms as [|e rooms IH]; intros st Hceil.
  { exists []. simpl. rewrite app_nil_r, Nat.min_0_r. by repeat split. }
  unfold capacitySum in Hceil. simpl in Hceil. fold (capacitySum rooms) in Hceil.
  cbn [fold_left].
  destruct (totalCapacity <=? Alloc.studentIndex st) eqn:Hfull.
  - assert (E : roomStep totalCapacity st e = st)
      by (unfold roomStep; by rewrite Hfull).
    rewrite E. apply Nat.leb_le in Hfull.
    destruct (IH st) as (news & Hchunks & Hplan & Hpool & Hlen); [lia|].
    exists ([] :: news). simpl.
    assert (Hzero : usableSeats e.2 = 0).
    { pose proof (usableSeats_le e.2). lia. }
    repeat split; try done.
    + constructor; [|done]. repeat split; simpl; [constructor | constructor | lia].
    + unfold usableSum in *. simpl. by rewrite Hzero.
  - assert (E : roomStep totalCapacity st e = allocRoom totalCapacity e.1 e.2 st)
      by (unfold roomStep; by rewrite Hfull).
    rewrite E. apply Nat.leb_gt in Hfull.
    destruct (allocRoom_run totalCapacity e.1 e.2 st) as [new Hrun]; [lia|].
    set (st1 := allocRoom totalCapacity e.1 e.2 st) in *.
    destruct Hrun as [Hplan1 Hidx1 Hlen1 Hpool1 Hroom1 _ Hnd1].
    pose proof (usableSeats_le e.2) as Hu.
    assert (Hlenpool : length (Alloc.studentPool st)
                       = length new + length (Alloc.studentPool st1)).
    { rewrite <- Hpool1, length_app. unfold students. by rewrite length_map. }
    destruct (IH st1) as (news & Hchunks & Hplan & Hpool & Hlen); [lia|].
    exists (new :: news). simpl. repeat split.
    + constructor; [|done]. repeat split; try done. lia.
    + by rewrite Hplan, Hplan1, <- (assoc app).
    + unfold students in *. rewrite map_app, <- (assoc app), Hpool. done.
    + rewrite length_app, Hlen. unfold usableSum. simpl.
      fold (usableSum rooms). lia.
Qed.
End LayoutFacts.

(** ** The final sort and the summary *)

Lemma insertSorted_Permutation cmp x l : insertSorted cmp x l ≡ₚ x :: l.
Proof.
  induction l as [|y l IH]; simpl; [done|].
  destruct (0 <? compareAssignments cmp x y)%Z; [|done].
  rewrite IH. apply perm_swap.
Qed.

Lemma sortPlan_Permutation cmp plan : sortPlan cmp plan ≡ₚ plan.
Proof.
  induction plan as [|x plan IH]; simpl; [done|].
  by rewrite insertSorted_Permutation, IH.
Qed.

Section WeighFacts.
Context {V : Type}.
Variable f : V → nat.

Lemma weigh_empty : weigh f ∅ = 0.
Proof. apply map_fold_empty. Qed.

Lemma weigh_insert_fresh (m : gmap string V) k v :
  m !! k = None → weigh f (<[k := v]> m) = f v + weigh f m.
Proof.
  intros Hk. unfold weigh.
  rewrite map_fold_insert_L; [done| |done]. intros. lia.
Qed.

(** Writing a key adds the weight of the new value and removes the weight
    of the value that was there. *)
Lemma weigh_insert (m : gmap string V) k v :
  weigh f (<[k := v]> m) + default 0 (f <$> m !! k) = f v + weigh f m.
Proof.
  destruct (m !! k) as [v0|] eqn:Hk; simpl.
  - rewrite <- (insert_delete_eq m k v).
    rewrite <- (insert_delete_id m k v0 Hk) at 2.
    rewrite !weigh_insert_fresh by apply lookup_delete_eq. lia.
  - rewrite weigh_insert_fresh by done. lia.
Qed.
End WeighFacts.

Lemma summaryTotal_count summary a :
  summaryTotal (countAssignment summary a) = S (summaryTotal summary).
Proof.
  unfold summaryTotal, countAssignment.
  set (classroom := SeatingAssignment.classroom a).
  set (branch := SeatingAssignment.branch a).
  pose proof (weigh_insert (weigh id) summary classroom
    (<[branch := S (default 0 (default ∅ (summary !! classroom) !! branch))]>
       (default ∅ (summary !! classroom)))) as Houter.
  pose proof (weigh_insert id (default ∅ (summary !! classroom)) branch
    (S (default 0 (default ∅ (summary !! classroom) !! branch)))) as Hinner.
  assert (E1 : default 0 (weigh id <$> summary !! classroom)
               = weigh id (default ∅ (summary !! classroom))).
  { destruct (summary !! classroom); simpl; [done|]. by rewrite weigh_empty. }
  assert (E2 : default 0 (id <$> default ∅ (summary !! classroom) !! branch)
               = default 0 (default ∅ (summary !! classroom) !! branch)).
  { by destruct (default ∅ (summary !! classroom) !! branch). }
  rewrite E1 in Houter. rewrite E2 in Hinner. unfold id in *. lia.
Qed.

Lemma summaryTotal_tally plan : summaryTotal (tally plan) = length plan.
Proof.
  unfold tally.
  assert (G : ∀ summary,
    summaryTotal (fold_left countAssignment plan summary)
    = summaryTotal summary + length plan).
  { induction plan as [|a plan IH]; intros summary; simpl; [lia|].
    rewrite IH, summaryTotal_count. lia. }
  rewrite G. unfold summaryTotal. by rewrite weigh_empty.
Qed.

(** When no room number and no branch of the plan names a member of
    [Object.prototype], the summary is the tally. *)
Lemma countTurn_plain summary a :
  inherited (SeatingAssignment.classroom a) = false →
  inherited (SeatingAssignment.branch a) = false →
  countTurn summary a = OwnCount.
Proof.
  intros Hc Hb. unfold countTurn. rewrite Hc, Hb.
  destruct (summary !! _) as [ofRoom|]; [|done]. by destruct (ofRoom !! _).
Qed.

Lemma summarize_tally prototypeCounts plan :
  Forall (fun a => inherited (SeatingAssignment.classroom a) = false
                   ∧ inherited (SeatingAssignment.branch a) = false) plan →
  summarize prototypeCounts plan = Ok (tally plan).
Proof.
  unfold summarize, tally. generalize (∅ : RoomBranchSummary).
  induction plan as [|a plan IH]; intros summary Hplain; simpl; [done|].
  apply Forall_cons in Hplain as [[Hc Hb] Hplain].
  rewrite countTurn_plain by done. by apply IH.
Qed.

(** ** The roster merger *)

Lemma readFiles_Ok files acc roster :
  readFiles files acc = Ok roster ↔
  ∃ lists, Forall2 (fun f l => readFile f = Ok l) files lists
           ∧ roster = acc ++ concat lists.
Proof.
  revert acc. induction files as [|f files IH]; intros acc; simpl.
  - split.
    + intros [= <-]. exists []. split; [constructor|]. by rewrite app_nil_r.
    + intros (lists & Hall & ->). inversion Hall; subst. simpl.
      by rewrite app_nil_r.
  - destruct (readFile f) as [students|e] eqn:Hf; simpl.
    + rewrite IH. split.
      * intros (lists & Hall & ->). exists (students :: lists).
        split; [by constructor|]. simpl. by rewrite (assoc app).
      * intros (lists & Hall & ->). inversion Hall as [|? l ? lists' Hl Hrest]; subst.
        exists lists'. split; [done|]. simpl.
        assert (l = students) as -> by congruence. by rewrite (assoc app).
    + split; [done|]. intros (lists & Hall & _).
      inversion Hall; subst. congruence.
Qed.

(** The loop stops at the first file that throws. *)
Lemma readFiles_Throw pre f post e acc :
  Forall (fun g => ∃ l, readFile g = Ok l) pre →
  readFile f = Throw e →
  readFiles (pre ++ f :: post) acc = Throw e.
Proof.
  revert acc. induction pre as [|g pre IH]; intros acc Hpre Hf; simpl.
  - by rewrite Hf.
  - apply Forall_cons in Hpre as [[l Hl] Hpre]. rewrite Hl. simpl. by apply IH.
Qed.

Lemma first_failure files f e :
  f ∈ files → readFile f = Throw e →
  ∃ pre g post e',
    files = pre ++ g :: post
    ∧ Forall (fun g => ∃ l, readFile g = Ok l) pre
    ∧ readFile g = Throw e'.
Proof.
  induction files as [|g files IH]; intros Hin Hf; [by apply elem_of_nil in Hin|].
  destruct (readFile g) as [l|e'] eqn:Hg.
  - apply elem_of_cons in Hin as [->|Hin]; [congruence|].
    destruct (IH Hin Hf) as (pre & g' & post & e'' & -> & Hpre & Hg').
    exists (g :: pre), g', post, e''. split; [done|]. split; [|done].
    constructor; [by exists l | done].
  - exists [], g, files, e'. by repeat split.
Qed.

(** ** The flow *)

Section FlowFacts.
Variable rnd : nat -> nat.
Variable localeCompare : string -> string -> Z.
Variable prototypeCounts :
  RoomBranchSummary -> list SeatingAssignment.t -> Result RoomBranchSummary.

Local Abbreviation flow := (seatingArrangementFlow rnd localeCompare prototypeCounts).

(** What a run of lines 178 to 300 returns for the roster [all], when it
    returns. *)
Lemma arrange_spec layout all out :
  arrange rnd localeCompare prototypeCounts layout {[ allStudentsLoc := all ]}
  = Ok out →
  plainBranches all
  ∧ ∃ plan summary news left,
      out = Output.mk (Some plan)
              (Some (ExamConfig.mk (LayoutConfig.startDate layout)
                       (LayoutConfig.endDate layout)
                       (LayoutConfig.examTimings layout) true))
              (Some summary) (Some all) None
      ∧ summarize prototypeCounts plan = Ok summary
      ∧ plan ≡ₚ concat news
      ∧ Forall2 Chunk (layoutRooms layout) news
      ∧ students plan ++ left ≡ₚ all
      ∧ length plan = Nat.min (length all) (usableSum (layoutRooms layout)).
Proof.
  unfold arrange.
  assert (Hh : ({[ allStudentsLoc := all ]} : Heap) !! allStudentsLoc = Some all)
    by apply lookup_singleton_eq.
  destruct (buildPool_cases rnd all _ Hh) as [[Hplain (h' & pool & Hbuild)]|[_ ->]];
    [|done].
  destruct (buildPool_spec rnd all _ h' pool Hh Hbuild) as [Hroster Hpool].
  rewrite Hbuild. simpl. rewrite blocksLoop_fold, Hroster.
  destruct (layout_run (totalCapacityOf layout) (layoutRooms layout)
              (Alloc.mk pool [] 0)) as (news & Hchunks & Hplan & Hperm & Hlen).
  { simpl. rewrite totalCapacityOf_sum. apply capacitySum_le_configured. }
  simpl in Hplan, Hperm, Hlen.
  set (final := fold_left _ _ _) in *.
  destruct (summarize _ _) as [summary|e] eqn:Hsum; [|done]. simpl.
  intros [= <-]. split; [done|].
  exists (sortPlan localeCompare (Alloc.seatingPlan final)), summary, news,
         (Alloc.studentPool final).
  split; [done|]. split; [done|]. rewrite Hplan. repeat split.
  - apply sortPlan_Permutation.
  - done.
  - unfold students in *. by rewrite sortPlan_Permutation, Hperm.
  - by rewrite sortPlan_Permutation, Hlen, Hpool.
Qed.

(** The run throws when a branch of the roster names a member of
    [Object.prototype]. *)
Lemma arrange_Throw layout all :
  Exists (fun s => inherited (Student.branch s) = true) all →
  arrange rnd localeCompare prototypeCounts layout {[ allStudentsLoc := all ]}
  = Throw pushIsNotAFunction.
Proof.
  intros Hbad. unfold arrange.
  assert (Hh : ({[ allStudentsLoc := all ]} : Heap) !! allStudentsLoc = Some all)
    by apply lookup_singleton_eq.
  destruct (buildPool_cases rnd all _ Hh) as [[Hplain _]|[_ ->]]; [|done].
  exfalso. apply Exists_exists in Hbad as (s & Hs & Hb).
  unfold plainBranches in Hplain. rewrite Forall_forall in Hplain.
  specialize (Hplain s Hs). simpl in Hplain. congruence.
Qed.

Lemma flow_arrange input roster :
  readFiles (Input.studentListDataUris input) [] = Ok roster → roster ≠ [] →
  flow input = arrange rnd localeCompare prototypeCounts (Input.layoutConfig input)
                       {[ allStudentsLoc := roster ]}.
Proof.
  intros Hread Hne. unfold seatingArrangementFlow. rewrite Hread.
  by destruct roster.
Qed.

Lemma flow_empty input :
  readFiles (Input.studentListDataUris input) [] = Ok [] →
  flow input = Ok (Output.failure emptyRosterMessage).
Proof. intros Hread. unfold seatingArrangementFlow. by rewrite Hread. Qed.

Lemma flow_thrown input e :
  readFiles (Input.studentListDataUris input) [] = Throw e →
  flow input = Ok (Output.failure (thrownMessage e)).
Proof.
  intros Hread. unfold seatingArrangementFlow. rewrite Hread. by destruct e.
Qed.

(** A file that throws makes the flow fail. *)
Lemma flow_failure input f e :
  f ∈ Input.studentListDataUris input → readFile f = Throw e →
  ∃ message, flow input = Ok (Output.failure message).
Proof.
  intros Hin Hf.
  destruct (first_failure _ f e Hin Hf) as (pre & g & post & e' & Hfiles & Hpre & Hg).
  exists (thrownMessage e'). apply flow_thrown.
  rewrite Hfiles. by apply readFiles_Throw.
Qed.

(** The flow runs lines 178 to 300 on a roster that is not empty, or answers
    with an error and nothing else. *)
Lemma flow_cases input :
  (∃ roster, readFiles (Input.studentListDataUris input) [] = Ok roster
             ∧ roster ≠ []
             ∧ flow input
               = arrange rnd localeCompare prototypeCounts (Input.layoutConfig input)
                         {[ allStudentsLoc := roster ]})
  ∨ (∃ message, flow input = Ok (Output.failure message)).
Proof.
  destruct (readFiles (Input.studentListDataUris input) []) as [roster|e] eqn:Hread.
  - destruct roster as [|s roster].
    + right. eexists. by apply flow_empty.
    + left. exists (s :: roster). repeat split; [done|]. by apply flow_arrange.
  - right. eexists. by apply flow_thrown.
Qed.

(** What a returned plan comes with. *)
Lemma flow_plan input out plan :
  flow input = Ok out → Output.seatingPlan out = Some plan →
  ∃ roster summary news left,
    readFiles (Input.studentListDataUris input) [] = Ok roster
    ∧ roster ≠ []
    ∧ plainBranches roster
    ∧ out = Output.mk (Some plan)
              (Some (ExamConfig.mk
                       (LayoutConfig.startDate (Input.layoutConfig input))
                       (LayoutConfig.endDate (Input.layoutConfig input))
                       (LayoutConfig.examTimings (Input.layoutConfig input)) true))
              (Some summary) (Some roster) None
    ∧ summarize prototypeCounts plan = Ok summary
    ∧ plan ≡ₚ concat news
    ∧ Forall2 Chunk (layoutRooms (Input.layoutConfig input)) news
    ∧ students plan ++ left ≡ₚ roster
    ∧ length plan
      = Nat.min (length roster) (usableSum (layoutRooms (Input.layoutConfig input))).
Proof.
  intros Hflow Hplan.
  destruct (flow_cases input)
    as [(roster & Hread & Hne & Harr) | (message & Hfail)].
  - rewrite Harr in Hflow.
    destruct (arrange_spec _ _ _ Hflow)
      as (Hplain & plan' & summary & news & left & -> & Hsum & Hrest).
    simpl in Hplan. injection Hplan as <-.
    by exists roster, summary, news, left.
  - rewrite Hfail in Hflow. injection Hflow as <-. done.
Qed.
End FlowFacts.

(** ** Layouts the input validation lets through *)

Lemma valid_layout_rooms layout :
  LayoutFormSchema layout = true →
  Forall (fun e => RoomSchema e.2 = true) (layoutRooms layout).
Proof.
  unfold LayoutFormSchema, layoutRooms. intros H.
  apply andb_prop in H as [Hblocks _].
  apply Forall_forall. intros e He.
  apply list_elem_of_bind in He as (b & He & Hb).
  apply list_elem_of_bind in He as (f & He & Hf).
  apply list_elem_of_fmap in He as (r & -> & Hr). simpl.
  rewrite forallb_forall in Hblocks.
  apply list_elem_of_In, Hblocks in Hb. unfold BlockSchema in Hb.
  apply andb_prop in Hb as [Hb _]. apply andb_prop in Hb as [_ Hfloors].
  rewrite forallb_forall in Hfloors.
  apply list_elem_of_In, Hfloors in Hf. unfold FloorSchema in Hf.
  apply andb_prop in Hf as [Hrooms _]. rewrite forallb_forall in Hrooms.
  by apply list_elem_of_In, Hrooms in Hr.
Qed.

Lemma valid_room_usable room :
  RoomSchema room = true → usableSeats room = roomCapacity room.
Proof.
  unfold RoomSchema, usableSeats. intros H.
  apply andb_prop in H as [H Hle2]. apply andb_prop in H as [_ Hge1].
  apply Nat.leb_le in Hle2, Hge1.
  assert (Room.studentsPerBench room = 1 ∨ Room.studentsPerBench room = 2)
    as [-> | ->] by lia; done.
Qed.

Lemma valid_layout_usable layout :
  LayoutFormSchema layout = true →
  usableSum (layoutRooms layout) = effectiveCapacity layout.
Proof.
  intros H. apply valid_layout_rooms in H.
  unfold usableSum, effectiveCapacity, capacitySum.
  induction H as [|e rooms He _ IH]; simpl; [done|].
  by rewrite IH, valid_room_usable.
Qed.

(** A valid layout with at most 45 configured seats has no capped room. *)
Lemma small_layout_uncapped layout :
  LayoutFormSchema layout = true → totalCapacityOf layout ≤ 45 →
  effectiveCapacity layout = totalCapacityOf layout.
Proof.
  intros H. apply valid_layout_rooms in H.
  rewrite totalCapacityOf_sum. unfold effectiveCapacity, capacitySum, configuredSum.
  induction H as [|e rooms He _ IH]; simpl; [done|]. intros Hle.
  unfold RoomSchema in He.
  apply andb_prop in He as [He _]. apply andb_prop in He as [_ Hge1].
  apply Nat.leb_le in Hge1.
  assert (Room.benches e.2 ≤ 45) by nia.
  unfold roomCapacity at 1. rewrite Nat.min_l by done. rewrite IH; [done | lia].
Qed.

(** ** Chunks of the plan *)

(** The [seatInfo] of the rooms is their key, with the floor number written
    in decimal. *)
Lemma layoutRooms_keys layout :
  (layoutRooms layout).*1
  = (fun k => (k.1.1, pretty k.1.2, k.2)) <$> roomKeys layout.
Proof.
  unfold layoutRooms, roomKeys.
  induction (LayoutConfig.blocks layout) as [|b blocks IHb]; [done|].
  rewrite !bind_cons, !fmap_app, IHb. f_equal.
  induction (Block.floors b) as [|f floors IHf]; [done|].
  rewrite !bind_cons, !fmap_app, IHf. f_equal.
  induction (Floor.rooms f) as [|r rooms IHr]; [done|].
  simpl. f_equal. apply IHr.
Qed.

Lemma roomKeys_NoDup layout :
  NoDup (roomKeys layout) → NoDup (layoutRooms layout).*1.
Proof.
  intros Hnd. rewrite layoutRooms_keys. apply NoDup_fmap_2; [|done].
  intros [[n1 z1] r1] [[n2 z2] r2]. simpl. intros [= -> Hz ->].
  by apply (inj pretty) in Hz as ->.
Qed.

Lemma chunk_rooms rooms news a :
  Forall2 Chunk rooms news → a ∈ concat news →
  SeatingAssignment.room a ∈ rooms.*1.
Proof.
  induction 1 as [|e new rooms news (Hroom & _ & _) _ IH]; simpl.
  - intros H. by apply elem_of_nil in H.
  - rewrite elem_of_app. intros [Ha|Ha].
    + rewrite Forall_forall in Hroom. rewrite (Hroom a Ha). left.
    + right. by apply IH.
Qed.

Lemma chunks_NoDup rooms news :
  NoDup rooms.*1 → Forall2 Chunk rooms news →
  NoDup (map SeatingAssignment.seat (concat news)).
Proof.
  intros Hnd Hchunks.
  induction Hchunks as [|e new rooms news (Hroom & Hbench & _) Hrest IH]; simpl.
  { constructor. }
  apply NoDup_cons in Hnd as [He Hnd].
  rewrite map_app. apply NoDup_app. split; [|split].
  - apply (NoDup_fmap_1 snd). rewrite <- list_fmap_compose.
    by replace (snd ∘ SeatingAssignment.seat) with SeatingAssignment.benchNumber.
  - intros x Hx Hx'.
    apply list_elem_of_fmap in Hx as (a & -> & Ha).
    apply list_elem_of_fmap in Hx' as (b & Hab & Hb).
    apply (chunk_rooms rooms news b Hrest) in Hb.
    rewrite Forall_forall in Hroom.
    assert (Heq : SeatingAssignment.room b = e.1).
    { rewrite <- (Hroom a Ha). unfold SeatingAssignment.room.
      unfold SeatingAssignment.seat in Hab. by injection Hab as -> -> -> _. }
    apply He. by rewrite <- Heq.
  - by apply IH.
Qed.

Lemma filter_none {A} (P : A → Prop) `{∀ x, Decision (P x)} (l : list A) :
  (∀ x, x ∈ l → ¬ P x) → filter P l = [].
Proof.
  induction l as [|x l IH]; intros Hl; [done|].
  rewrite filter_cons_False by (apply Hl; left).
  apply IH. intros y Hy. apply Hl. by right.
Qed.

Lemma seatedIn_app id plan1 plan2 :
  seatedIn id (plan1 ++ plan2) = seatedIn id plan1 + seatedIn id plan2.
Proof. unfold seatedIn. by rewrite filter_app, length_app. Qed.

Lemma chunks_load rooms news id :
  Forall2 Chunk rooms news →
  seatedIn id (concat news) ≤ capacitySum (filter (fun e => e.1 = id) rooms).
Proof.
  induction 1 as [|e new rooms news (Hroom & _ & Hlen) _ IH]; simpl; [done|].
  rewrite seatedIn_app, filter_cons.
  pose proof (usableSeats_le e.2) as Hu.
  destruct (decide (e.1 = id)) as [He|He].
  - unfold capacitySum in *. simpl.
    assert (seatedIn id new ≤ length new) by apply length_filter. lia.
  - assert (E : seatedIn id new = 0); [|lia].
    unfold seatedIn. rewrite filter_none; [done|].
    intros a Ha Hroom'. rewrite Forall_forall in Hroom.
    by rewrite (Hroom a Ha) in Hroom'.
Qed.

Lemma capacity_of_key rooms e :
  NoDup rooms.*1 → e ∈ rooms →
  capacitySum (filter (fun e' => e'.1 = e.1) rooms) = roomCapacity e.2.
Proof.
  intros Hnd He. induction rooms as [|e0 rooms IH]; [by apply elem_of_nil in He|].
  simpl in Hnd. apply NoDup_cons in Hnd as [Hfresh Hnd].
  rewrite filter_cons. apply elem_of_cons in He as [<-|He].
  - rewrite decide_True by done.
    rewrite filter_none.
    + unfold capacitySum. simpl. lia.
    + intros e' He' Heq. apply Hfresh. rewrite <- Heq.
      by apply list_elem_of_fmap_2.
  - rewrite decide_False; [by apply IH|].
    intros Heq. apply Hfresh. rewrite Heq. by apply list_elem_of_fmap_2.
Qed.

(** ** Three students on two double benches *)

Lemma allocRoom_three seatInfo roomNumber p1 p2 p3 :
  ∃ s2 z,
    allocRoom 4 seatInfo (Room.mk roomNumber 2 2) (Alloc.mk [p1; p2; p3] [] 0)
    = Alloc.mk [] [assign p1 seatInfo "1L"; assign s2 seatInfo "1R";
                   assign z seatInfo "2L"] 3
    ∧ [s2; z] ≡ₚ [p2; p3]
    ∧ ((∃ s, s ∈ [p2; p3] ∧ Student.branch s ≠ Student.branch p1) →
       Student.branch s2 ≠ Student.branch p1).
Proof.
  destruct (pickPartner_spec p1 p2 [p3]) as (s2 & pool' & Hpick & Hperm & Hcross & _).
  assert (Hlen : length pool' = 1).
  { apply Permutation_length in Hperm. simpl in Hperm. lia. }
  destruct pool' as [|z [|? ?]]; try done.
  exists s2, z. split; [|done].
  unfold allocRoom.
  change (roomCapacity (Room.mk roomNumber 2 2)) with 4.
  cbn [seatLoop]. 
  change (roomCapacity (Room.mk roomNumber 2 2)) with 4.
  cbn [Alloc.studentPool Alloc.seatingPlan Alloc.studentIndex Room.studentsPerBench
       Nat.ltb Nat.leb Nat.eqb negb orb length app].
  rewrite Hpick.
  cbn [Alloc.studentPool Alloc.seatingPlan Alloc.studentIndex Room.studentsPerBench
       Nat.ltb Nat.leb Nat.eqb negb orb length app].
  reflexivity.
Qed.

(** ** A plan is returned *)

Lemma layoutRooms_number layout e :
  e ∈ layoutRooms layout → e.1.2 = Room.number e.2.
Proof.
  unfold layoutRooms. intros He.
  apply list_elem_of_bind in He as (b & He & _).
  apply list_elem_of_bind in He as (f & He & _).
  by apply list_elem_of_fmap in He as (r & -> & _).
Qed.

Lemma chunk_classrooms layout news a :
  Forall2 Chunk (layoutRooms layout) news → a ∈ concat news →
  ∃ e, e ∈ layoutRooms layout ∧ SeatingAssignment.classroom a = Room.number e.2.
Proof.
  intros Hchunks Ha.
  apply (chunk_rooms _ _ _ Hchunks) in Ha.
  apply list_elem_of_fmap in Ha as (e & Hroom & He).
  exists e. split; [done|]. rewrite <- (layoutRooms_number layout e He), <- Hroom.
  done.
Qed.

Section FlowReturns.
Variable rnd : nat -> nat.
Variable localeCompare : string -> string -> Z.
Variable prototypeCounts :
  RoomBranchSummary -> list SeatingAssignment.t -> Result RoomBranchSummary.

Local Abbreviation flow := (seatingArrangementFlow rnd localeCompare prototypeCounts).

(** The branches of a returned plan name no member of [Object.prototype]. *)
Lemma plan_branches roster plan left :
  plainBranches roster → students plan ++ left ≡ₚ roster →
  Forall (fun a => inherited (SeatingAssignment.branch a) = false) plan.
Proof.
  intros Hplain Hperm. unfold plainBranches in Hplain.
  rewrite <- Hperm in Hplain. apply Forall_app in Hplain as [Hseated _].
  apply Forall_forall. intros a Ha. rewrite Forall_forall in Hseated.
  apply (Hseated (SeatingAssignment.student a)).
  unfold students. by apply list_elem_of_fmap_2.
Qed.

(** With a roster that is not empty and no name of [Object.prototype] among
    its branches and the room numbers of the layout, the flow returns a plan,
    with the tally of the plan as its summary. *)
Lemma flow_returns input roster :
  readFiles (Input.studentListDataUris input) [] = Ok roster → roster ≠ [] →
  plainBranches roster → plainRooms (Input.layoutConfig input) →
  ∃ plan news left,
    flow input
    = Ok (Output.mk (Some plan)
            (Some (ExamConfig.mk
                     (LayoutConfig.startDate (Input.layoutConfig input))
                     (LayoutConfig.endDate (Input.layoutConfig input))
                     (LayoutConfig.examTimings (Input.layoutConfig input)) true))
            (Some (tally plan)) (Some roster) None)
    ∧ plan ≡ₚ concat news
    ∧ Forall2 Chunk (layoutRooms (Input.layoutConfig input)) news
    ∧ students plan ++ left ≡ₚ roster
    ∧ length plan
      = Nat.min (length roster) (usableSum (layoutRooms (Input.layoutConfig input))).
Proof.
  intros Hread Hne Hbranches Hrooms.
  rewrite (flow_arrange rnd localeCompare prototypeCounts input roster Hread Hne).
  set (layout := Input.layoutConfig input) in *.
  unfold arrange.
  assert (Hh : ({[ allStudentsLoc := roster ]} : Heap) !! allStudentsLoc = Some roster)
    by apply lookup_singleton_eq.
  destruct (buildPool_cases rnd roster _ Hh)
    as [[_ (h' & pool & Hbuild)]|[Hbad _]].
  2:{ exfalso. apply Exists_exists in Hbad as (s & Hs & Hb).
      unfold plainBranches in Hbranches. rewrite Forall_forall in Hbranches.
      specialize (Hbranches s Hs). simpl in Hbranches. congruence. }
  destruct (buildPool_spec rnd roster _ h' pool Hh Hbuild) as [Hroster Hpool].
  rewrite Hbuild. simpl. rewrite blocksLoop_fold, Hroster.
  destruct (layout_run (totalCapacityOf layout) (layoutRooms layout)
              (Alloc.mk pool [] 0)) as (news & Hchunks & Hplan & Hperm & Hlen).
  { simpl. rewrite totalCapacityOf_sum. apply capacitySum_le_configured. }
  simpl in Hplan, Hperm, Hlen.
  set (final := fold_left _ _ _) in *.
  set (plan := sortPlan localeCompare (Alloc.seatingPlan final)).
  assert (Hsorted : plan ≡ₚ concat news).
  { unfold plan. by rewrite sortPlan_Permutation, Hplan. }
  assert (Hstudents : students plan ++ Alloc.studentPool final ≡ₚ roster).
  { unfold students, plan in *. by rewrite sortPlan_Permutation, Hplan, Hperm. }
  rewrite (summarize_tally prototypeCounts plan).
  - simpl. exists plan, news, (Alloc.studentPool final).
    split; [done|]. split; [done|]. split; [done|]. split; [done|].
    unfold plan. by rewrite sortPlan_Permutation, Hplan, Hlen, Hpool.
  - pose proof (plan_branches roster plan _ Hbranches Hstudents) as Hb.
    apply Forall_forall. intros a Ha. split.
    + assert (Hin : a ∈ concat news) by (by rewrite <- Hsorted).
      destruct (chunk_classrooms layout news a Hchunks Hin) as (e & He & ->).
      unfold plainRooms in Hrooms. rewrite Forall_forall in Hrooms.
      by apply Hrooms.
    + rewrite Forall_forall in Hb. by apply Hb.
Qed.
End FlowReturns.

(** ** The model at work *)

Example normalize_hall_ticket :
  normalizeHeader "Hall-Ticket No." = normalizeHeader "hallticketno".
Proof. reflexivity. Qed.

Example split_on_wide_gaps :
  splitWide "Asha Rao   21A01  CSE" = ["Asha Rao"; "21A01"; "CSE"].
Proof. reflexivity. Qed.

Example shuffle_with_zero_draws :
  shuffleArray Sample.zeros 0 [1; 2; 3; 4] = ([2; 3; 4; 1], 3).
Proof. reflexivity. Qed.

Example numeric_branches_come_first :
  (ownProperties [("CSE", 1); ("10", 2); ("9", 3)]).*1 = ["9"; "10"; "CSE"].
Proof. reflexivity. Qed.

Example five_into_four_seats :
  map SeatingAssignment.seat Sample.fivePlan
  = [("A", "1", "102", "2"); ("A", "1", "102", "1");
     ("A", "1", "101", "1L"); ("A", "1", "101", "1R")].
Proof. vm_compute. reflexivity. Qed.

Example broken_second_file :
  seatingArrangementFlow Sample.zeros Sample.ordinalCompare Sample.lostCounts
                         Sample.brokenSecond
  = Ok (Output.failure
          "Could not parse any students from the PDF. Please check the file's text format.").
Proof. vm_compute. reflexivity. Qed.

(** * The claims *)

Section Claims.
Variable rnd : nat -> nat.
Variable localeCompare : string -> string -> Z.
Variable prototypeCounts :
  RoomBranchSummary -> list SeatingAssignment.t -> Result RoomBranchSummary.

Local Abbreviation flow := (seatingArrangementFlow rnd localeCompare prototypeCounts).

(** C9.  When reading some file of the batch throws, the flow returns an
    output whose only field is [error]: no seatingPlan, no examConfig, no
    roomBranchSummary (and no allStudents), whatever the files before it
    contributed. *)
Theorem parse_error_aborts_batch (input : Input.t) :
  (∃ f e, f ∈ Input.studentListDataUris input ∧ readFile f = Throw e) →
  ∃ message,
    flow input = Ok (Output.mk None None None None (Some message)).
Proof.
  intros (f & e & Hin & Hf).
  destruct (flow_failure rnd localeCompare prototypeCounts input f e Hin Hf)
    as [message Hflow].
  exists message. by rewrite Hflow.
Qed.

(** C10.  On a successful invocation the returned allStudents is the
    concatenation, in input order, of the lists the files were read into:
    the partition, the in-place shuffles and the allocation leave the
    roster array as it was. *)
Theorem allStudents_is_merged_roster (input : Input.t) (output : Output.t) :
  flow input = Ok output →
  Output.error output = None →
  ∃ lists,
    Forall2 (fun f l => readFile f = Ok l) (Input.studentListDataUris input) lists
    ∧ Output.allStudents output = Some (concat lists).
Proof.
  intros Hflow Hok.
  destruct (flow_cases rnd localeCompare prototypeCounts input)
    as [(roster & Hread & _ & Harr) | (message & Hfail)].
  - apply readFiles_Ok in Hread as (lists & Hall & ->).
    exists lists. split; [done|]. rewrite Harr in Hflow.
    destruct (arrange_spec rnd localeCompare prototypeCounts _ _ _ Hflow)
      as (_ & plan & summary & news & left & -> & _).
    done.
  - rewrite Hfail in Hflow. injection Hflow as <-. done.
Qed.

(** C8, amended.  A file declared as PDF that is part of the batch either
    contributes at least one student or makes the invocation fail; and when
    every file of the batch is read into zero students, the invocation fails
    with the empty-result message.  (A delimited-text file read into zero
    students does not fail the invocation by itself.) *)
Theorem zero_student_files (input : Input.t) :
  (∀ f, f ∈ Input.studentListDataUris input →
        startsWith (dataUri f) "data:application/pdf" = true →
        (∃ message, flow input = Ok (Output.failure message))
        ∨ (∃ s l, readFile f = Ok (s :: l)))
  ∧ (Forall (fun f => readFile f = Ok []) (Input.studentListDataUris input) →
     flow input = Ok (Output.failure emptyRosterMessage)).
Proof.
  split.
  - intros f Hin Hpdf.
    destruct (readFile f) as [[|s l]|e] eqn:Hf.
    + exfalso. unfold readFile in Hf. rewrite Hpdf in Hf.
      unfold parseStudentsFromPDF in Hf.
      destruct (pdfText f) as [text|]; simpl in Hf; [|done].
      destruct (length _ <? 2); [done|].
      repeat (match type of Hf with
              | context [required ?o ?m] => destruct o; simpl in Hf; [|done]
              end).
      by destruct (omap _ _).
    + right. by exists s, l.
    + left. by apply (flow_failure rnd localeCompare prototypeCounts input f e).
  - intros Hall. apply flow_empty. apply readFiles_Ok.
    exists (map (fun _ => []) (Input.studentListDataUris input)). split.
    + induction Hall; simpl; by constructor.
    + simpl. clear Hall.
      induction (Input.studentListDataUris input) as [|? ? IH]; simpl; done.
Qed.


(** C4, amended.  When the rooms of the layout have pairwise distinct keys
(block name, floor number, room number), no two entries of the returned
seatingPlan have the same (block, floor, classroom, benchNumber), whatever the
size of the roster. *)
Theorem seats_are_distinct (input : Input.t) (output : Output.t)
    (plan : list SeatingAssignment.t) :
  NoDup (roomKeys (Input.layoutConfig input)) →
  flow input = Ok output →
  Output.seatingPlan output = Some plan →
  NoDup (map SeatingAssignment.seat plan).
Proof.
  intros Hkeys Hflow Hplan.
  destruct (flow_plan rnd localeCompare prototypeCounts input output plan Hflow Hplan)
    as (roster & summary & news & left & _ & _ & _ & _ & _ & Hperm & Hchunks & _).
  rewrite Hperm. apply (chunks_NoDup _ _ (roomKeys_NoDup _ Hkeys) Hchunks).
Qed.

(** C5, amended.  For every layout and roster, the entries of the returned
seatingPlan that carry a given (block, floor, classroom) are at most as many as
the capped capacities min(benches, 45) * studentsPerBench of the rooms of the
layout that carry it add up to; when the rooms of the layout have pairwise
distinct keys, that is the capped capacity of the one room. *)
Theorem room_load_bounded (input : Input.t) (output : Output.t)
    (plan : list SeatingAssignment.t) :
  flow input = Ok output →
  Output.seatingPlan output = Some plan →
  (∀ id, seatedIn id plan
         ≤ capacitySum (filter (fun e => e.1 = id)
                               (layoutRooms (Input.layoutConfig input))))
  ∧ (NoDup (roomKeys (Input.layoutConfig input)) →
     ∀ e, e ∈ layoutRooms (Input.layoutConfig input) →
          seatedIn e.1 plan ≤ roomCapacity e.2).
Proof.
  intros Hflow Hplan.
  destruct (flow_plan rnd localeCompare prototypeCounts input output plan Hflow Hplan)
    as (roster & summary & news & left & _ & _ & _ & _ & _ & Hperm & Hchunks & _).
  assert (Hload : ∀ id, seatedIn id plan
            ≤ capacitySum (filter (fun e => e.1 = id)
                                  (layoutRooms (Input.layoutConfig input)))).
  { intros id. unfold seatedIn. rewrite Hperm. by apply chunks_load. }
  split; [done|]. intros Hkeys e He.
  rewrite <- (capacity_of_key _ e (roomKeys_NoDup _ Hkeys) He). apply Hload.
Qed.

(** X20.  With a roster of five students and a valid layout whose total
capacity is four, and no member of [Object.prototype] named by a branch of the
roster or by a room number of the layout, the flow returns an answer without
error; its plan has four entries, which are the roster without one student,
and the counts of its summary add up to four. *)
Theorem five_students_four_seats (input : Input.t) (roster : list Student.t) :
  readFiles (Input.studentListDataUris input) [] = Ok roster →
  length roster = 5 →
  LayoutFormSchema (Input.layoutConfig input) = true →
  totalCapacityOf (Input.layoutConfig input) = 4 →
  plainBranches roster →
  plainRooms (Input.layoutConfig input) →
  ∃ output plan absent,
    flow input = Ok output
    ∧ Output.error output = None
    ∧ Output.seatingPlan output = Some plan
    ∧ length plan = 4
    ∧ absent :: students plan ≡ₚ roster
    ∧ summaryTotal <$> Output.roomBranchSummary output = Some 4.
Proof.
  intros Hread Hfive Hvalid Hfour Hbranches Hrooms.
  assert (Hne : roster ≠ []) by (by destruct roster).
  destruct (flow_returns rnd localeCompare prototypeCounts input roster
              Hread Hne Hbranches Hrooms)
    as (plan & news & left & Hflow & _ & _ & Hperm & Hlen).
  rewrite valid_layout_usable, small_layout_uncapped, Hfour, Hfive in Hlen
    by (try done; lia).
  simpl in Hlen.
  assert (Hleft : length left = 1).
  { apply Permutation_length in Hperm.
    rewrite length_app in Hperm. unfold students in Hperm.
    rewrite length_map in Hperm. lia. }
  destruct left as [|absent [|? ?]]; try done.
  eexists _, plan, absent. split; [exact Hflow|]. simpl. repeat split; try done.
  - rewrite <- Hperm. apply Permutation_cons_append.
  - by rewrite summaryTotal_tally, Hlen.
Qed.

End Claims.

(** C3, amended.  Of the headers "Roll No", "Student Name", "Dept", "Mobile",
    the hall ticket number resolves to "Roll No", the name to "Student Name"
    and the contact number to "Mobile"; the branch does not resolve, since
    "dept" contains none of "branch", "department", "stream", and a file with
    these headers is rejected for its missing branch column. *)
Theorem sample_headers_resolution :
  let headers := ["Roll No"; "Student Name"; "Dept"; "Mobile"] in
  findHeaderMatch headers hallTicketKeywords = Some "Roll No"
  ∧ findHeaderMatch headers nameKeywords = Some "Student Name"
  ∧ findHeaderMatch headers contactKeywords = Some "Mobile"
  ∧ findHeaderMatch headers branchKeywords = None
  ∧ ∀ rows,
      parseStudentsFromCSV (PapaComplete (mkPapaResults [] (Some headers) rows))
      = Throw (ErrorObj "Could not find a 'Branch' column. Please ensure your CSV has a column for student branch (e.g., 'Branch', 'Department').").
Proof. repeat split. Qed.

(** C3 as stated fails: "Dept" is not the column of the branch. *)
Lemma dept_header_unresolved :
  findHeaderMatch ["Roll No"; "Student Name"; "Dept"; "Mobile"] branchKeywords
  ≠ Some "Dept".
Proof. vm_compute. discriminate. Qed.

(** C8 as stated fails: a CSV file with a header row and no data row is read
    into zero students, and the batch that holds it together with a file of
    one student succeeds. *)
Lemma header_only_csv_in_batch :
  In Sample.headerOnly (Input.studentListDataUris Sample.headerOnlyFirst)
  ∧ readFile Sample.headerOnly = Ok []
  ∧ ∃ output,
      seatingArrangementFlow Sample.zeros Sample.ordinalCompare Sample.lostCounts
                             Sample.headerOnlyFirst
      = Ok output
      ∧ Output.error output = None
      ∧ (students <$> Output.seatingPlan output) = Some [Sample.asha].
Proof.
  split; [by left|]. split; [reflexivity|].
  eexists. split; [vm_compute; reflexivity|]. split; reflexivity.
Qed.

Lemma parse_error_aborts_batch_witness :
  ∃ message,
    seatingArrangementFlow Sample.zeros Sample.ordinalCompare Sample.lostCounts
                           Sample.brokenSecond
    = Ok (Output.mk None None None None (Some message)).
Proof.
  apply (parse_error_aborts_batch Sample.zeros Sample.ordinalCompare
           Sample.lostCounts Sample.brokenSecond).
  exists Sample.emptyPdf. eexists. split.
  - right. left.
  - vm_compute. reflexivity.
Defined.

Lemma allStudents_is_merged_roster_witness :
  ∃ lists,
    Forall2 (fun f l => readFile f = Ok l)
            (Input.studentListDataUris Sample.fiveInput) lists
    ∧ Output.allStudents (Sample.outputOf Sample.fiveInput) = Some (concat lists).
Proof.
  apply (allStudents_is_merged_roster Sample.zeros Sample.ordinalCompare
           Sample.lostCounts Sample.fiveInput).
  - vm_compute. reflexivity.
  - vm_compute. reflexivity.
Defined.

Lemma zero_student_files_witness :
  ((∃ message,
      seatingArrangementFlow Sample.zeros Sample.ordinalCompare Sample.lostCounts
                             Sample.brokenSecond
      = Ok (Output.failure message))
   ∨ (∃ s l, readFile Sample.emptyPdf = Ok (s :: l)))
  ∧ seatingArrangementFlow Sample.zeros Sample.ordinalCompare Sample.lostCounts
      (Input.mk [Sample.headerOnly; Sample.headerOnly]
                (Sample.layoutOf [Room.mk "101" 2 2]))
    = Ok (Output.failure emptyRosterMessage).
Proof.
  split.
  - apply (proj1 (zero_student_files Sample.zeros Sample.ordinalCompare
                    Sample.lostCounts Sample.brokenSecond) Sample.emptyPdf).
    + right. left.
    + reflexivity.
  - apply (proj2 (zero_student_files Sample.zeros Sample.ordinalCompare
                    Sample.lostCounts
                    (Input.mk [Sample.headerOnly; Sample.headerOnly]
                              (Sample.layoutOf [Room.mk "101" 2 2])))).
    repeat constructor.
Defined.

(** C2.  A turn of the loop that fills both sides of a double bench (two
    students or more in the pool, room for both under the ceiling) seats the
    front student on L and a partner on R.  The partner is of another branch
    whenever some student of the rest of the pool is; the partner shares the
    branch of the front student only when the whole rest of the pool does, and
    it is then the second student of the pool. *)
Theorem two_seat_bench_crosses_branches
    (totalCapacity : nat) (seatInfo : string * string * string) (room : Room.t)
    (fuel i benchCounter : nat) (st : Alloc.t)
    (student1 next : Student.t) (rest : list Student.t) :
  Room.studentsPerBench room = 2 →
  i < roomCapacity room →
  S (Alloc.studentIndex st) < totalCapacity →
  Alloc.studentPool st = student1 :: next :: rest →
  ∃ student2 pool',
    seatLoop totalCapacity seatInfo room (S fuel) i benchCounter st
    = seatLoop totalCapacity seatInfo room fuel (S (S i)) (S benchCounter)
        (Alloc.mk pool'
           (Alloc.seatingPlan st
              ++ [assign student1 seatInfo (pretty benchCounter +:+ "L")]
              ++ [assign student2 seatInfo (pretty benchCounter +:+ "R")])
           (S (S (Alloc.studentIndex st))))
    ∧ student2 :: pool' ≡ₚ next :: rest
    ∧ ((∃ s, s ∈ next :: rest ∧ Student.branch s ≠ Student.branch student1) →
       Student.branch student2 ≠ Student.branch student1)
    ∧ (Student.branch student2 = Student.branch student1 →
       student2 = next ∧ pool' = rest
       ∧ ∀ s, s ∈ next :: rest → Student.branch s = Student.branch student1).
Proof.
  intros Hspb Hi Hceil Hpool.
  destruct (pickPartner_spec student1 next rest)
    as (student2 & pool' & Hpick & Hperm & Hcross & Hsame).
  exists student2, pool'. split; [|done].
  simpl.
  replace (i <? roomCapacity room) with true by (symmetry; apply Nat.ltb_lt; lia).
  replace (totalCapacity <=? Alloc.studentIndex st) with false
    by (symmetry; apply Nat.leb_gt; lia).
  replace (totalCapacity <=? S (Alloc.studentIndex st)) with false
    by (symmetry; apply Nat.leb_gt; lia).
  rewrite Hspb, Hpool. simpl. rewrite Hpick. by rewrite <- (assoc app).
Qed.

Lemma two_seat_bench_crosses_branches_witness :
  ∃ student2 pool',
    seatLoop 4 ("A", "1", "101") (Room.mk "101" 2 2) 4 0 1
             (Alloc.mk [Sample.asha; Sample.bala; Sample.chitra] [] 0)
    = seatLoop 4 ("A", "1", "101") (Room.mk "101" 2 2) 3 2 2
        (Alloc.mk pool'
           ([] ++ [assign Sample.asha ("A", "1", "101") (pretty 1 +:+ "L")]
               ++ [assign student2 ("A", "1", "101") (pretty 1 +:+ "R")])
           2)
    ∧ student2 :: pool' ≡ₚ [Sample.bala; Sample.chitra]
    ∧ ((∃ s, s ∈ [Sample.bala; Sample.chitra]
             ∧ Student.branch s ≠ Student.branch Sample.asha) →
       Student.branch student2 ≠ Student.branch Sample.asha)
    ∧ (Student.branch student2 = Student.branch Sample.asha →
       student2 = Sample.bala ∧ pool' = [Sample.chitra]
       ∧ ∀ s, s ∈ [Sample.bala; Sample.chitra] →
              Student.branch s = Student.branch Sample.asha).
Proof.
  apply (two_seat_bench_crosses_branches 4 ("A", "1", "101") (Room.mk "101" 2 2)
           3 0 1 (Alloc.mk [Sample.asha; Sample.bala; Sample.chitra] [] 0)
           Sample.asha Sample.bala [Sample.chitra]).
  - reflexivity.
  - vm_compute. lia.
  - simpl. lia.
  - reflexivity.
Defined.

(** The capacity that bounds the roster is the capped one, not the
    [totalCapacity] of the code: forty-six students fit the configured benches
    of a room of forty-six single benches, and the plan seats forty-five. *)
Lemma capped_room_leaves_student_out :
  readFiles (Input.studentListDataUris Sample.fortySixInput) [] = Ok Sample.fortySix
  ∧ LayoutFormSchema (Input.layoutConfig Sample.fortySixInput) = true
  ∧ length Sample.fortySix ≤ totalCapacityOf (Input.layoutConfig Sample.fortySixInput)
  ∧ effectiveCapacity (Input.layoutConfig Sample.fortySixInput) = 45
  ∧ ∃ output plan,
      seatingArrangementFlow Sample.zeros Sample.ordinalCompare Sample.lostCounts
                             Sample.fortySixInput
      = Ok output
      ∧ Output.seatingPlan output = Some plan
      ∧ length plan = 45
      ∧ ¬ students plan ≡ₚ Sample.fortySix.
Proof.
  split; [vm_compute; reflexivity|]. split; [reflexivity|].
  split; [vm_compute; lia|]. split; [reflexivity|].
  eexists _, _. split; [vm_compute; reflexivity|]. split; [reflexivity|].
  split; [reflexivity|].
  intros H. apply Permutation_length in H. vm_compute in H. discriminate.
Qed.


(** C4 as stated fails: two rooms that share block, floor and number give the
    bench number "1" twice over. *)
Lemma twin_rooms_share_seat :
  LayoutFormSchema (Input.layoutConfig Sample.twinInput) = true
  ∧ readFiles (Input.studentListDataUris Sample.twinInput) []
    = Ok [Sample.asha; Sample.chitra]
  ∧ 2 ≤ totalCapacityOf (Input.layoutConfig Sample.twinInput)
  ∧ ∃ output a b,
      seatingArrangementFlow Sample.zeros Sample.ordinalCompare Sample.lostCounts
                             Sample.twinInput
      = Ok output
      ∧ Output.seatingPlan output = Some [a; b]
      ∧ SeatingAssignment.seat a = SeatingAssignment.seat b
      ∧ ¬ NoDup (map SeatingAssignment.seat [a; b]).
Proof.
  split; [reflexivity|]. split; [vm_compute; reflexivity|].
  split; [vm_compute; lia|].
  eexists _, _, _. split; [vm_compute; reflexivity|]. split; [reflexivity|].
  split; [reflexivity|].
  intros Hnd. apply NoDup_cons in Hnd as [Hfresh _]. apply Hfresh. left.
Qed.

(** C5 as stated fails: of two rooms that share block, floor and number, each
    with one seat, the shared name carries two entries. *)
Lemma twin_rooms_overload :
  (("A", "1", "101"), Room.mk "101" 1 1)
    ∈ layoutRooms (Input.layoutConfig Sample.twinInput)
  ∧ roomCapacity (Room.mk "101" 1 1) = 1
  ∧ ∃ output plan,
      seatingArrangementFlow Sample.zeros Sample.ordinalCompare Sample.lostCounts
                             Sample.twinInput
      = Ok output
      ∧ Output.seatingPlan output = Some plan
      ∧ seatedIn ("A", "1", "101") plan = 2.
Proof.
  split; [left|]. split; [reflexivity|].
  eexists _, _. split; [vm_compute; reflexivity|]. split; reflexivity.
Qed.

Lemma seats_are_distinct_witness :
  NoDup (map SeatingAssignment.seat Sample.fivePlan).
Proof.
  apply (seats_are_distinct Sample.zeros Sample.ordinalCompare Sample.lostCounts
           Sample.fiveInput (Sample.outputOf Sample.fiveInput)).
  - apply (bool_decide_unpack _). vm_compute. exact I.
  - vm_compute. reflexivity.
  - vm_compute. reflexivity.
Defined.

Lemma room_load_bounded_witness :
  (∀ id, seatedIn id Sample.fivePlan
         ≤ capacitySum (filter (fun e => e.1 = id)
                               (layoutRooms (Input.layoutConfig Sample.fiveInput))))
  ∧ (∀ e, e ∈ layoutRooms (Input.layoutConfig Sample.fiveInput) →
          seatedIn e.1 Sample.fivePlan ≤ roomCapacity e.2).
Proof.
  destruct (room_load_bounded Sample.zeros Sample.ordinalCompare Sample.lostCounts
              Sample.fiveInput (Sample.outputOf Sample.fiveInput) Sample.fivePlan)
    as [Hname Hroom].
  - vm_compute. reflexivity.
  - vm_compute. reflexivity.
  - split; [exact Hname|]. apply Hroom.
    apply (bool_decide_unpack _). vm_compute. exact I.
Defined.

Lemma five_students_four_seats_witness :
  ∃ output plan absent,
    seatingArrangementFlow Sample.zeros Sample.ordinalCompare Sample.lostCounts
                           Sample.fiveInput
    = Ok output
    ∧ Output.error output = None
    ∧ Output.seatingPlan output = Some plan
    ∧ length plan = 4
    ∧ absent :: students plan ≡ₚ Sample.five
    ∧ summaryTotal <$> Output.roomBranchSummary output = Some 4.
Proof.
  apply (five_students_four_seats Sample.zeros Sample.ordinalCompare
           Sample.lostCounts Sample.fiveInput Sample.five).
  - vm_compute. reflexivity.
  - reflexivity.
  - reflexivity.
  - reflexivity.
  - apply (bool_decide_unpack _). vm_compute. exact I.
  - apply (bool_decide_unpack _). vm_compute. exact I.
Defined.


(** C6 fails on the code: the scenario of five students and four seats, with
    a branch written "constructor", ends in the [TypeError] of line 199 and
    no answer; with a room numbered "constructor", in an answer whose summary
    has no entry for this room and whose counts add up to 2, for the two
    students of the other room. *)
Lemma prototype_names_break_five_students :
  (readFiles (Input.studentListDataUris Sample.constructorBranchInput) []
   = Ok Sample.constructorFive
   ∧ length Sample.constructorFive = 5
   ∧ LayoutFormSchema (Input.layoutConfig Sample.constructorBranchInput) = true
   ∧ totalCapacityOf (Input.layoutConfig Sample.constructorBranchInput) = 4
   ∧ seatingArrangementFlow Sample.zeros Sample.ordinalCompare Sample.lostCounts
                            Sample.constructorBranchInput
     = Throw pushIsNotAFunction)
  ∧ (readFiles (Input.studentListDataUris Sample.constructorRoomInput) []
     = Ok Sample.five
     ∧ LayoutFormSchema (Input.layoutConfig Sample.constructorRoomInput) = true
     ∧ totalCapacityOf (Input.layoutConfig Sample.constructorRoomInput) = 4
     ∧ ∃ output plan summary,
         seatingArrangementFlow Sample.zeros Sample.ordinalCompare Sample.lostCounts
                                Sample.constructorRoomInput
         = Ok output
         ∧ Output.seatingPlan output = Some plan
         ∧ length plan = 4
         ∧ seatedIn ("A", "1", "constructor") plan = 2
         ∧ Output.roomBranchSummary output = Some summary
         ∧ summary !! "constructor" = None
         ∧ summaryTotal summary = 2).
Proof.
  split.
  - split; [vm_compute; reflexivity|]. split; [reflexivity|].
    split; [reflexivity|]. split; [reflexivity|]. vm_compute. reflexivity.
  - split; [vm_compute; reflexivity|]. split; [reflexivity|].
    split; [reflexivity|].
    eexists _, _, _. split; [vm_compute; reflexivity|].
    split; [reflexivity|]. split; [reflexivity|].
    split; [vm_compute; reflexivity|]. split; [reflexivity|].
    split; vm_compute; reflexivity.
Qed.

(** * Further properties of the flow *)

(** ** The shuffle *)

Lemma shuffleFrom_draws {T} rnd i k (array : list T) :
  (shuffleFrom rnd i k array).2 = k + i.
Proof.
  revert k array. induction i as [|i IH]; intros k array; simpl; [lia|].
  rewrite IH. lia.
Qed.

(** X1.  [shuffleArray] rearranges: the array holds the same elements, each as
often as before, and one draw is made for every position but the first. *)
Theorem shuffleArray_rearranges {T} (rnd : nat -> nat) (k : nat) (array : list T) :
  (shuffleArray rnd k array).1 ≡ₚ array
  ∧ length (shuffleArray rnd k array).1 = length array
  ∧ (shuffleArray rnd k array).2 = k + (length array - 1).
Proof.
  split; [apply shuffleArray_Permutation|]. split.
  - by rewrite shuffleArray_Permutation.
  - apply shuffleFrom_draws.
Qed.

(** ** Header normalization *)

Lemma alnum_not_space c : isLowerAlnum c = true → isSpace c = false.
Proof.
  unfold isLowerAlnum, isSpace. generalize (code c). intros n.
  repeat match goal with
         | |- context [?a <=? ?b] => destruct (Nat.leb_spec a b)
         | |- context [?a =? ?b] => destruct (Nat.eqb_spec a b)
         end; simpl; try done; lia.
Qed.

Lemma alnum_not_upper c : isLowerAlnum c = true → isUpper c = false.
Proof.
  unfold isLowerAlnum, isUpper. generalize (code c). intros n.
  repeat match goal with
         | |- context [?a <=? ?b] => destruct (Nat.leb_spec a b)
         | |- context [?a =? ?b] => destruct (Nat.eqb_spec a b)
         end; simpl; try done; lia.
Qed.

Lemma sfilter_alnum_nospace s :
  sfilter isLowerAlnum (sfilter (fun c => negb (isSpace c)) s)
  = sfilter isLowerAlnum s.
Proof.
  induction s as [|c s IH]; simpl; [done|].
  destruct (isSpace c) eqn:Hsp; simpl.
  - destruct (isLowerAlnum c) eqn:Hal; [|done].
    apply alnum_not_space in Hal. congruence.
  - by rewrite IH.
Qed.

Lemma trimStart_alnum s : trimStart (sfilter isLowerAlnum s) = sfilter isLowerAlnum s.
Proof.
  induction s as [|c s IH]; simpl; [done|].
  destruct (isLowerAlnum c) eqn:Hal; [|done]. simpl.
  by rewrite (alnum_not_space c Hal).
Qed.

Lemma trimEnd_alnum s : trimEnd (sfilter isLowerAlnum s) = sfilter isLowerAlnum s.
Proof.
  induction s as [|c s IH]; simpl; [done|].
  destruct (isLowerAlnum c) eqn:Hal; [|done]. simpl. rewrite IH.
  destruct (sfilter isLowerAlnum s); [|done].
  by rewrite (alnum_not_space c Hal).
Qed.

Lemma toLowerCase_alnum s :
  toLowerCase (sfilter isLowerAlnum s) = sfilter isLowerAlnum s.
Proof.
  unfold toLowerCase. induction s as [|c s IH]; simpl; [done|].
  destruct (isLowerAlnum c) eqn:Hal; [|done]. simpl. rewrite IH.
  unfold lowerChar. by rewrite (alnum_not_upper c Hal).
Qed.

Lemma sfilter_idem p s : sfilter p (sfilter p s) = sfilter p s.
Proof.
  induction s as [|c s IH]; simpl; [done|].
  destruct (p c) eqn:Hp; simpl; [|done]. by rewrite Hp, IH.
Qed.

(** X2.  A normalized header is the lower-cased header without every
character that is not a lower-case letter or a digit: the removal of white
space and the trim change nothing more, and normalizing twice is normalizing
once. *)
Theorem normalizeHeader_keeps_alnum (header : string) :
  normalizeHeader header = sfilter isLowerAlnum (toLowerCase header)
  ∧ normalizeHeader (normalizeHeader header) = normalizeHeader header.
Proof.
  assert (E : ∀ s, normalizeHeader s = sfilter isLowerAlnum (toLowerCase s)).
  { intros s. unfold normalizeHeader, trim.
    by rewrite sfilter_alnum_nospace, trimStart_alnum, trimEnd_alnum. }
  split; [apply E|].
  by rewrite (E (normalizeHeader header)), E, toLowerCase_alnum, sfilter_idem.
Qed.

(** ** Header resolution *)

(** X3.  [findHeaderMatch] answers with the first header that contains the
first keyword contained in any header: the keywords before it are contained
in no header, the headers before the answer do not contain it.  It answers
[undefined] exactly when no header contains any keyword. *)
Theorem findHeaderMatch_first (headers keywords : list string) :
  let contains h k := includes (normalizeHeader h) (normalizeHeader k) in
  match findHeaderMatch headers keywords with
  | Some h =>
      ∃ kpre k kpost hpre hpost,
        keywords = kpre ++ k :: kpost
        ∧ headers = hpre ++ h :: hpost
        ∧ Forall (fun k' => Forall (fun h' => contains h' k' = false) headers) kpre
        ∧ Forall (fun h' => contains h' k = false) hpre
        ∧ contains h k = true
  | None =>
      Forall (fun k' => Forall (fun h' => contains h' k' = false) headers) keywords
  end.
Proof.
  intros contains. unfold findHeaderMatch.
  induction keywords as [|k keywords IH]; simpl; [constructor|].
  destruct (findIndex _ (map normalizeHeader headers)) as [i|] eqn:Hfind.
  - apply findIndex_Some in Hfind as (x & Hx & Hcontains & Hbefore).
    rewrite list_lookup_fmap in Hx.
    destruct (headers !! i) as [h|] eqn:Hh; [|done].
    injection Hx as <-.
    exists [], k, keywords, (take i headers), (drop (S i) headers).
    split; [done|]. split; [by rewrite take_drop_middle|].
    split; [constructor|]. split; [|done].
    change (map normalizeHeader headers) with (normalizeHeader <$> headers) in Hbefore.
    rewrite <- fmap_take in Hbefore. by apply Forall_fmap in Hbefore.
  - apply findIndex_None in Hfind.
    change (map normalizeHeader headers) with (normalizeHeader <$> headers) in Hfind.
    apply Forall_fmap in Hfind.
    destruct (findHeaderMatch_keywords _ _ keywords) as [h|].
    + destruct IH as (kpre & k' & kpost & hpre & hpost & -> & -> & Hk & Hh & Hm).
      exists (k :: kpre), k', kpost, hpre, hpost.
      repeat split; try done. by constructor.
    + by constructor.
Qed.

(** ** The readers *)

Lemma hasNameAndTicket_spec s :
  hasNameAndTicket s = true →
  Student.name s ≠ "" ∧ Student.hallTicketNumber s ≠ "".
Proof.
  unfold hasNameAndTicket. intros H. apply andb_prop in H as [H1 H2].
  split; intros E; rewrite E in *; done.
Qed.

Lemma parseStudentsFromCSV_named csv students :
  parseStudentsFromCSV csv = Ok students →
  Forall (fun s => Student.name s ≠ "" ∧ Student.hallTicketNumber s ≠ "") students.
Proof.
  unfold parseStudentsFromCSV. destruct csv as [results|e]; [|done].
  destruct (errors results); [|done].
  destruct (resolveColumns _) as [[n|] [h|] [b|] [c|]]; simpl; try done.
  intros [= <-]. apply Forall_forall. intros s Hs.
  apply list_elem_of_filter in Hs as [Hs _]. by apply hasNameAndTicket_spec.
Qed.

Lemma parseStudentsFromPDF_named pdf students :
  parseStudentsFromPDF pdf = Ok students →
  Forall (fun s => Student.name s ≠ "" ∧ Student.hallTicketNumber s ≠ "") students.
Proof.
  unfold parseStudentsFromPDF. destruct pdf as [text|e]; simpl; [|done].
  destruct (_ <? 2); [done|].
  repeat (match goal with
          | |- context [required ?o ?m] => destruct o; simpl; [|done]
          end).
  destruct (omap _ _) as [|st0 l] eqn:Hl; [done|].
  intros [= <-]. rewrite <- Hl. apply Forall_forall. intros stu Hs.
  apply list_elem_of_omap in Hs as (line & _ & Hkeep).
  unfold pdfKeep in Hkeep. destruct (pdfStudent _ _ _ _ _ _) as [st|]; [|done].
  destruct (negb (isEmpty (Student.hallTicketNumber st))
            && negb (isEmpty (Student.name st))) eqn:Hne; [|done].
  injection Hkeep as <-. apply andb_prop in Hne as [H1 H2].
  split; intros E; rewrite E in *; done.
Qed.

Lemma read_students_named_aux (f : InputFile) (students : list Student.t) :
  readFile f = Ok students →
  Forall (fun s => Student.name s ≠ "" ∧ Student.hallTicketNumber s ≠ "") students.
Proof.
  unfold readFile. intros H.
  destruct (startsWith (dataUri f) "data:application/pdf");
    [by apply (parseStudentsFromPDF_named (pdfText f))|].
  destruct (_ || _); [by apply (parseStudentsFromCSV_named (csvParse f))|].
  destruct (parseStudentsFromPDF (pdfText f)) as [l|] eqn:Hpdf.
  - injection H as <-. by apply (parseStudentsFromPDF_named (pdfText f)).
  - destruct (parseStudentsFromCSV (csvParse f)) as [l|] eqn:Hcsv; [|done].
    injection H as <-. by apply (parseStudentsFromCSV_named (csvParse f)).
Qed.

(** X4.  Whatever the type of a file and the reader that reads it, every
student it is read into has a name and a hall ticket number that are not
empty: the rows without one of them are dropped. *)
Theorem read_students_are_named (f : InputFile) (students : list Student.t) :
  readFile f = Ok students →
  Forall (fun s => Student.name s ≠ "" ∧ Student.hallTicketNumber s ≠ "") students.
Proof. apply read_students_named_aux. Qed.

Lemma readFiles_named files acc roster :
  readFiles files acc = Ok roster →
  Forall (fun s => Student.name s ≠ "" ∧ Student.hallTicketNumber s ≠ "") acc →
  Forall (fun s => Student.name s ≠ "" ∧ Student.hallTicketNumber s ≠ "") roster.
Proof.
  revert acc. induction files as [|f files IH]; intros acc; simpl.
  - by intros [= <-].
  - destruct (readFile f) as [l|] eqn:Hf; simpl; [|done].
    intros Hread Hacc. apply (IH _ Hread). apply Forall_app. split; [done|].
    by apply (read_students_named_aux f).
Qed.

(** ** The flow *)

Section FlowProperties.
Variable rnd : nat -> nat.
Variable localeCompare : string -> string -> Z.
Variable prototypeCounts :
  RoomBranchSummary -> list SeatingAssignment.t -> Result RoomBranchSummary.

Local Abbreviation flow := (seatingArrangementFlow rnd localeCompare prototypeCounts).

(** X6.  The error of a batch is the error of its first file that cannot be
read: the files before it are read and dropped, the files after it and the
layout have no part in the answer. *)
Theorem first_unreadable_file_decides (pre post : list InputFile) (f : InputFile)
    (e : Thrown) (layout : LayoutConfig.t) :
  Forall (fun g => ∃ l, readFile g = Ok l) pre →
  readFile f = Throw e →
  flow (Input.mk (pre ++ f :: post) layout)
  = Ok (Output.failure (match e with
                        | ErrorObj message => message
                        | NonError => "Failed to parse one or more student files."
                        end)).
Proof.
  intros Hpre Hf.
  rewrite (flow_thrown rnd localeCompare prototypeCounts _ e); [by destruct e|].
  by apply readFiles_Throw.
Qed.

(** X7.  For a layout that passes the input validation and whose room
numbers name no member of [Object.prototype]: the flow returns an answer
without error exactly when every file is read, the files hold at least one
student between them, and no branch of a student names a member of
[Object.prototype]; it throws, and returns nothing, exactly when every file is
read and some branch does.  An answer without error has its four fields, and
the exam configuration is the one of the layout with [useSamePlan] set. *)
Theorem flow_outcomes (input : Input.t) :
  LayoutFormSchema (Input.layoutConfig input) = true →
  plainRooms (Input.layoutConfig input) →
  ((∃ output, flow input = Ok output ∧ Output.error output = None)
   ↔ ∃ s roster, readFiles (Input.studentListDataUris input) [] = Ok (s :: roster)
                 ∧ plainBranches (s :: roster))
  ∧ ((∃ e, flow input = Throw e)
     ↔ ∃ roster, readFiles (Input.studentListDataUris input) [] = Ok roster
                 ∧ Exists (fun s => inherited (Student.branch s) = true) roster)
  ∧ (∀ output, flow input = Ok output → Output.error output = None →
       is_Some (Output.seatingPlan output)
       ∧ is_Some (Output.roomBranchSummary output)
       ∧ is_Some (Output.allStudents output)
       ∧ Output.examConfig output
         = Some (ExamConfig.mk (LayoutConfig.startDate (Input.layoutConfig input))
                   (LayoutConfig.endDate (Input.layoutConfig input))
                   (LayoutConfig.examTimings (Input.layoutConfig input)) true)).
Proof.
  intros _ Hrooms.
  assert (Hthird : ∀ output, flow input = Ok output → Output.error output = None →
            ∃ roster plan summary,
              readFiles (Input.studentListDataUris input) [] = Ok roster
              ∧ roster ≠ [] ∧ plainBranches roster
              ∧ output = Output.mk (Some plan)
                  (Some (ExamConfig.mk
                           (LayoutConfig.startDate (Input.layoutConfig input))
                           (LayoutConfig.endDate (Input.layoutConfig input))
                           (LayoutConfig.examTimings (Input.layoutConfig input)) true))
                  (Some summary) (Some roster) None).
  { intros output Hflow Herr.
    destruct (flow_cases rnd localeCompare prototypeCounts input)
      as [(roster & Hread & Hne & Harr) | (message & Hfail)].
    - rewrite Harr in Hflow.
      destruct (arrange_spec rnd localeCompare prototypeCounts _ _ _ Hflow)
        as (Hplain & plan & summary & news & left & -> & _).
      by exists roster, plan, summary.
    - rewrite Hfail in Hflow. injection Hflow as <-. done. }
  split; [|split].
  - split.
    + intros (output & Hflow & Herr).
      destruct (Hthird output Hflow Herr)
        as (roster & plan & summary & Hread & Hne & Hplain & _).
      destruct roster as [|s roster]; [done|]. by exists s, roster.
    + intros (s & roster & Hread & Hplain).
      destruct (flow_returns rnd localeCompare prototypeCounts input (s :: roster))
        as (plan & news & left & Hflow & _); try done.
      eexists. split; [exact Hflow|]. done.
  - split.
    + intros (e & Hthrow).
      destruct (flow_cases rnd localeCompare prototypeCounts input)
        as [(roster & Hread & Hne & Harr) | (message & Hfail)];
        [|by rewrite Hfail in Hthrow].
      exists roster. split; [done|].
      destruct (decide (plainBranches roster)) as [Hplain|Hbad].
      * destruct (flow_returns rnd localeCompare prototypeCounts input roster)
          as (plan & news & left & Hflow & _); try done.
        by rewrite Hflow in Hthrow.
      * unfold plainBranches in Hbad. apply not_Forall_Exists in Hbad; [|apply _].
        eapply Exists_impl; [exact Hbad|]. simpl. intros s Hs.
        by destruct (inherited (Student.branch s)).
    + intros (roster & Hread & Hbad). exists pushIsNotAFunction.
      assert (Hne : roster ≠ []) by (intros ->; by apply Exists_nil in Hbad).
      rewrite (flow_arrange rnd localeCompare prototypeCounts input roster Hread Hne).
      by apply arrange_Throw.
  - intros output Hflow Herr.
    destruct (Hthird output Hflow Herr)
      as (roster & plan & summary & _ & _ & _ & ->).
    simpl. repeat split; by eexists.
Qed.

(** X8.  However many students and seats there are, the plan seats students of
the roster only and none more often than the roster has it; for a layout that
passes the input validation it seats the smaller of the number of students and
the number of seats after the cap of 45 benches a room. *)
Theorem seated_count (input : Input.t) (roster : list Student.t)
    (output : Output.t) (plan : list SeatingAssignment.t) :
  readFiles (Input.studentListDataUris input) [] = Ok roster →
  flow input = Ok output →
  Output.seatingPlan output = Some plan →
  students plan ⊆+ roster
  ∧ (LayoutFormSchema (Input.layoutConfig input) = true →
     length plan
     = Nat.min (length roster) (effectiveCapacity (Input.layoutConfig input))).
Proof.
  intros Hread Hflow Hplan.
  destruct (flow_plan rnd localeCompare prototypeCounts input output plan Hflow Hplan)
    as (roster' & summary & news & rest & Hread' & _ & _ & _ & _ & _ & _ & Hperm & Hlen).
  assert (roster' = roster) as -> by congruence. split.
  - rewrite <- Hperm. by apply submseteq_inserts_r.
  - intros Hvalid. by rewrite Hlen, valid_layout_usable.
Qed.

(** X9.  Every entry of the returned plan has a name and a hall ticket number
that are not empty. *)
Theorem seated_students_are_named (input : Input.t) (output : Output.t)
    (plan : list SeatingAssignment.t) :
  flow input = Ok output →
  Output.seatingPlan output = Some plan →
  Forall (fun a => SeatingAssignment.name a ≠ ""
                   ∧ SeatingAssignment.hallTicketNumber a ≠ "") plan.
Proof.
  intros Hflow Hplan.
  destruct (flow_plan rnd localeCompare prototypeCounts input output plan Hflow Hplan)
    as (roster & summary & news & rest & Hread & _ & _ & _ & _ & _ & _ & Hperm & _).
  assert (Hroster : Forall (fun s => Student.name s ≠ ""
                                     ∧ Student.hallTicketNumber s ≠ "") roster).
  { by apply (readFiles_named _ [] roster Hread). }
  rewrite <- Hperm in Hroster. apply Forall_app in Hroster as [Hseated _].
  apply Forall_forall. intros a Ha. rewrite Forall_forall in Hseated.
  apply (Hseated (SeatingAssignment.student a)).
  unfold students. by apply list_elem_of_fmap_2.
Qed.
End FlowProperties.

(** ** The summary *)

Lemma countAssignment_cell (summary : RoomBranchSummary) a c b :
  countAssignment summary a !! c ≫= (.!! b)
  = if decide (SeatingAssignment.classroom a = c ∧ SeatingAssignment.branch a = b)
    then Some (S (default 0 (summary !! c ≫= (.!! b))))
    else summary !! c ≫= (.!! b).
Proof.
  unfold countAssignment.
  destruct (decide (SeatingAssignment.classroom a = c)) as [<-|Hc].
  - rewrite lookup_insert_eq. simpl.
    destruct (decide (SeatingAssignment.branch a = b)) as [<-|Hb].
    + rewrite lookup_insert_eq, decide_True by done.
      by destruct (summary !! SeatingAssignment.classroom a).
    + rewrite lookup_insert_ne by done.
      rewrite decide_False by (by intros [_ ?]).
      by destruct (summary !! SeatingAssignment.classroom a).
  - rewrite lookup_insert_ne by done.
    by rewrite decide_False by (by intros [? _]).
Qed.

Lemma tally_cell plan c b :
  tally plan !! c ≫= (.!! b)
  = let n := length (filter (fun a => SeatingAssignment.classroom a = c
                                      ∧ SeatingAssignment.branch a = b) plan) in
    if decide (n = 0) then None else Some n.
Proof.
  unfold tally. induction plan as [|a plan IH] using rev_ind; [done|].
  rewrite fold_left_app. simpl. rewrite countAssignment_cell, IH.
  rewrite filter_app, length_app, filter_cons, filter_nil. cbv zeta.
  set (n0 := length (filter _ plan)).
  destruct (decide (_ ∧ _)); simpl.
  - destruct (decide (n0 = 0)), (decide (n0 + 1 = 0)); simpl; try lia; f_equal; lia.
  - by rewrite Nat.add_0_r.
Qed.

(** The counts of the rooms whose number names a method of
    [Object.prototype] do not reach the summary. *)
Lemma summarizeFrom_counted prototypeCounts plan summary :
  (∀ c, is_Some (summary !! c) → inherited c = false) →
  Forall (fun a => inherited (SeatingAssignment.branch a) = false
                   ∧ SeatingAssignment.classroom a ≠ "__proto__"
                   ∧ SeatingAssignment.branch a ∉ functionNames) plan →
  summarizeFrom prototypeCounts plan summary
  = Ok (fold_left countAssignment
          (filter (fun a => inherited (SeatingAssignment.classroom a) = false) plan)
          summary).
Proof.
  revert summary. induction plan as [|a plan IH]; intros summary Hown Hplan; [done|].
  apply Forall_cons in Hplan as [(Hb & Hp & Hf) Hplan]. simpl.
  destruct (inherited (SeatingAssignment.classroom a)) eqn:Hc.
  - rewrite filter_cons_False by (by rewrite Hc).
    assert (Hnone : summary !! SeatingAssignment.classroom a = None).
    { destruct (summary !! SeatingAssignment.classroom a) eqn:E; [|done].
      rewrite Hown in Hc; [done | by rewrite E]. }
    unfold countTurn. rewrite Hnone, Hc, Hb.
    rewrite (bool_decide_eq_false_2 _ Hf).
    destruct (String.eqb_spec (SeatingAssignment.classroom a) "__proto__"); [done|].
    simpl. by apply IH.
  - rewrite filter_cons_True by done. rewrite countTurn_plain by done. simpl.
    apply IH; [|done]. intros c. unfold countAssignment.
    destruct (decide (c = SeatingAssignment.classroom a)) as [->|Hne]; [done|].
    rewrite lookup_insert_ne by done. apply Hown.
Qed.

Section SummaryProperties.
Variable rnd : nat -> nat.
Variable localeCompare : string -> string -> Z.
Variable prototypeCounts :
  RoomBranchSummary -> list SeatingAssignment.t -> Result RoomBranchSummary.

Local Abbreviation flow := (seatingArrangementFlow rnd localeCompare prototypeCounts).

(** X10.  The summary of a returned answer, when no room is numbered
"__proto__" and no branch is one of "length", "name", "prototype", "caller"
and "arguments".  For a room number that names no member of
[Object.prototype] it counts the plan: under the number and a branch it holds
the number of entries of the plan with that classroom and that branch, and no
entry where that number is zero; these rooms are told apart by their number
alone, whatever their block and floor.  For a room number that names a method
of [Object.prototype] it has no entry, whatever the plan seats there.  All the
counts together are the number of entries of the plan in the rooms of the
first kind. *)
Theorem summary_counts_plan (input : Input.t) (output : Output.t)
    (plan : list SeatingAssignment.t) :
  flow input = Ok output →
  Output.seatingPlan output = Some plan →
  Forall (fun a => SeatingAssignment.classroom a ≠ "__proto__"
                   ∧ SeatingAssignment.branch a ∉ functionNames) plan →
  ∃ summary,
    Output.roomBranchSummary output = Some summary
    ∧ (∀ classroom branch,
         summary !! classroom ≫= (.!! branch)
         = if inherited classroom then None
           else
             let n := length (filter (fun a => SeatingAssignment.classroom a = classroom
                                               ∧ SeatingAssignment.branch a = branch)
                                     plan) in
             if decide (n = 0) then None else Some n)
    ∧ summaryTotal summary
      = length (filter (fun a => inherited (SeatingAssignment.classroom a) = false)
                       plan).
Proof.
  intros Hflow Hplan Hnames.
  destruct (flow_plan rnd localeCompare prototypeCounts input output plan Hflow Hplan)
    as (roster & summary & news & rest & _ & _ & Hplain & -> & Hsum & _ & _ & Hperm & _).
  pose proof (plan_branches roster plan rest Hplain Hperm) as Hbranches.
  unfold summarize in Hsum.
  rewrite (summarizeFrom_counted prototypeCounts plan ∅) in Hsum.
  2:{ intros c [? Hc]. by rewrite lookup_empty in Hc. }
  2:{ apply Forall_forall. intros a Ha.
      rewrite Forall_forall in Hnames, Hbranches.
      destruct (Hnames a Ha). split; [by apply Hbranches | done]. }
  injection Hsum as <-. fold (tally (filter (fun a =>
    inherited (SeatingAssignment.classroom a) = false) plan)).
  eexists. split; [done|]. split.
  - intros c b. rewrite tally_cell. cbv zeta. rewrite list_filter_filter.
    destruct (inherited c) eqn:Hc.
    + rewrite filter_none; [done|]. intros a _ [[Ha _] Hplaina]. congruence.
    + erewrite list_filter_iff; [done|]. intros a. simpl. split; [tauto|].
      intros [Ha ?]. split; [done|]. by rewrite Ha.
  - apply summaryTotal_tally.
Qed.
End SummaryProperties.

(** ** The allocation is decided by the capped benches *)

Lemma alloc_eta st :
  Alloc.mk (Alloc.studentPool st) (Alloc.seatingPlan st ++ [])
           (Alloc.studentIndex st + 0) = st.
Proof. destruct st. simpl. by rewrite app_nil_r, Nat.add_0_r. Qed.

Section SeatsFacts.
Variable totalCapacity : nat.
Variable seatInfo : string * string * string.
Variable room : Room.t.

Local Abbreviation loop := (seatLoop totalCapacity seatInfo room).

Lemma seatLoop_singles fuel n i bc st :
  Room.studentsPerBench room = 1 →
  i + n = roomCapacity room → n ≤ fuel →
  Alloc.studentIndex st + n ≤ totalCapacity →
  loop fuel i bc st
  = Alloc.mk (seatSingles seatInfo bc n (Alloc.studentPool st)).2
             (Alloc.seatingPlan st ++ (seatSingles seatInfo bc n (Alloc.studentPool st)).1)
             (Alloc.studentIndex st
              + length (seatSingles seatInfo bc n (Alloc.studentPool st)).1).
Proof.
  intros Hspb. revert n i bc st.
  induction fuel as [|fuel IH]; intros n i bc st Hi Hfuel Hceil.
  { assert (n = 0) as -> by lia. simpl. by rewrite alloc_eta. }
  simpl. destruct n as [|n].
  { replace (i <? roomCapacity room) with false
      by (symmetry; apply Nat.ltb_ge; lia).
    simpl. by rewrite alloc_eta. }
  replace (i <? roomCapacity room) with true
    by (symmetry; apply Nat.ltb_lt; lia).
  replace (totalCapacity <=? Alloc.studentIndex st) with false
    by (symmetry; apply Nat.leb_gt; lia).
  simpl. rewrite Hspb. simpl.
  destruct (Alloc.studentPool st) as [|s pool'] eqn:Hpool; simpl.
  { rewrite <- Hpool. by rewrite alloc_eta. }
  rewrite (IH n (S i) (S bc)) by (simpl; lia). simpl.
  destruct (seatSingles seatInfo (S bc) n pool') as [new rest]. simpl.
  f_equal; [by rewrite <- (assoc app) | lia].
Qed.

Lemma seatLoop_doubles fuel n cap i bc st :
  Room.studentsPerBench room = 2 →
  cap = 2 * n → i + cap = roomCapacity room → n ≤ fuel →
  Alloc.studentIndex st + cap ≤ totalCapacity →
  loop fuel i bc st
  = Alloc.mk (seatDoubles seatInfo bc n (Alloc.studentPool st)).2
             (Alloc.seatingPlan st ++ (seatDoubles seatInfo bc n (Alloc.studentPool st)).1)
             (Alloc.studentIndex st
              + length (seatDoubles seatInfo bc n (Alloc.studentPool st)).1).
Proof.
  intros Hspb. revert n cap i bc st.
  induction fuel as [|fuel IH]; intros n cap i bc st Hcap Hi Hfuel Hceil.
  { assert (n = 0) as -> by lia. simpl. by rewrite alloc_eta. }
  simpl. destruct n as [|n].
  { replace (i <? roomCapacity room) with false
      by (symmetry; apply Nat.ltb_ge; lia).
    simpl. by rewrite alloc_eta. }
  destruct cap as [|[|cap]]; try lia.
  replace (i <? roomCapacity room) with true
    by (symmetry; apply Nat.ltb_lt; lia).
  replace (totalCapacity <=? Alloc.studentIndex st) with false
    by (symmetry; apply Nat.leb_gt; lia).
  replace (totalCapacity <=? S (Alloc.studentIndex st)) with false
    by (symmetry; apply Nat.leb_gt; lia).
  simpl. rewrite Hspb. simpl.
  destruct (Alloc.studentPool st) as [|s1 [|next pool0]] eqn:Hpool; simpl.
  - rewrite <- Hpool. by rewrite alloc_eta.
  - rewrite seatLoop_empty by done. f_equal. lia.
  - destruct (pickPartner_spec s1 next pool0) as (s2 & pool' & -> & _).
    rewrite (IH n cap (S (S i)) (S bc)) by (simpl; lia). simpl.
    destruct (seatDoubles seatInfo (S bc) n pool') as [new rest]. simpl.
    f_equal; [by rewrite <- !(assoc app) | lia].
Qed.

(** A room gives what its capped benches allow, whatever the ceiling. *)
Lemma allocRoom_seats st :
  Alloc.studentIndex st + roomCapacity room ≤ totalCapacity →
  allocRoom totalCapacity seatInfo room st
  = Alloc.mk (roomSeats seatInfo room (Alloc.studentPool st)).2
             (Alloc.seatingPlan st ++ (roomSeats seatInfo room (Alloc.studentPool st)).1)
             (Alloc.studentIndex st
              + length (roomSeats seatInfo room (Alloc.studentPool st)).1).
Proof.
  intros Hceil. unfold allocRoom, roomSeats.
  destruct (decide (Room.studentsPerBench room = 1)) as [H1|H1].
  { rewrite H1. simpl. apply seatLoop_singles; try done.
    - unfold roomCapacity. rewrite H1. lia.
    - unfold roomCapacity. rewrite H1. lia.
    - unfold roomCapacity in Hceil. rewrite H1 in Hceil. lia. }
  destruct (decide (Room.studentsPerBench room = 2)) as [H2|H2].
  { rewrite H2. simpl.
    assert (E : roomCapacity room = 2 * Nat.min (Room.benches room) 45).
    { unfold roomCapacity. rewrite H2. lia. }
    apply (seatLoop_doubles _ _ (roomCapacity room)); try done; lia. }
  rewrite seatLoop_other by done.
  apply Nat.eqb_neq in H1, H2. rewrite H1, H2. simpl. by rewrite alloc_eta.
Qed.
End SeatsFacts.

Lemma seatSingles_length seatInfo bc n pool :
  length (seatSingles seatInfo bc n pool).1 ≤ n.
Proof.
  revert bc pool. induction n as [|n IH]; intros bc pool; simpl; [lia|].
  destruct pool as [|s pool]; simpl; [lia|].
  specialize (IH (S bc) pool).
  destruct (seatSingles seatInfo (S bc) n pool). simpl in *. lia.
Qed.

Lemma seatDoubles_length seatInfo bc n pool :
  length (seatDoubles seatInfo bc n pool).1 ≤ 2 * n.
Proof.
  revert bc pool. induction n as [|n IH]; intros bc pool; simpl; [lia|].
  destruct pool as [|s1 [|next pool]]; simpl; try lia.
  destruct (pickPartner s1 (s1 :: next :: pool)) as [[s2|] pool'];
    specialize (IH (S bc) pool');
    destruct (seatDoubles seatInfo (S bc) n pool'); simpl in *; lia.
Qed.

Lemma roomSeats_length seatInfo room pool :
  length (roomSeats seatInfo room pool).1 ≤ roomCapacity room.
Proof.
  unfold roomSeats, roomCapacity.
  destruct (Nat.eqb_spec (Room.studentsPerBench room) 1) as [->|_].
  { pose proof (seatSingles_length seatInfo 1
                  (Nat.min (Room.benches room) 45) pool). lia. }
  destruct (Nat.eqb_spec (Room.studentsPerBench room) 2) as [->|_].
  { pose proof (seatDoubles_length seatInfo 1
                  (Nat.min (Room.benches room) 45) pool). lia. }
  simpl. lia.
Qed.

Lemma roomSeats_no_seat seatInfo room pool :
  roomCapacity room = 0 → roomSeats seatInfo room pool = ([], pool).
Proof.
  unfold roomSeats, roomCapacity. intros Hzero.
  destruct (Nat.eqb_spec (Room.studentsPerBench room) 1) as [H1|_].
  { rewrite H1 in Hzero.
    assert (Nat.min (Room.benches room) 45 = 0) as -> by lia. done. }
  destruct (Nat.eqb_spec (Room.studentsPerBench room) 2) as [H2|_]; [|done].
  rewrite H2 in Hzero.
  assert (Nat.min (Room.benches room) 45 = 0) as -> by lia. done.
Qed.

Lemma layout_seats totalCapacity rooms st :
  Alloc.studentIndex st + capacitySum rooms ≤ totalCapacity →
  fold_left (roomStep totalCapacity) rooms st
  = Alloc.mk (layoutSeats rooms (Alloc.studentPool st)).2
             (Alloc.seatingPlan st ++ (layoutSeats rooms (Alloc.studentPool st)).1)
             (Alloc.studentIndex st
              + length (layoutSeats rooms (Alloc.studentPool st)).1).
Proof.
  revert st. induction rooms as [|e rooms IH]; intros st Hceil.
  { simpl. by rewrite alloc_eta. }
  unfold capacitySum in Hceil. simpl in Hceil. fold (capacitySum rooms) in Hceil.
  pose proof (roomSeats_length e.1 e.2 (Alloc.studentPool st)) as Hlen.
  cbn [fold_left layoutSeats].
  assert (E : roomStep totalCapacity st e
              = Alloc.mk (roomSeats e.1 e.2 (Alloc.studentPool st)).2
                  (Alloc.seatingPlan st ++ (roomSeats e.1 e.2 (Alloc.studentPool st)).1)
                  (Alloc.studentIndex st
                   + length (roomSeats e.1 e.2 (Alloc.studentPool st)).1)).
  { unfold roomStep.
    destruct (totalCapacity <=? Alloc.studentIndex st) eqn:Hfull.
    - apply Nat.leb_le in Hfull.
      rewrite roomSeats_no_seat by lia. simpl. by rewrite alloc_eta.
    - apply Nat.leb_gt in Hfull. apply allocRoom_seats. lia. }
  rewrite E, IH by (simpl; lia). simpl.
  destruct (roomSeats e.1 e.2 (Alloc.studentPool st)) as [new rest]. simpl.
  destruct (layoutSeats rooms rest) as [news final]. simpl.
  f_equal; [by rewrite <- (assoc app) | rewrite length_app; lia].
Qed.

(** X11.  The allocation is decided by the capped benches of the rooms: for
every layout and pool, the traversal with its ceiling on the number of seated
students gives what the rooms give when each is filled, in order, up to
min(benches, 45) benches from what the rooms before it left.  The tests of the
ceiling never end a room before its benches are used, and never take a student
out of the pool without a seat. *)
Theorem allocation_follows_capped_benches (layout : LayoutConfig.t)
    (pool : list Student.t) :
  blocksLoop (totalCapacityOf layout) (LayoutConfig.blocks layout)
             (Alloc.mk pool [] 0)
  = Alloc.mk (layoutSeats (layoutRooms layout) pool).2
             (layoutSeats (layoutRooms layout) pool).1
             (length (layoutSeats (layoutRooms layout) pool).1).
Proof.
  rewrite blocksLoop_fold, layout_seats; [done|]. simpl.
  rewrite totalCapacityOf_sum. apply capacitySum_le_configured.
Qed.

(** ** What a room adds to the plan *)

Lemma doubleLabel_next bc j : doubleLabel bc (2 + j) = doubleLabel (S bc) j.
Proof.
  unfold doubleLabel.
  replace ((2 + j) / 2) with (S (j / 2)).
  - replace (bc + S (j / 2)) with (S bc + j / 2) by lia. done.
  - replace (2 + j) with (1 * 2 + j) by lia.
    rewrite Nat.div_add_l by done. lia.
Qed.

#[local] Arguments doubleLabel : simpl never.

Lemma seatSingles_labels seatInfo bc n pool :
  map SeatingAssignment.benchNumber (seatSingles seatInfo bc n pool).1
  = map pretty (seq bc (length (seatSingles seatInfo bc n pool).1)).
Proof.
  revert bc pool. induction n as [|n IH]; intros bc pool; simpl; [done|].
  destruct pool as [|s pool]; simpl; [done|].
  specialize (IH (S bc) pool).
  destruct (seatSingles seatInfo (S bc) n pool) as [new rest]. simpl in *.
  by rewrite IH.
Qed.

Lemma seatDoubles_labels seatInfo bc n pool :
  map SeatingAssignment.benchNumber (seatDoubles seatInfo bc n pool).1
  = map (doubleLabel bc) (seq 0 (length (seatDoubles seatInfo bc n pool).1)).
Proof.
  revert bc pool. induction n as [|n IH]; intros bc pool; simpl; [done|].
  destruct pool as [|s1 [|next pool]]; simpl; [done| |].
  { unfold doubleLabel. simpl. by rewrite Nat.add_0_r. }
  destruct (pickPartner_spec s1 next pool) as (s2 & pool' & -> & _).
  specialize (IH (S bc) pool').
  destruct (seatDoubles seatInfo (S bc) n pool') as [new rest]. simpl in *.
  rewrite IH.
  assert (Hshift : map (doubleLabel bc) (seq 2 (length new))
                   = map (doubleLabel (S bc)) (seq 0 (length new))).
  { change 2 with (2 + 0) at 1. rewrite <- fmap_add_seq.
    change (map (doubleLabel bc) (Nat.add 2 <$> seq 0 (length new)))
      with (doubleLabel bc <$> (Nat.add 2 <$> seq 0 (length new))).
    rewrite <- list_fmap_compose.
    apply list_fmap_ext. intros _ j _. apply (doubleLabel_next bc j). }
  rewrite Hshift. unfold doubleLabel at 2 3. simpl. by rewrite !Nat.add_0_r.
Qed.

Lemma roomSeats_labels seatInfo room pool :
  map SeatingAssignment.benchNumber (roomSeats seatInfo room pool).1
  = benchLabels (Room.studentsPerBench room)
                (length (roomSeats seatInfo room pool).1).
Proof.
  unfold roomSeats, benchLabels.
  destruct (Room.studentsPerBench room =? 1); [apply seatSingles_labels|].
  destruct (Room.studentsPerBench room =? 2); [apply seatDoubles_labels|done].
Qed.

Lemma seatSingles_room seatInfo bc n pool :
  Forall (fun a => SeatingAssignment.room a = seatInfo)
         (seatSingles seatInfo bc n pool).1.
Proof.
  revert bc pool. induction n as [|n IH]; intros bc pool; simpl; [constructor|].
  destruct pool as [|s pool]; simpl; [constructor|].
  specialize (IH (S bc) pool).
  destruct (seatSingles seatInfo (S bc) n pool) as [new rest]. simpl in *.
  constructor; [apply room_assign | done].
Qed.

Lemma seatDoubles_room seatInfo bc n pool :
  Forall (fun a => SeatingAssignment.room a = seatInfo)
         (seatDoubles seatInfo bc n pool).1.
Proof.
  revert bc pool. induction n as [|n IH]; intros bc pool; simpl; [constructor|].
  destruct pool as [|s1 [|next pool]]; simpl; [constructor| |].
  { constructor; [apply room_assign | constructor]. }
  destruct (pickPartner s1 (s1 :: next :: pool)) as [[s2|] pool'];
    specialize (IH (S bc) pool');
    destruct (seatDoubles seatInfo (S bc) n pool') as [new rest]; simpl in *;
    repeat (constructor; [apply room_assign|]); done.
Qed.

Lemma roomSeats_room seatInfo room pool :
  Forall (fun a => SeatingAssignment.room a = seatInfo)
         (roomSeats seatInfo room pool).1.
Proof.
  unfold roomSeats.
  destruct (Room.studentsPerBench room =? 1); [apply seatSingles_room|].
  destruct (Room.studentsPerBench room =? 2); [apply seatDoubles_room|constructor].
Qed.

Lemma layoutSeats_rooms rooms pool a :
  a ∈ (layoutSeats rooms pool).1 → SeatingAssignment.room a ∈ rooms.*1.
Proof.
  revert pool. induction rooms as [|e rooms IH]; intros pool; simpl.
  { intros H. by apply elem_of_nil in H. }
  pose proof (roomSeats_room e.1 e.2 pool) as Hroom.
  destruct (roomSeats e.1 e.2 pool) as [new rest].
  specialize (IH rest). destruct (layoutSeats rooms rest) as [news final].
  simpl in *. rewrite elem_of_app. intros [Ha|Ha].
  - rewrite Forall_forall in Hroom. rewrite (Hroom a Ha). left.
  - right. by apply IH.
Qed.

Lemma filter_all {A} (P : A → Prop) `{∀ x, Decision (P x)} (l : list A) :
  (∀ x, x ∈ l → P x) → filter P l = l.
Proof.
  induction l as [|x l IH]; intros Hl; [done|].
  rewrite filter_cons_True by (apply Hl; left).
  f_equal. apply IH. intros y Hy. apply Hl. by right.
Qed.

(** With distinct room keys, the entries of the plan that carry the key of a
room are what this room added. *)
Lemma layoutSeats_chunk rooms pool e :
  NoDup rooms.*1 → e ∈ rooms →
  ∃ pool_e,
    filter (fun a => SeatingAssignment.room a = e.1) (layoutSeats rooms pool).1
    = (roomSeats e.1 e.2 pool_e).1.
Proof.
  revert pool. induction rooms as [|e0 rooms IH]; intros pool Hnd He.
  { by apply elem_of_nil in He. }
  simpl in Hnd. apply NoDup_cons in Hnd as [Hfresh Hnd]. simpl.
  pose proof (roomSeats_room e0.1 e0.2 pool) as Hroom.
  pose proof (layoutSeats_rooms rooms (roomSeats e0.1 e0.2 pool).2) as Hlater.
  apply elem_of_cons in He as [->|He].
  - exists pool.
    destruct (roomSeats e0.1 e0.2 pool) as [new rest]. simpl in *.
    destruct (layoutSeats rooms rest) as [news final]. simpl in *.
    rewrite filter_app, filter_all, filter_none, app_nil_r; [done| |].
    + intros a Ha Heq. apply Hfresh. rewrite <- Heq. by apply Hlater.
    + by apply Forall_forall.
  - destruct (IH (roomSeats e0.1 e0.2 pool).2 Hnd He) as [pool_e Hchunk].
    exists pool_e.
    destruct (roomSeats e0.1 e0.2 pool) as [new rest]. simpl in *.
    destruct (layoutSeats rooms rest) as [news final]. simpl in *.
    rewrite filter_app, filter_none; [done|].
    intros a Ha Heq. rewrite Forall_forall in Hroom.
    rewrite (Hroom a Ha) in Heq. apply Hfresh. rewrite Heq.
    by apply list_elem_of_fmap_2.
Qed.

Section SeatsFlow.
Variable rnd : nat -> nat.
Variable localeCompare : string -> string -> Z.
Variable prototypeCounts :
  RoomBranchSummary -> list SeatingAssignment.t -> Result RoomBranchSummary.

Local Abbreviation flow := (seatingArrangementFlow rnd localeCompare prototypeCounts).

(** The plan of a successful answer is the sorted plan of the rooms, served
from some order of the roster. *)
Lemma flow_seats input output plan :
  flow input = Ok output →
  Output.seatingPlan output = Some plan →
  ∃ roster pool,
    readFiles (Input.studentListDataUris input) [] = Ok roster
    ∧ pool ≡ₚ roster
    ∧ plan = sortPlan localeCompare
               (layoutSeats (layoutRooms (Input.layoutConfig input)) pool).1.
Proof.
  intros Hflow Hplan.
  destruct (flow_cases rnd localeCompare prototypeCounts input)
    as [(roster & Hread & Hne & Harr) | (message & Hfail)].
  2:{ rewrite Hfail in Hflow. injection Hflow as <-. done. }
  rewrite Harr in Hflow. unfold arrange in Hflow.
  assert (Hh : ({[ allStudentsLoc := roster ]} : Heap) !! allStudentsLoc = Some roster)
    by apply lookup_singleton_eq.
  destruct (buildPool rnd _) as [[h' pool]|e] eqn:Hbuild; [|done].
  destruct (buildPool_spec rnd roster _ h' pool Hh Hbuild) as [_ Hpool].
  simpl in Hflow. rewrite blocksLoop_fold, layout_seats in Hflow.
  - simpl in Hflow. destruct (summarize _ _); [|done]. simpl in Hflow.
    injection Hflow as <-. simpl in Hplan. injection Hplan as <-.
    by exists roster, pool.
  - simpl. rewrite totalCapacityOf_sum. apply capacitySum_le_configured.
Qed.

(** X12.  In a layout whose rooms have distinct keys, the benches a room has
in the plan are the first ones: 1, 2, ..., k in a room of single benches and
1L, 1R, 2L, 2R, ... in a room of double benches, with no seat skipped; an R
seat is filled only after its L seat. *)
Theorem occupied_benches_are_the_first (input : Input.t) (output : Output.t)
    (plan : list SeatingAssignment.t) :
  NoDup (roomKeys (Input.layoutConfig input)) →
  flow input = Ok output →
  Output.seatingPlan output = Some plan →
  ∀ e, e ∈ layoutRooms (Input.layoutConfig input) →
       map SeatingAssignment.benchNumber
           (filter (fun a => SeatingAssignment.room a = e.1) plan)
       ≡ₚ benchLabels (Room.studentsPerBench e.2) (seatedIn e.1 plan).
Proof.
  intros Hkeys Hflow Hplan e He.
  destruct (flow_seats input output plan Hflow Hplan) as (roster & pool & _ & _ & ->).
  unfold seatedIn. rewrite !sortPlan_Permutation.
  destruct (layoutSeats_chunk _ pool e (roomKeys_NoDup _ Hkeys) He) as [pool_e ->].
  by rewrite roomSeats_labels.
Qed.
End SeatsFlow.

(** ** Same-branch benches *)

Lemma seatSingles_pool seatInfo bc n pool :
  students (seatSingles seatInfo bc n pool).1 ++ (seatSingles seatInfo bc n pool).2
  ≡ₚ pool.
Proof.
  revert bc pool. induction n as [|n IH]; intros bc pool; simpl; [done|].
  destruct pool as [|s pool]; simpl; [done|].
  specialize (IH (S bc) pool).
  destruct (seatSingles seatInfo (S bc) n pool) as [new rest]. simpl in *.
  by rewrite student_assign, IH.
Qed.

Lemma seatDoubles_pool seatInfo bc n pool :
  students (seatDoubles seatInfo bc n pool).1 ++ (seatDoubles seatInfo bc n pool).2
  ≡ₚ pool.
Proof.
  revert bc pool. induction n as [|n IH]; intros bc pool; simpl; [done|].
  destruct pool as [|s1 [|next pool]]; simpl; [done| |].
  { by rewrite student_assign. }
  destruct (pickPartner_spec s1 next pool) as (s2 & pool' & -> & Hperm & _).
  specialize (IH (S bc) pool').
  destruct (seatDoubles seatInfo (S bc) n pool') as [new rest]. simpl in *.
  by rewrite !student_assign, IH, Hperm.
Qed.

Lemma roomSeats_pool seatInfo room pool :
  students (roomSeats seatInfo room pool).1 ++ (roomSeats seatInfo room pool).2
  ≡ₚ pool.
Proof.
  unfold roomSeats.
  destruct (Room.studentsPerBench room =? 1); [apply seatSingles_pool|].
  destruct (Room.studentsPerBench room =? 2); [apply seatDoubles_pool|done].
Qed.

Lemma layoutSeats_pool rooms pool :
  students (layoutSeats rooms pool).1 ++ (layoutSeats rooms pool).2 ≡ₚ pool.
Proof.
  revert pool. induction rooms as [|e rooms IH]; intros pool; simpl; [done|].
  pose proof (roomSeats_pool e.1 e.2 pool) as Hroom.
  destruct (roomSeats e.1 e.2 pool) as [new rest].
  specialize (IH rest). destruct (layoutSeats rooms rest) as [news final].
  simpl in *. unfold students in *.
  by rewrite map_app, <- (assoc app), IH.
Qed.

Lemma seatDoubles_same_branch seatInfo bc n pool i k l r :
  i = 2 * k →
  (seatDoubles seatInfo bc n pool).1 !! i = Some l →
  (seatDoubles seatInfo bc n pool).1 !! S i = Some r →
  SeatingAssignment.branch l = SeatingAssignment.branch r →
  ∀ s, s ∈ students (drop (S (S i)) (seatDoubles seatInfo bc n pool).1)
             ++ (seatDoubles seatInfo bc n pool).2 →
       Student.branch s = SeatingAssignment.branch l.
Proof.
  revert bc pool i k. induction n as [|n IH]; intros bc pool i k Hi; simpl; [done|].
  destruct pool as [|s1 [|next pool]]; simpl; [done|done|].
  destruct (pickPartner_spec s1 next pool) as (s2 & pool' & -> & Hperm & _ & Hsame).
  pose proof (seatDoubles_pool seatInfo (S bc) n pool') as Hpool.
  specialize (IH (S bc) pool').
  destruct (seatDoubles seatInfo (S bc) n pool') as [new rest]. simpl in *.
  destruct k as [|k].
  - subst i. simpl. intros [= <-] [= <-] Hbranch s Hs. simpl in *.
    destruct (Hsame (eq_sym Hbranch)) as (_ & -> & Hall).
    apply Hall. right. by rewrite <- Hpool.
  - replace i with (S (S (2 * k))) by lia. simpl.
    apply (IH (k + (k + 0)) k). lia.
Qed.

Lemma doubleLabel_left bc k : doubleLabel bc (2 * k) = pretty (bc + k) +:+ "L".
Proof.
  unfold doubleLabel. rewrite Nat.even_even.
  by rewrite (Nat.mul_comm 2 k), Nat.div_mul.
Qed.

Lemma doubleLabel_right bc k : doubleLabel bc (2 * k + 1) = pretty (bc + k) +:+ "R".
Proof.
  unfold doubleLabel.
  replace (Nat.even (2 * k + 1)) with false.
  - rewrite (Nat.mul_comm 2 k), Nat.div_add_l by done.
    by rewrite (Nat.div_small 1 2), Nat.add_0_r by lia.
  - rewrite <- Nat.negb_odd, Nat.odd_odd. done.
Qed.

Lemma double_room_label seatInfo room pool i a :
  Room.studentsPerBench room = 2 →
  (roomSeats seatInfo room pool).1 !! i = Some a →
  SeatingAssignment.benchNumber a = doubleLabel 1 i.
Proof.
  intros Hspb Ha.
  assert (H : map SeatingAssignment.benchNumber (roomSeats seatInfo room pool).1 !! i
              = Some (SeatingAssignment.benchNumber a)).
  { change (map SeatingAssignment.benchNumber (roomSeats seatInfo room pool).1)
      with (SeatingAssignment.benchNumber <$> (roomSeats seatInfo room pool).1).
    by rewrite list_lookup_fmap, Ha. }
  rewrite roomSeats_labels in H. unfold benchLabels in H. rewrite Hspb in H.
  simpl in H.
  change (map (doubleLabel 1) ?l) with (doubleLabel 1 <$> l) in H.
  rewrite list_lookup_fmap in H.
  destruct (seq 0 _ !! i) as [j|] eqn:Hj; [|done].
  apply lookup_seq in Hj as [-> _]. by injection H.
Qed.

Lemma roomSeats_same_branch
    (seatInfo : string * string * string) (room : Room.t) (pool : list Student.t)
    (k : nat) (l r : SeatingAssignment.t) :
  Room.studentsPerBench room = 2 →
  (roomSeats seatInfo room pool).1 !! (2 * k) = Some l →
  (roomSeats seatInfo room pool).1 !! (2 * k + 1) = Some r →
  SeatingAssignment.branch l = SeatingAssignment.branch r →
  (∀ a, a ∈ drop (2 * k + 2) (roomSeats seatInfo room pool).1 →
        SeatingAssignment.branch a = SeatingAssignment.branch l)
  ∧ (∀ s, s ∈ (roomSeats seatInfo room pool).2 →
          Student.branch s = SeatingAssignment.branch l).
Proof.
  intros Hspb Hl Hr Hbranch.
  assert (Hall : ∀ s, s ∈ students (drop (2 * k + 2) (roomSeats seatInfo room pool).1)
                            ++ (roomSeats seatInfo room pool).2 →
                      Student.branch s = SeatingAssignment.branch l).
  { revert Hl Hr. unfold roomSeats. rewrite Hspb. simpl.
    replace (k + (k + 0) + 1) with (S (2 * k)) by lia.
    replace (k + (k + 0) + 2) with (S (S (2 * k))) by lia.
    replace (k + (k + 0)) with (2 * k) by lia.
    intros Hl Hr.
    exact (seatDoubles_same_branch _ _ _ _ (2 * k) k l r eq_refl Hl Hr Hbranch). }
  split.
  - intros a Ha. apply (Hall (SeatingAssignment.student a)).
    apply elem_of_app. left. by apply list_elem_of_fmap_2.
  - intros s Hs. apply Hall, elem_of_app. by right.
Qed.

Lemma lookup_app_plus {A} (l1 l2 : list A) (i : nat) :
  (l1 ++ l2) !! (length l1 + i) = l2 !! i.
Proof. rewrite lookup_app_r by lia. f_equal. lia. Qed.

(** X13.  A room of double benches, entered with room for its seats under the
ceiling (as every room of the traversal is).  Of the entries that it adds to
the plan, the one after 2k others is on the L seat of bench k+1 and the one
after 2k+1 others on the R seat of this bench.  When the two of a bench share
a branch, every student seated after them in this room and every student
still in the pool when the room is left is of that branch: two students of
one branch share a bench only when no other branch is left to seat. *)
Theorem same_branch_bench_leaves_one_branch (totalCapacity : nat)
    (seatInfo : string * string * string) (room : Room.t) (st : Alloc.t) :
  Room.studentsPerBench room = 2 →
  Alloc.studentIndex st + roomCapacity room ≤ totalCapacity →
  let added i :=
    Alloc.seatingPlan (allocRoom totalCapacity seatInfo room st)
      !! (length (Alloc.seatingPlan st) + i) in
  (∀ k l, added (2 * k) = Some l →
          SeatingAssignment.benchNumber l = pretty (1 + k) +:+ "L")
  ∧ (∀ k r, added (2 * k + 1) = Some r →
            SeatingAssignment.benchNumber r = pretty (1 + k) +:+ "R")
  ∧ (∀ k l r,
       added (2 * k) = Some l → added (2 * k + 1) = Some r →
       SeatingAssignment.branch l = SeatingAssignment.branch r →
       (∀ a, a ∈ drop (length (Alloc.seatingPlan st) + (2 * k + 2))
                   (Alloc.seatingPlan (allocRoom totalCapacity seatInfo room st)) →
             SeatingAssignment.branch a = SeatingAssignment.branch l)
       ∧ (∀ s, s ∈ Alloc.studentPool (allocRoom totalCapacity seatInfo room st) →
               Student.branch s = SeatingAssignment.branch l)).
Proof.
  intros Hspb Hceil added. unfold added. rewrite allocRoom_seats by done.
  cbn [Alloc.seatingPlan Alloc.studentPool].
  split; [|split].
  - intros k l. rewrite lookup_app_plus. intros Hl.
    by rewrite (double_room_label _ _ _ _ _ Hspb Hl), doubleLabel_left.
  - intros k r. rewrite lookup_app_plus. intros Hr.
    by rewrite (double_room_label _ _ _ _ _ Hspb Hr), doubleLabel_right.
  - intros k l r. rewrite !lookup_app_plus, drop_app_add' by done.
    intros Hl Hr Hbranch.
    by apply (roomSeats_same_branch seatInfo room (Alloc.studentPool st) k l r).
Qed.

(** ** The payload of a data URI *)

Lemma indexOfChar_split (c : ascii) (s : string) :
  match indexOfChar c s with
  | Some i => ∃ header, String.length header = i
                        ∧ indexOfChar c header = None
                        ∧ s = header +:+ String c (substringFrom (i + 1) s)
  | None => True
  end.
Proof.
  induction s as [|a s IH]; simpl; [done|].
  destruct (Ascii.eqb_spec a c) as [->|Hne].
  - exists "". by simpl.
  - destruct (indexOfChar c s) as [i|]; simpl; [|done].
    destruct IH as (header & Hlen & Hnone & Hs).
    exists (String a header). simpl. rewrite Hlen, Hnone.
    destruct (Ascii.eqb_spec a c) as [?|_]; [done|].
    split; [done|]. split; [done|].
    change (String a s = String a (header +:+ String c (substringFrom (i + 1) s))).
    by rewrite <- Hs.
Qed.

(** X14.  The text that [dataUriToBuffer] hands to the base64 decoder is what
follows the first comma of the data URI: the URI is a header without a comma,
the comma, and that text.  A URI without a comma is handed over whole. *)
Theorem payload_follows_first_comma (dataUri : string) :
  match indexOfChar "," dataUri with
  | Some i => ∃ header, String.length header = i
                        ∧ indexOfChar "," header = None
                        ∧ dataUri = header +:+ "," +:+ base64Payload dataUri
  | None => base64Payload dataUri = dataUri
  end.
Proof.
  pose proof (indexOfChar_split "," dataUri) as H. unfold base64Payload.
  destruct (indexOfChar "," dataUri) as [i|]; [|done].
  destruct H as (header & Hlen & Hnone & Hs). by exists header.
Qed.

(** ** The absentee list of the admin dashboard *)

Lemma absentees_seated plan : absentees plan (students plan) = [].
Proof.
  unfold absentees. apply filter_none. intros s Hs Hout. apply Hout.
  apply elem_of_list_to_set.
  apply list_elem_of_fmap in Hs as (a & -> & Ha).
  change (SeatingAssignment.hallTicketNumber a
          ∈ SeatingAssignment.hallTicketNumber <$> plan).
  by apply list_elem_of_fmap_2.
Qed.

Lemma absentees_split plan seated rest roster :
  seated = students plan → seated ++ rest ≡ₚ roster →
  absentees plan roster
  ≡ₚ filter (fun s => Student.hallTicketNumber s
                      ∉ map SeatingAssignment.hallTicketNumber plan) rest.
Proof.
  intros -> Hperm. unfold absentees. rewrite <- Hperm, filter_app.
  fold (absentees plan (students plan)). rewrite absentees_seated. simpl.
  erewrite list_filter_iff; [done|].
  intros s. simpl. by rewrite elem_of_list_to_set.
Qed.

Section AbsenteeFacts.
Variable rnd : nat -> nat.
Variable localeCompare : string -> string -> Z.
Variable prototypeCounts :
  RoomBranchSummary -> list SeatingAssignment.t -> Result RoomBranchSummary.

Local Abbreviation flow := (seatingArrangementFlow rnd localeCompare prototypeCounts).

(** The students of a returned plan, with the students left in the pool, are
    the roster. *)
Lemma flow_leftover input roster output plan :
  readFiles (Input.studentListDataUris input) [] = Ok roster →
  flow input = Ok output →
  Output.seatingPlan output = Some plan →
  Output.allStudents output = Some roster
  ∧ ∃ rest, students plan ++ rest ≡ₚ roster
            ∧ length plan
              = Nat.min (length roster)
                        (usableSum (layoutRooms (Input.layoutConfig input))).
Proof.
  intros Hread Hflow Hplan.
  destruct (flow_plan rnd localeCompare prototypeCounts input output plan Hflow Hplan)
    as (roster' & summary & news & rest & Hread' & _ & _ & -> & _ & _ & _ & Hperm & Hlen).
  assert (roster' = roster) as -> by congruence.
  split; [done|]. by exists rest.
Qed.

(** X15.  The absentee list that the admin dashboard computes from a stored
answer (the roster students whose hall ticket number is on no entry of the
plan) never lists more students than the plan leaves out.  When the hall
ticket numbers of the roster are distinct, it is exactly the students left
out: with the seated students it makes up the roster.  For a valid layout
whose capped capacity holds the roster, it is empty. *)
Theorem absentees_are_the_unseated (input : Input.t) (roster : list Student.t)
    (output : Output.t) (plan : list SeatingAssignment.t) :
  readFiles (Input.studentListDataUris input) [] = Ok roster →
  flow input = Ok output →
  Output.seatingPlan output = Some plan →
  Output.allStudents output = Some roster
  ∧ length (absentees plan roster) + length plan ≤ length roster
  ∧ (NoDup (map Student.hallTicketNumber roster) →
     students plan ++ absentees plan roster ≡ₚ roster)
  ∧ (LayoutFormSchema (Input.layoutConfig input) = true →
     length roster ≤ effectiveCapacity (Input.layoutConfig input) →
     absentees plan roster = []).
Proof.
  intros Hread Hflow Hplan.
  destruct (flow_leftover input roster output plan Hread Hflow Hplan)
    as (Hall & rest & Hperm & Hlen).
  pose proof (absentees_split plan _ rest roster eq_refl Hperm) as Habs.
  assert (Hbound : length (absentees plan roster) + length plan ≤ length roster).
  { rewrite Habs, <- Hperm, length_app. unfold students. rewrite length_map.
    pose proof (length_filter
                  (fun s => Student.hallTicketNumber s
                            ∉ map SeatingAssignment.hallTicketNumber plan) rest).
    lia. }
  split; [done|]. split; [done|]. split.
  - intros Hnd. rewrite Habs, filter_all; [done|].
    intros s Hs Hin.
    rewrite <- Hperm in Hnd.
    change (NoDup (Student.hallTicketNumber <$> (students plan ++ rest))) in Hnd.
    rewrite fmap_app in Hnd. apply NoDup_app in Hnd as (_ & Hdisj & _).
    apply (Hdisj (Student.hallTicketNumber s)).
    + unfold students.
      change (Student.hallTicketNumber s
              ∈ Student.hallTicketNumber <$> (SeatingAssignment.student <$> plan)).
      by rewrite <- list_fmap_compose.
    + by apply list_elem_of_fmap_2.
  - intros Hvalid Hfits. rewrite valid_layout_usable in Hlen by done.
    apply length_zero_iff_nil. lia.
Qed.
End AbsenteeFacts.

Lemma spreadSet_spec seen values :
  NoDup (spreadSet seen values)
  ∧ ∀ v, v ∈ spreadSet seen values ↔ v ∈ values ∧ v ∉ seen.
Proof.
  revert seen. induction values as [|v0 values IH]; intros seen; simpl.
  { split; [constructor|]. intros v. rewrite elem_of_nil. tauto. }
  destruct (decide (v0 ∈ seen)) as [Hseen|Hnew].
  - destruct (IH seen) as [Hnd Hin]. split; [done|].
    intros v. rewrite Hin, elem_of_cons. split.
    + intros [? ?]. split; [by right | done].
    + intros [[->|?] ?]; [done|]. by split.
  - destruct (IH ({[ v0 ]} ∪ seen)) as [Hnd Hin]. split.
    + constructor; [|done]. rewrite Hin. intros [_ Hout]. apply Hout.
      apply elem_of_union. left. by apply elem_of_singleton.
    + intros v. rewrite !elem_of_cons, Hin, not_elem_of_union, not_elem_of_singleton.
      split.
      * intros [->|(? & ? & ?)]; [split; [by left | done]|]. split; [by right | done].
      * intros [[->|?] ?]; [by left|].
        destruct (decide (v = v0)) as [->|?]; [by left|]. right. by repeat split.
Qed.

Lemma NoDup_fmap_eq {A B} (f : A → B) (l : list A) (x y : A) :
  NoDup (f <$> l) → x ∈ l → y ∈ l → f x = f y → x = y.
Proof.
  induction l as [|z l IH]; simpl; intros Hnd Hx Hy Heq.
  { by apply elem_of_nil in Hx. }
  apply NoDup_cons in Hnd as [Hz Hnd].
  apply elem_of_cons in Hx as [->|Hx]; apply elem_of_cons in Hy as [->|Hy].
  - done.
  - exfalso. apply Hz. rewrite Heq. by apply list_elem_of_fmap_2.
  - exfalso. apply Hz. rewrite <- Heq. by apply list_elem_of_fmap_2.
  - by apply IH.
Qed.

(** The lists of a grouping by key, over keys that are distinct and cover the
    list, hold each element once. *)
Lemma groups_Permutation {A B} (key : A → string) (f : A → B)
    (keys : list string) (l : list A) :
  NoDup keys → (∀ x, x ∈ l → key x ∈ keys) →
  concat (map (fun k => map f (filter (fun x => key x = k) l)) keys) ≡ₚ map f l.
Proof.
  revert l. induction keys as [|k keys IH]; intros l Hnd Hcover.
  { destruct l as [|x l]; [done|].
    specialize (Hcover x (list_elem_of_here x l)). by apply elem_of_nil in Hcover. }
  apply NoDup_cons in Hnd as [Hk Hnd]. simpl.
  transitivity (map f (filter (fun x => key x = k) l
                       ++ filter (fun x => ¬ key x = k) l));
    [|by rewrite filter_app_complement].
  rewrite map_app. f_equiv.
  rewrite <- (IH (filter (fun x => ¬ key x = k) l) Hnd).
  - apply reflexive_eq. f_equal. apply map_ext_in. intros k' Hk'.
    apply list_elem_of_In in Hk'. f_equal.
    rewrite list_filter_filter. apply list_filter_iff.
    intros x. split; [|tauto]. intros Hx. split; [done|].
    intros Hx'. apply Hk. by rewrite <- Hx', Hx.
  - intros x Hx. apply list_elem_of_filter in Hx as [Hne Hx].
    specialize (Hcover x Hx). apply elem_of_cons in Hcover as [?|?]; done.
Qed.

(** X16.  The table of absentees by branch that the admin dashboard prints has
one entry for each branch of the roster (also for a branch without an
absentee), and its lists together hold the hall ticket number of every
absentee once, each under the branch of its student. *)
Theorem absentees_by_branch_partition (plan : list SeatingAssignment.t)
    (allStudents : list Student.t) :
  NoDup (map fst (absenteesByBranch plan allStudents))
  ∧ (∀ branch, branch ∈ map fst (absenteesByBranch plan allStudents)
               ↔ branch ∈ map Student.branch allStudents)
  ∧ (∀ branch tickets ticket,
       (branch, tickets) ∈ absenteesByBranch plan allStudents →
       ticket ∈ tickets →
       ∃ s, s ∈ absentees plan allStudents
            ∧ Student.branch s = branch ∧ Student.hallTicketNumber s = ticket)
  ∧ concat (map snd (absenteesByBranch plan allStudents))
    ≡ₚ map Student.hallTicketNumber (absentees plan allStudents).
Proof.
  unfold absenteesByBranch.
  destruct (spreadSet_spec ∅ (map Student.branch allStudents)) as [Hnd Hin].
  set (allBranches := spreadSet ∅ (map Student.branch allStudents)) in *.
  rewrite !map_map. simpl. rewrite map_id.
  split; [done|]. split; [|split].
  - intros branch. rewrite Hin. split; [by intros [? _]|]. intros ?. split; [done|].
    apply not_elem_of_empty.
  - intros branch tickets ticket Hentry Hticket.
    apply list_elem_of_fmap in Hentry as (b & [= -> ->] & _).
    apply list_elem_of_fmap in Hticket as (s & -> & Hs).
    apply list_elem_of_filter in Hs as [Hb Hs]. by exists s.
  - apply groups_Permutation; [done|].
    intros s Hs. apply Hin. split; [|apply not_elem_of_empty].
    apply list_elem_of_filter in Hs as [_ Hs].
    by apply list_elem_of_fmap_2.
Qed.

(** ** The lookup of the student dashboard *)

Section LookupFacts.
Variable rnd : nat -> nat.
Variable localeCompare : string -> string -> Z.
Variable prototypeCounts :
  RoomBranchSummary -> list SeatingAssignment.t -> Result RoomBranchSummary.

Local Abbreviation flow := (seatingArrangementFlow rnd localeCompare prototypeCounts).

(** X17.  When the hall ticket numbers of the roster are distinct up to the
case of their letters, a student of the roster who looks a seat up by hall
ticket number, in any letter case, is shown the entry of the plan that is
theirs, or is told that the number is not in the plan; in this case the
student is on the absentee list of the admin dashboard. *)
Theorem student_is_found_or_absent (input : Input.t) (roster : list Student.t)
    (output : Output.t) (plan : list SeatingAssignment.t) (s : Student.t)
    (hallTicketNumber : string) :
  readFiles (Input.studentListDataUris input) [] = Ok roster →
  flow input = Ok output →
  Output.seatingPlan output = Some plan →
  NoDup (map (fun s => JsString.toLowerCase (Student.hallTicketNumber s)) roster) →
  s ∈ roster →
  JsString.toLowerCase hallTicketNumber
  = JsString.toLowerCase (Student.hallTicketNumber s) →
  (∃ a, findStudent plan hallTicketNumber = Some a
        ∧ a ∈ plan ∧ SeatingAssignment.student a = s)
  ∨ (findStudent plan hallTicketNumber = None ∧ s ∈ absentees plan roster).
Proof.
  intros Hread Hflow Hplan Hnd Hs Hcase.
  destruct (flow_leftover rnd localeCompare prototypeCounts input roster output plan
              Hread Hflow Hplan)
    as (_ & rest & Hperm & _).
  unfold findStudent.
  destruct (List.find _ plan) as [a|] eqn:Hfind.
  - left. exists a. split; [done|].
    apply find_some in Hfind as [Ha Heq].
    apply list_elem_of_In in Ha. apply String.eqb_eq in Heq.
    split; [done|].
    apply (NoDup_fmap_eq
             (fun s => JsString.toLowerCase (Student.hallTicketNumber s)) roster);
      [done| |done|].
    + rewrite <- Hperm. apply elem_of_app. left. by apply list_elem_of_fmap_2.
    + simpl. by rewrite Heq.
  - right. split; [done|].
    unfold absentees. apply list_elem_of_filter. split; [|done].
    rewrite elem_of_list_to_set. intros Hin.
    apply list_elem_of_fmap in Hin as (a & Hticket & Ha).
    apply list_elem_of_In in Ha.
    pose proof (find_none _ _ Hfind a Ha) as Hno. simpl in Hno.
    rewrite <- Hticket, Hcase, String.eqb_refl in Hno. done.
Qed.
End LookupFacts.

(** ** The pool keeps the students of a branch together *)

Lemma getProperty_is_Some {V} (o : list (string * V)) k :
  k ∈ o.*1 → ∃ v, getProperty o k = Some v.
Proof.
  induction o as [|[k' v'] o IH]; simpl; intros Hk.
  { by apply elem_of_nil in Hk. }
  destruct (String.eqb_spec k' k) as [->|Hne]; [by eexists|].
  apply elem_of_cons in Hk as [?|Hk]; [done|]. by apply IH.
Qed.

Lemma pair_key_unique {V} (o : list (string * V)) k v v' :
  NoDup o.*1 → (k, v) ∈ o → (k, v') ∈ o → v = v'.
Proof.
  intros Hnd H1 H2.
  assert (E : (k, v) = (k, v')); [|by injection E].
  by apply (NoDup_fmap_eq fst o).
Qed.

Lemma pair_value_unique (o : list (string * nat)) k k' v :
  NoDup o.*2 → (k, v) ∈ o → (k', v) ∈ o → k = k'.
Proof.
  intros Hnd H1 H2.
  assert (E : (k, v) = (k', v)); [|by injection E].
  by apply (NoDup_fmap_eq snd o).
Qed.

Lemma pushToBranch_grouped all done p student p' :
  pushToBranch p student = Ok p' →
  PartitionInv all done p → Grouped done p →
  Grouped (done ++ [student]) p'.
Proof.
  intros Hpush [Hroster Hkeys Hlocs Hrange Hnext Hflat] [Harrays Hnames].
  unfold pushToBranch in Hpush.
  destruct (getProperty _ _) as [loc|] eqn:Hget.
  - injection Hpush as <-. apply getProperty_Some in Hget. split; simpl.
    + intros b l Hbl. rewrite filter_app.
      destruct (decide (l = loc)) as [->|Hne].
      * rewrite (pair_value_unique _ _ _ _ Hlocs Hbl Hget).
        rewrite lookup_alter_eq, (Harrays _ _ Hget). simpl.
        by rewrite filter_cons_True.
      * rewrite lookup_alter_ne by done. rewrite (Harrays _ _ Hbl).
        rewrite filter_cons_False, app_nil_r; [done|].
        intros Hb. apply Hne. rewrite <- Hb in Hbl.
        by apply (pair_key_unique _ _ _ _ Hkeys Hbl Hget).
    + intros b. rewrite map_app, elem_of_app, Hnames. split; [by left|].
      intros [?|Hb]; [done|]. apply list_elem_of_singleton in Hb. subst b.
      apply Hnames. by apply (list_elem_of_fmap_2 fst) in Hget.
  - destruct (inherited (Student.branch student)); [done|].
    injection Hpush as <-. apply getProperty_None in Hget. split; simpl.
    + intros b l Hbl. rewrite filter_app.
      apply elem_of_app in Hbl as [Hbl|Hbl].
      * assert (Hl : l ∈ (studentsByBranch p).*2)
          by (by apply (list_elem_of_fmap_2 snd) in Hbl).
        apply Hrange in Hl. rewrite lookup_insert_ne by lia.
        rewrite (Harrays _ _ Hbl), filter_cons_False, app_nil_r; [done|].
        intros Hb. apply Hget. rewrite Hb.
        by apply (list_elem_of_fmap_2 fst) in Hbl.
      * apply list_elem_of_singleton in Hbl. injection Hbl as -> ->.
        rewrite lookup_insert_eq, filter_cons_True by done.
        rewrite filter_none; [done|].
        intros s Hs Hb. apply Hget. rewrite <- Hb. apply Hnames.
        by apply list_elem_of_fmap_2.
    + intros b. rewrite fmap_app, map_app, !elem_of_app, Hnames. simpl.
      by rewrite !list_elem_of_singleton.
Qed.

Lemma groupFrom_grouped all n i p p' :
  i + n ≤ length all →
  groupFrom n i p = Ok p' →
  PartitionInv all (take i all) p → Grouped (take i all) p →
  Grouped (take (i + n) all) p'.
Proof.
  revert i p. induction n as [|n IH]; intros i p Hlen Hgroup Hinv Hgr;
    simpl in Hgroup.
  - injection Hgroup as <-. by rewrite Nat.add_0_r.
  - rewrite (inv_roster _ _ _ Hinv) in Hgroup. simpl in Hgroup.
    destruct (lookup_lt_is_Some_2 all i) as [student Hs]; [lia|].
    rewrite Hs in Hgroup. replace (i + S n) with (S i + n) by lia.
    destruct (pushToBranch p student) as [p1|e] eqn:Hpush; [|done].
    apply (IH (S i) p1); [lia|done| |]; rewrite (take_S_r all i student Hs).
    + by apply (pushToBranch_inv all _ p).
    + by apply (pushToBranch_grouped all _ p).
Qed.

Lemma groupByBranch_grouped all (h : Heap) p :
  h !! allStudentsLoc = Some all → groupByBranch h = Ok p → Grouped all p.
Proof.
  intros Hh. unfold groupByBranch. rewrite Hh. simpl. intros Hgroup.
  rewrite <- (firstn_all all) at 1.
  apply (groupFrom_grouped all (length all) 0
           (mkPartition h (S allStudentsLoc) []) p); [lia|done| |].
  - by apply initial_inv.
  - split; simpl; [|done]. intros b loc Hb. by apply elem_of_nil in Hb.
Qed.

(** Shuffling an array in place leaves every array a rearrangement of what it
    held. *)
Lemma shuffleAt_rearranges rnd loc (hk : Heap * nat) l a :
  hk.1 !! l = Some a →
  ∃ a', (shuffleAt rnd loc hk).1 !! l = Some a' ∧ a' ≡ₚ a.
Proof.
  intros Ha. unfold shuffleAt.
  destruct (hk.1 !! loc) as [array|] eqn:Hloc; [|by exists a].
  pose proof (shuffleArray_Permutation rnd hk.2 array) as Hperm.
  destruct (shuffleArray rnd hk.2 array) as [array' k']. simpl in *.
  destruct (decide (l = loc)) as [->|Hne].
  - exists array'. rewrite lookup_insert_eq. split; [done|]. congruence.
  - exists a. by rewrite lookup_insert_ne.
Qed.

Lemma shuffleEach_rearranges rnd (entries : list (string * nat)) (hk : Heap * nat) l a :
  hk.1 !! l = Some a →
  ∃ a', (fold_left (fun hk e => shuffleAt rnd e.2 hk) entries hk).1 !! l = Some a'
        ∧ a' ≡ₚ a.
Proof.
  revert hk a. induction entries as [|e entries IH]; intros hk a Ha; simpl.
  { by exists a. }
  destruct (shuffleAt_rearranges rnd e.2 hk l a Ha) as (a1 & Ha1 & Hp1).
  destruct (IH _ a1 Ha1) as (a2 & Ha2 & Hp2).
  exists a2. split; [done|]. by rewrite Hp2.
Qed.

Lemma list_bind_concat {A B} (f : A → list B) (l : list A) :
  l ≫= f = concat (map f l).
Proof. induction l as [|x l IH]; [done|]. rewrite bind_cons, IH. done. Qed.

(** X18.  The partition of the roster, in a realm where [Object.prototype]
has its own members only.  When no branch of the roster names a member of
[Object.prototype], the pool that the allocator is served from is made of one
run of students for each branch of the roster: the branches stand in some
order, each once, and the run of a branch is the students of the roster of
this branch, in some order; students of one branch are never apart in the
pool.  When a branch does, line 199 throws and there is no pool. *)
Theorem pool_keeps_branches_together (rnd : nat -> nat) (all : list Student.t) :
  match buildPool rnd {[ allStudentsLoc := all ]} with
  | Ok (_, pool) =>
      plainBranches all
      ∧ ∃ branchNames groups,
          pool = concat groups
          ∧ NoDup branchNames
          ∧ (∀ b, b ∈ branchNames ↔ b ∈ map Student.branch all)
          ∧ Forall2 (fun b group =>
                       group ≡ₚ filter (fun s => Student.branch s = b) all)
                    branchNames groups
  | Throw e =>
      e = pushIsNotAFunction
      ∧ Exists (fun s => inherited (Student.branch s) = true) all
  end.
Proof.
  assert (Hh : ({[ allStudentsLoc := all ]} : Heap) !! allStudentsLoc = Some all)
    by apply lookup_singleton_eq.
  destruct (buildPool_cases rnd all _ Hh) as [[Hplain (h' & pool & Hbuild)]|[Hbad ->]];
    [|done].
  rewrite Hbuild. split; [done|].
  unfold buildPool in Hbuild.
  destruct (groupByBranch _) as [p|e] eqn:Hgroup; [|done]. simpl in Hbuild.
  pose proof (groupByBranch_inv all _ p Hh Hgroup) as Hinv.
  destruct (groupByBranch_grouped all _ p Hh Hgroup) as [Harrays Hnames].
  assert (Hsh : ∀ b loc, (b, loc) ∈ studentsByBranch p →
            ∃ a', (shuffleBranches rnd p 0).1 !! loc = Some a'
                  ∧ a' ≡ₚ filter (fun s => Student.branch s = b) all).
  { intros b loc Hb. apply shuffleEach_rearranges. simpl. by apply Harrays. }
  destruct (shuffleBranches rnd p 0) as [h1 k]. simpl in *.
  injection Hbuild as <- <-.
  assert (Hshuffle : (shuffleArray rnd k (ownProperties (studentsByBranch p)).*1).1
                     ≡ₚ (studentsByBranch p).*1).
  { etransitivity; [apply shuffleArray_Permutation|].
    apply fmap_Permutation, ownProperties_Permutation. }
  set (branchNames := (shuffleArray rnd k _).1) in *.
  exists branchNames,
    (map (fun b => default [] (getProperty (studentsByBranch p) b ≫= (h1 !!.)))
         branchNames).
  split; [apply list_bind_concat|]. split; [|split].
  - rewrite Hshuffle. apply Hinv.
  - intros b. by rewrite Hshuffle, Hnames.
  - apply Forall2_fmap_r, Forall_Forall2_diag, Forall_forall.
    intros b Hb. rewrite Hshuffle in Hb.
    destruct (getProperty_is_Some _ _ Hb) as [loc Hloc].
    unfold compose. rewrite Hloc. simpl.
    apply getProperty_Some in Hloc.
    destruct (Hsh b loc Hloc) as (a' & -> & Hperm). done.
Qed.

(** ** The order of the returned plan *)

Section SortFacts.
Variable localeCompare : string -> string -> Z.
Hypothesis localeCompare_sign :
  ∀ a b, (0 < localeCompare a b → localeCompare b a <= 0)%Z.
Hypothesis localeCompare_trans :
  ∀ a b c, (localeCompare a b <= 0 → localeCompare b c <= 0 →
            localeCompare a c <= 0)%Z.

Local Abbreviation before :=
  (fun a b => (compareAssignments localeCompare a b <= 0)%Z).

Lemma insertSorted_sorted x l :
  StronglySorted before l → StronglySorted before (insertSorted localeCompare x l).
Proof.
  induction 1 as [|y l Hsorted IH Hy]; simpl.
  { repeat constructor. }
  destruct (Z.ltb_spec 0 (compareAssignments localeCompare x y)) as [Hgt|Hle].
  - constructor; [done|].
    rewrite insertSorted_Permutation. constructor; [|done].
    by apply localeCompare_sign.
  - constructor; [by constructor|]. constructor; [done|].
    eapply Forall_impl; [exact Hy|]. simpl. intros z Hz.
    by apply (localeCompare_trans _ (SeatingAssignment.hallTicketNumber y)).
Qed.

Lemma sortPlan_sorted plan : StronglySorted before (sortPlan localeCompare plan).
Proof.
  induction plan as [|x plan IH]; simpl; [constructor|].
  by apply insertSorted_sorted.
Qed.
End SortFacts.

(** X19.  With a comparison of strings that is consistent (when it puts a
after b it does not put b after a, and not being after is transitive), the
returned plan is in the order of the hall ticket numbers: no entry is followed,
at any distance, by one that the comparison puts before it. *)
Theorem returned_plan_is_sorted (rnd : nat -> nat)
    (localeCompare : string -> string -> Z)
    (prototypeCounts :
       RoomBranchSummary -> list SeatingAssignment.t -> Result RoomBranchSummary)
    (input : Input.t) (output : Output.t) (plan : list SeatingAssignment.t) :
  (∀ a b, (0 < localeCompare a b → localeCompare b a <= 0)%Z) →
  (∀ a b c, (localeCompare a b <= 0 → localeCompare b c <= 0 →
             localeCompare a c <= 0)%Z) →
  seatingArrangementFlow rnd localeCompare prototypeCounts input = Ok output →
  Output.seatingPlan output = Some plan →
  StronglySorted
    (fun a b => (localeCompare (SeatingAssignment.hallTicketNumber a)
                               (SeatingAssignment.hallTicketNumber b) <= 0)%Z)
    plan.
Proof.
  intros Hsign Htrans Hflow Hplan.
  destruct (flow_seats rnd localeCompare prototypeCounts input output plan Hflow Hplan)
    as (roster & pool & _ & _ & ->).
  by apply sortPlan_sorted.
Qed.

(** ** The comparison by code units is consistent *)

Lemma ordinalCompare_le (a b : string) :
  (Sample.ordinalCompare a b <= 0)%Z ↔ OrderedTypeEx.String_as_OT.lt a b ∨ a = b.
Proof.
  unfold Sample.ordinalCompare.
  pose proof (OrderedTypeEx.String_as_OT.cmp_lt a b) as Hlt.
  pose proof (OrderedTypeEx.String_as_OT.cmp_eq a b) as Heq.
  unfold OrderedTypeEx.String_as_OT.cmp in *.
  destruct (String.compare a b).
  - split; [|done]. intros _. right. by apply Heq.
  - split; [|done]. intros _. left. by apply Hlt.
  - split; [lia|]. intros [H|H]; [by apply Hlt in H | by apply Heq in H].
Qed.

Lemma ordinalCompare_sign (a b : string) :
  (0 < Sample.ordinalCompare a b → Sample.ordinalCompare b a <= 0)%Z.
Proof.
  unfold Sample.ordinalCompare. rewrite (String.compare_antisym b a).
  destruct (String.compare a b); simpl; lia.
Qed.

Lemma ordinalCompare_trans (a b c : string) :
  (Sample.ordinalCompare a b <= 0 → Sample.ordinalCompare b c <= 0 →
   Sample.ordinalCompare a c <= 0)%Z.
Proof.
  rewrite !ordinalCompare_le. intros [Hab| ->] [Hbc| ->]; auto.
  left. by apply (OrderedTypeEx.String_as_OT.lt_trans a b c).
Qed.

(** ** The properties on the sample inputs *)

Lemma read_students_are_named_witness :
  Forall (fun s => Student.name s ≠ "" ∧ Student.hallTicketNumber s ≠ "")
         Sample.three.
Proof.
  apply (read_students_are_named (Sample.csvFile (map Sample.rowOf Sample.three))).
  vm_compute. reflexivity.
Defined.

Lemma first_unreadable_file_decides_witness :
  seatingArrangementFlow Sample.zeros Sample.ordinalCompare Sample.lostCounts
    (Input.mk ([Sample.csvFile (map Sample.rowOf Sample.three)]
               ++ Sample.emptyPdf :: [Sample.headerOnly])
              (Sample.layoutOf [Room.mk "101" 2 2]))
  = Ok (Output.failure
          "Could not parse any students from the PDF. Please check the file's text format.").
Proof.
  apply (first_unreadable_file_decides Sample.zeros Sample.ordinalCompare
           Sample.lostCounts
           [Sample.csvFile (map Sample.rowOf Sample.three)] [Sample.headerOnly]
           Sample.emptyPdf
           (ErrorObj "Could not parse any students from the PDF. Please check the file's text format.")
           (Sample.layoutOf [Room.mk "101" 2 2])).
  - constructor; [|constructor]. exists Sample.three. vm_compute. reflexivity.
  - vm_compute. reflexivity.
Defined.

Lemma flow_outcomes_witness :
  ((∃ output,
      seatingArrangementFlow Sample.zeros Sample.ordinalCompare Sample.lostCounts
        Sample.constructorBranchInput = Ok output
      ∧ Output.error output = None)
   ↔ ∃ s roster,
       readFiles (Input.studentListDataUris Sample.constructorBranchInput) []
       = Ok (s :: roster)
       ∧ plainBranches (s :: roster))
  ∧ ((∃ e, seatingArrangementFlow Sample.zeros Sample.ordinalCompare
             Sample.lostCounts Sample.constructorBranchInput = Throw e)
     ↔ ∃ roster,
         readFiles (Input.studentListDataUris Sample.constructorBranchInput) []
         = Ok roster
         ∧ Exists (fun s => inherited (Student.branch s) = true) roster)
  ∧ (∀ output,
       seatingArrangementFlow Sample.zeros Sample.ordinalCompare Sample.lostCounts
         Sample.constructorBranchInput = Ok output →
       Output.error output = None →
       is_Some (Output.seatingPlan output)
       ∧ is_Some (Output.roomBranchSummary output)
       ∧ is_Some (Output.allStudents output)
       ∧ Output.examConfig output
         = Some (ExamConfig.mk
                   (LayoutConfig.startDate
                      (Input.layoutConfig Sample.constructorBranchInput))
                   (LayoutConfig.endDate
                      (Input.layoutConfig Sample.constructorBranchInput))
                   (LayoutConfig.examTimings
                      (Input.layoutConfig Sample.constructorBranchInput))
                   true)).
Proof.
  apply (flow_outcomes Sample.zeros Sample.ordinalCompare Sample.lostCounts
           Sample.constructorBranchInput).
  - vm_compute. reflexivity.
  - apply (bool_decide_unpack _). vm_compute. exact I.
Defined.

Lemma seated_count_witness :
  students Sample.fivePlan ⊆+ Sample.five ∧ length Sample.fivePlan = 4.
Proof.
  destruct (seated_count Sample.zeros Sample.ordinalCompare Sample.lostCounts
              Sample.fiveInput Sample.five (Sample.outputOf Sample.fiveInput)
              Sample.fivePlan) as [Hsub Hlen].
  - vm_compute. reflexivity.
  - vm_compute. reflexivity.
  - vm_compute. reflexivity.
  - split; [exact Hsub|]. rewrite Hlen; reflexivity.
Defined.

Lemma seated_students_are_named_witness :
  Forall (fun a => SeatingAssignment.name a ≠ ""
                   ∧ SeatingAssignment.hallTicketNumber a ≠ "")
         Sample.fivePlan.
Proof.
  apply (seated_students_are_named Sample.zeros Sample.ordinalCompare
           Sample.lostCounts Sample.fiveInput (Sample.outputOf Sample.fiveInput)).
  - vm_compute. reflexivity.
  - vm_compute. reflexivity.
Defined.

Lemma summary_counts_plan_witness :
  ∃ summary,
    Output.roomBranchSummary (Sample.outputOf Sample.constructorRoomInput)
    = Some summary
    ∧ (∀ classroom branch,
         summary !! classroom ≫= (.!! branch)
         = if inherited classroom then None
           else
             let n := length (filter (fun a => SeatingAssignment.classroom a = classroom
                                               ∧ SeatingAssignment.branch a = branch)
                                     (Sample.planOf Sample.constructorRoomInput)) in
             if decide (n = 0) then None else Some n)
    ∧ summaryTotal summary
      = length (filter (fun a => inherited (SeatingAssignment.classroom a) = false)
                       (Sample.planOf Sample.constructorRoomInput)).
Proof.
  apply (summary_counts_plan Sample.zeros Sample.ordinalCompare Sample.lostCounts
           Sample.constructorRoomInput).
  - vm_compute. reflexivity.
  - vm_compute. reflexivity.
  - apply (bool_decide_unpack _). vm_compute. exact I.
Defined.

Lemma occupied_benches_are_the_first_witness :
  map SeatingAssignment.benchNumber
      (filter (fun a => SeatingAssignment.room a = ("A", "1", "102")) Sample.fivePlan)
  ≡ₚ benchLabels 1 (seatedIn ("A", "1", "102") Sample.fivePlan).
Proof.
  apply (occupied_benches_are_the_first Sample.zeros Sample.ordinalCompare
           Sample.lostCounts Sample.fiveInput (Sample.outputOf Sample.fiveInput)
           Sample.fivePlan)
    with (e := (("A", "1", "102"), Room.mk "102" 2 1)).
  - apply (bool_decide_unpack _). vm_compute. exact I.
  - vm_compute. reflexivity.
  - vm_compute. reflexivity.
  - right. left.
Defined.

Lemma same_branch_bench_leaves_one_branch_witness :
  let added i :=
    Alloc.seatingPlan (allocRoom 4 ("A", "1", "101") (Room.mk "101" 2 2)
                                 (Alloc.mk Sample.oneBranch [] 0))
      !! (0 + i) in
  (∀ k l, added (2 * k) = Some l →
          SeatingAssignment.benchNumber l = pretty (1 + k) +:+ "L")
  ∧ (∀ k r, added (2 * k + 1) = Some r →
            SeatingAssignment.benchNumber r = pretty (1 + k) +:+ "R")
  ∧ (∀ k l r,
       added (2 * k) = Some l → added (2 * k + 1) = Some r →
       SeatingAssignment.branch l = SeatingAssignment.branch r →
       (∀ a, a ∈ drop (0 + (2 * k + 2))
                   (Alloc.seatingPlan
                      (allocRoom 4 ("A", "1", "101") (Room.mk "101" 2 2)
                                 (Alloc.mk Sample.oneBranch [] 0))) →
             SeatingAssignment.branch a = SeatingAssignment.branch l)
       ∧ (∀ s, s ∈ Alloc.studentPool
                     (allocRoom 4 ("A", "1", "101") (Room.mk "101" 2 2)
                                (Alloc.mk Sample.oneBranch [] 0)) →
               Student.branch s = SeatingAssignment.branch l)).
Proof.
  apply (same_branch_bench_leaves_one_branch 4 ("A", "1", "101") (Room.mk "101" 2 2)
           (Alloc.mk Sample.oneBranch [] 0)).
  - reflexivity.
  - vm_compute. lia.
Defined.

Lemma absentees_are_the_unseated_witness :
  Output.allStudents (Sample.outputOf Sample.fiveInput) = Some Sample.five
  ∧ length (absentees Sample.fivePlan Sample.five) + length Sample.fivePlan
    ≤ length Sample.five
  ∧ students Sample.fivePlan ++ absentees Sample.fivePlan Sample.five
    ≡ₚ Sample.five
  ∧ absentees (Sample.planOf Sample.threeInput) Sample.three = [].
Proof.
  destruct (absentees_are_the_unseated Sample.zeros Sample.ordinalCompare
              Sample.lostCounts Sample.fiveInput Sample.five
              (Sample.outputOf Sample.fiveInput) Sample.fivePlan)
    as (Hall & Hbound & Hperm & _).
  - vm_compute. reflexivity.
  - vm_compute. reflexivity.
  - vm_compute. reflexivity.
  - split; [exact Hall|]. split; [exact Hbound|]. split.
    + apply Hperm. apply (bool_decide_unpack _). vm_compute. exact I.
    + apply (absentees_are_the_unseated Sample.zeros Sample.ordinalCompare
               Sample.lostCounts Sample.threeInput Sample.three
               (Sample.outputOf Sample.threeInput)).
      * vm_compute. reflexivity.
      * vm_compute. reflexivity.
      * vm_compute. reflexivity.
      * reflexivity.
      * vm_compute. lia.
Defined.

Lemma student_is_found_or_absent_witness :
  (∃ a, findStudent Sample.fivePlan "21a01" = Some a
        ∧ a ∈ Sample.fivePlan ∧ SeatingAssignment.student a = Sample.asha)
  ∨ (findStudent Sample.fivePlan "21a01" = None
     ∧ Sample.asha ∈ absentees Sample.fivePlan Sample.five).
Proof.
  apply (student_is_found_or_absent Sample.zeros Sample.ordinalCompare
           Sample.lostCounts Sample.fiveInput Sample.five
           (Sample.outputOf Sample.fiveInput) Sample.fivePlan Sample.asha "21a01").
  - vm_compute. reflexivity.
  - vm_compute. reflexivity.
  - vm_compute. reflexivity.
  - apply (bool_decide_unpack _). vm_compute. exact I.
  - left.
  - vm_compute. reflexivity.
Defined.

Lemma returned_plan_is_sorted_witness :
  StronglySorted
    (fun a b => (Sample.ordinalCompare (SeatingAssignment.hallTicketNumber a)
                                       (SeatingAssignment.hallTicketNumber b) <= 0)%Z)
    Sample.fivePlan.
Proof.
  apply (returned_plan_is_sorted Sample.zeros Sample.ordinalCompare
           Sample.lostCounts Sample.fiveInput (Sample.outputOf Sample.fiveInput)).
  - apply ordinalCompare_sign.
  - apply ordinalCompare_trans.
  - vm_compute. reflexivity.
  - vm_compute. reflexivity.
Defined.
